(** * Enterprise Knowledge Convergence OS: intent engine and criteria engine

    A shallow embedding of
    - [packages/intent-engine/src/engine.ts] (class [IntentEngine]) with the
      types of [packages/intent-engine/src/types.ts], and
    - [packages/criteria-engine/src/engine.ts] (class [CriteriaEngine]) with
      the types of [packages/criteria-engine/src/types.ts],
    followed by the properties of the two engines.

    Conventions of the embedding.
    - A TypeScript [number] that the engines count with (lengths, [min],
      [max], scores) is an integer of [Z].
    - [any] and [Record<string, any>] are JSON values ([JValue]), which is
      what [JSON.parse] yields for the SSoT document; [undefined] is [None].
    - [Record<string, T>] used as a dictionary is a [gmap string T] of its
      own properties; where the order of the entries is observed it is an
      association list.  A lookup [obj[key]] with a computed key falls back
      to the members that a plain object inherits from [Object.prototype].
    - A [switch] over string literals is a chain of comparisons.
    - An exception is the [Throw] outcome.  In the intent engine the state
      reached when it is raised is kept, so that the [catch] block of
      [execute] decides what the engine holds afterwards.
    - [uuidv4()], [new Date()], the file system and fast-json-patch are
      supplied by the record [ExecEnv]; the dynamic operators and the
      regular expressions of JavaScript by the record [JsHost]. *)

From Stdlib Require Import ZArith Ascii String.
From stdpp Require Import base option list gmap strings pretty.

Set Warnings "-register-all".
Local Open Scope string_scope.
Local Open Scope list_scope.

(** ** JSON values *)

Inductive JValue : Type :=
| JNull
| JBool (b : bool)
| JNum (n : Z)
| JStr (s : string)
| JArr (items : list JValue)
| JObj (fields : list (string * JValue)).

(** [Record<string, any>]: the own properties in document order. *)
Abbreviation Attrs := (list (string * JValue)).

(** A value that may be [undefined]. *)
Abbreviation JSAny := (option JValue).

Definition join_with (sep : string) (parts : list string) : string :=
  match parts with
  | [] => ""
  | p :: ps => foldl (fun acc q => acc +:+ sep +:+ q) p ps
  end.

(** [String(v)] and template-literal interpolation on JSON values.  An
    object prints as "[object Object]"; an object that carries a [toString]
    entry of its own is not distinguished. *)
Fixpoint js_String_val (v : JValue) : string :=
  match v with
  | JNull => "null"
  | JBool true => "true"
  | JBool false => "false"
  | JNum n => pretty n
  | JStr s => s
  | JArr items =>
      join_with ","
        (List.map (fun x => match x with
                            | JNull => ""
                            | _ => js_String_val x
                            end) items)
  | JObj _ => "[object Object]"
  end.

Definition js_String (v : JSAny) : string :=
  match v with
  | None => "undefined"
  | Some x => js_String_val x
  end.

(** [a === b], which is also what [Array.prototype.includes] tests on these
    values: primitives by value; two arrays or objects that come from
    different documents are never the same reference. *)
Definition strict_eq (a b : JSAny) : bool :=
  match a, b with
  | None, None => true
  | Some JNull, Some JNull => true
  | Some (JBool x), Some (JBool y) => bool_decide (x = y)
  | Some (JNum x), Some (JNum y) => bool_decide (x = y)
  | Some (JStr x), Some (JStr y) => bool_decide (x = y)
  | _, _ => false
  end.

(** [JSON.parse(JSON.stringify(v))]: a structural copy. *)
Fixpoint json_copy (v : JValue) : JValue :=
  match v with
  | JNull => JNull
  | JBool b => JBool b
  | JNum n => JNum n
  | JStr s => JStr s
  | JArr items => JArr (List.map json_copy items)
  | JObj fields => JObj (List.map (fun kv => (kv.1, json_copy kv.2)) fields)
  end.

Definition attrs_copy (a : Attrs) : Attrs :=
  List.map (fun kv => (kv.1, json_copy kv.2)) a.

(** ** Outcomes of code that may throw *)

Inductive Result (A : Type) : Type :=
| Ok (a : A)
| Throw (message : string).
Arguments Ok {A} a.
Arguments Throw {A} message.

(** ** Plain objects used as dictionaries

    An object that comes from a literal, from [JSON.parse] or from the YAML
    parser inherits from [Object.prototype].  [obj[key]] answers the own
    property of that name when there is one, and otherwise the member of
    [Object.prototype] of that name, if there is one.  These are its names
    in Node.js. *)
Definition Object_prototype : list string :=
  ["constructor"; "__defineGetter__"; "__defineSetter__"; "hasOwnProperty";
   "__lookupGetter__"; "__lookupSetter__"; "isPrototypeOf";
   "propertyIsEnumerable"; "toString"; "valueOf"; "__proto__";
   "toLocaleString"].

Definition inherited (key : string) : bool :=
  bool_decide (key ∈ Object_prototype).

(** [String(Object.prototype[name])] for an inherited [name], as V8 prints
    it: the accessor [__proto__] answers [Object.prototype] itself, every
    other member is a native function. *)
Definition member_text (name : string) : string :=
  if bool_decide (name = "__proto__") then "[object Object]"
  else "function " +:+
       (if bool_decide (name = "constructor") then "Object" else name) +:+
       "() { [native code] }".

(** ** The SSoT document (types.ts of both packages) *)

Inductive CollaborationModeId := autonomous | copilot | manual.
Inductive Creator := by_user | by_ai | by_import | by_derived.

Record SSoTMeta := {
  meta_version : string;
  meta_profile_version : string;
  meta_last_updated : string;
  meta_created_at : string;
  meta_collaboration_mode : CollaborationModeId;
  meta_description : option string;
}.

Record NodeMetadata := {
  nm_created_at : option string;
  nm_created_by : option Creator;
  nm_confidence : option Z;
  nm_intent_id : option string;
}.

Record Node := {
  node_id : string;
  node_kind : string;
  node_attrs : Attrs;
  node_metadata : option NodeMetadata;
}.

Record EdgeMetadata := {
  em_created_at : option string;
  em_created_by : option Creator;
  em_confidence : option Z;
  em_intent_id : option string;
  em_is_derived : option bool;
}.

Record Edge := {
  edge_from : string;
  edge_kind : string;
  edge_to : string;
  edge_attrs : option Attrs;
  edge_metadata : option EdgeMetadata;
}.

Record SSoTIndexes := {
  by_kind : option (gmap string (list string));
  incoming_edges : option (gmap string (list Edge));
  outgoing_edges : option (gmap string (list Edge));
}.

Record SSoT := {
  meta : SSoTMeta;
  nodes : list Node;
  edges : list Edge;
  indexes : option SSoTIndexes;
}.

#[global] Instance Creator_eq_dec : EqDecision Creator.
Proof. solve_decision. Defined.
#[global] Instance CollaborationModeId_eq_dec : EqDecision CollaborationModeId.
Proof. solve_decision. Defined.

(** * The criteria engine (packages/criteria-engine/src) *)

Inductive Severity := INFO | WARN | FAIL.

#[global] Instance Severity_eq_dec : EqDecision Severity.
Proof. solve_decision. Defined.

(** [kind?: string | string[]] *)
Inductive KindSpec :=
| OneKind (k : string)
| KindList (ks : list string).

Record RuleTarget := {
  target_type : string;
  target_kind : option KindSpec;
  target_selector : option string;
}.

Record RuleCondition := {
  cond_type : string;
  cond_operator : option string;
  cond_value : JSAny;
  cond_path : option string;
  cond_edge_kind : option string;
  cond_min : option Z;
  cond_max : option Z;
  cond_function : option string;
}.

Record CriteriaRule := {
  rule_id : string;
  rule_title : string;
  rule_description : string;
  rule_severity : Severity;
  rule_category : string;
  rule_target : RuleTarget;
  rule_condition : RuleCondition;
  rule_message : string;
  rule_why : option string;
  rule_fix_hint : option string;
}.

Record DiagnosticMetadata := {
  dm_rule_title : option string;
  dm_category : option string;
  dm_evaluated_at : option string;
  dm_actual_value : JSAny;
  dm_expected_value : JSAny;
}.

Record Diagnostic := {
  diag_rule_id : string;
  diag_severity : Severity;
  diag_message : string;
  diag_target_ref : option string;
  diag_target_kind : option string;
  diag_line : option Z;
  diag_column : option Z;
  diag_why : option string;
  diag_fix_hint : option string;
  diag_evidence_anchors : option (list string);
  diag_metadata : option DiagnosticMetadata;
}.

(** An entry of [by_category].  The type says [number]; what
    [(byCategory[c] || 0) + 1] stores is a number, or a text when the entry
    it read was not a number. *)
Inductive Tally :=
| TallyNum (n : Z)
| TallyText (text : string).

Record EvaluationSummary := {
  sum_by_severity : gmap string Z;
  sum_by_category : gmap string Tally;
  sum_quality_score : Z;
}.

Record CriteriaEvaluation := {
  ev_ssot_version : string;
  ev_timestamp : string;
  ev_total_rules : Z;
  ev_passed : Z;
  ev_warned : Z;
  ev_failed : Z;
  ev_diagnostics : list Diagnostic;
  ev_summary : EvaluationSummary;
}.

(** Internal types of engine.ts *)
Inductive TargetData :=
| NodeData (n : Node)
| EdgeData (e : Edge).

Record TargetNode := {
  tn_id : string;
  tn_kind : string;
  tn_data : TargetData;
}.

Record RuleViolation := {
  v_target_ref : option string;
  v_target_kind : option string;
  v_evidence_anchors : list string;
  v_actual_value : JSAny;
  v_expected_value : JSAny;
}.

(** What the engine writes with [console.warn] and [console.error]. *)
Inductive ConsoleLine :=
| ConsoleWarn (text : string)
| ConsoleError (text : string) (error : string).

(** The parts of the JavaScript host that the criteria engine calls and that
    are not code of the repository. *)
Record JsHost := {
  (** [acc?.[part]] *)
  js_get : JSAny -> string -> JSAny;
  (** [a > b], [a >= b], [a < b], [a <= b] on arbitrary values; the
      comparison throws a [TypeError] when an operand is an object that has
      no primitive value *)
  js_gt : JSAny -> JSAny -> Result bool;
  js_gte : JSAny -> JSAny -> Result bool;
  js_lt : JSAny -> JSAny -> Result bool;
  js_lte : JSAny -> JSAny -> Result bool;
  (** [new RegExp(pattern).test(text)]; the constructor throws on a
      malformed pattern *)
  regexp_test : string -> string -> Result bool;
  (** [template.replace(/{name}/g, replacement)] *)
  replace_placeholder : string -> string -> string -> string;
  (** the k-th reading of [new Date().toISOString()] *)
  clock : nat -> string;
}.

(** [s.split(sep)] for a one-character separator. *)
Fixpoint split_on (sep : ascii) (s : string) : list string :=
  match s with
  | EmptyString => [""]
  | String a rest =>
      let parts := split_on sep rest in
      if bool_decide (a = sep) then "" :: parts
      else match parts with
           | p :: ps => String a p :: ps
           | [] => [String a ""]
           end
  end.

(** A string used as a condition: the empty string is falsy. *)
Definition truthy_string (s : string) : bool := negb (bool_decide (s = "")).

(** [x || fallback] for an optional string. *)
Definition or_string (x : option string) (fallback : string) : string :=
  match x with
  | Some s => if truthy_string s then s else fallback
  | None => fallback
  end.

(** [if (target.kind)]: a non-empty string or any array. *)
Definition kind_given (k : option KindSpec) : bool :=
  match k with
  | Some (OneKind s) => truthy_string s
  | Some (KindList _) => true
  | None => false
  end.

(** [Array.isArray(target.kind) ? target.kind : [target.kind]] *)
Definition kinds_of (k : KindSpec) : list string :=
  match k with
  | OneKind s => [s]
  | KindList ks => ks
  end.

(** [Array.isArray(target.kind) ? target.kind.join('|') : target.kind] *)
Definition kind_label (k : option KindSpec) : option string :=
  match k with
  | Some (KindList ks) => Some (join_with "|" ks)
  | Some (OneKind s) => Some s
  | None => None
  end.

Definition edge_ref (e : Edge) : string :=
  edge_from e +:+ "->" +:+ edge_kind e +:+ "->" +:+ edge_to e.

Definition getTargets (target : RuleTarget) (ssot : SSoT) : list TargetNode :=
  if bool_decide (target_type target = "node") then
    let ns :=
      if kind_given (target_kind target) then
        let kinds := from_option kinds_of [] (target_kind target) in
        filter (fun n => node_kind n ∈ kinds) (nodes ssot)
      else nodes ssot in
    (fun n => {| tn_id := node_id n; tn_kind := node_kind n;
                 tn_data := NodeData n |}) <$> ns
  else if bool_decide (target_type target = "edge") then
    let es :=
      if kind_given (target_kind target) then
        let kinds := from_option kinds_of [] (target_kind target) in
        filter (fun e => edge_kind e ∈ kinds) (edges ssot)
      else edges ssot in
    (fun e => {| tn_id := edge_ref e; tn_kind := edge_kind e;
                 tn_data := EdgeData e |}) <$> es
  else [].

(** [total === 0] short-circuits; otherwise clamp to 0..100. *)
Definition calculateQualityScore (total failed warned : Z) : Z :=
  if (total =? 0)%Z then 100%Z
  else
    let penalty := (failed * 10 + warned * 2)%Z in
    let score := (100 - penalty)%Z in
    Z.max 0 (Z.min 100 score).

Section CriteriaEngine.

Variable host : JsHost.

(** [path.split('.').reduce((acc, part) => acc?.[part], obj)] *)
Definition getNestedValue (obj : JSAny) (path : string) : JSAny :=
  foldl (js_get host) obj (split_on "." path).

(** [expected.includes(actual)] when [expected] is an array. *)
Definition array_includes (expected : JSAny) (actual : JSAny) : option bool :=
  match expected with
  | Some (JArr items) => Some (existsb (fun x => strict_eq (Some x) actual) items)
  | _ => None
  end.

Definition compareValues (actual expected : JSAny) (operator : string)
  : Result bool :=
  if bool_decide (operator = "eq") then Ok (strict_eq actual expected)
  else if bool_decide (operator = "ne") then Ok (negb (strict_eq actual expected))
  else if bool_decide (operator = "gt") then js_gt host actual expected
  else if bool_decide (operator = "gte") then js_gte host actual expected
  else if bool_decide (operator = "lt") then js_lt host actual expected
  else if bool_decide (operator = "lte") then js_lte host actual expected
  else if bool_decide (operator = "in") then
    Ok (from_option id false (array_includes expected actual))
  else if bool_decide (operator = "not_in") then
    Ok (from_option negb false (array_includes expected actual))
  else if bool_decide (operator = "matches") then
    match expected with
    | Some (JStr pattern) => regexp_test host pattern (js_String actual)
    | _ => Ok false
    end
  else if bool_decide (operator = "not_matches") then
    match expected with
    | Some (JStr pattern) =>
        match regexp_test host pattern (js_String actual) with
        | Ok b => Ok (negb b)
        | Throw m => Throw m
        end
    | _ => Ok false
    end
  else Ok false.

Definition target_attrs (d : TargetData) : JSAny :=
  match d with
  | NodeData n => Some (JObj (node_attrs n))
  | EdgeData e => JObj <$> edge_attrs e
  end.

(** [condition.path!] is not checked: splitting an absent path is a
    [TypeError]. *)
Definition checkAttributeCondition (target : TargetNode)
    (condition : RuleCondition) (rule : CriteriaRule)
  : Result (option RuleViolation) :=
  match cond_path condition with
  | None => Throw "Cannot read properties of undefined (reading 'split')"
  | Some attrPath =>
      let actualValue := getNestedValue (target_attrs (tn_data target)) attrPath in
      let expectedValue := cond_value condition in
      let operator := or_string (cond_operator condition) "eq" in
      match compareValues actualValue expectedValue operator with
      | Throw m => Throw m
      | Ok passed =>
          if negb passed then
            Ok (Some {| v_target_ref := Some (tn_id target);
                        v_target_kind := Some (tn_kind target);
                        v_evidence_anchors := [tn_id target];
                        v_actual_value := actualValue;
                        v_expected_value := expectedValue |})
          else Ok None
      end
  end.

(** [condition.min || 1]: an absent bound and the bound 0 both give 1. *)
Definition min_or_1 (m : option Z) : Z :=
  match m with
  | Some n => if (n =? 0)%Z then 1%Z else n
  | None => 1%Z
  end.

(** [ssot.indexes?.outgoing_edges?.[nodeId]?.filter(e => e.kind === edgeKind) || []].
    The index is a plain object: for a [nodeId] without an entry of its own
    that names a member of [Object.prototype], the lookup answers that
    member, which is not nullish and has no [filter]. *)
Definition connectedEdges (ssot : SSoT) (nodeId : string)
    (edgeKind : option string) : Result (list Edge) :=
  match indexes ssot with
  | None => Ok []
  | Some ix =>
      match outgoing_edges ix with
      | None => Ok []
      | Some out =>
          match out !! nodeId with
          | Some es => Ok (filter (fun e => Some (edge_kind e) = edgeKind) es)
          | None =>
              if inherited nodeId then
                Throw "ssot.indexes?.outgoing_edges?.[nodeId]?.filter is not a function"
              else Ok []
          end
      end
  end.

Definition checkConnectedCondition (target : TargetNode)
    (condition : RuleCondition) (ssot : SSoT) (rule : CriteriaRule)
  : Result (option RuleViolation) :=
  let nodeId := tn_id target in
  let edgeKind := cond_edge_kind condition in
  let minCount := min_or_1 (cond_min condition) in
  match connectedEdges ssot nodeId edgeKind with
  | Throw m => Throw m
  | Ok connected =>
      if (Z.of_nat (length connected) <? minCount)%Z then
        Ok (Some {| v_target_ref := Some nodeId;
                    v_target_kind := Some (tn_kind target);
                    v_evidence_anchors := [nodeId];
                    v_actual_value := Some (JNum (Z.of_nat (length connected)));
                    v_expected_value :=
                      Some (JStr (">=" +:+ pretty minCount +:+ " " +:+
                                  from_option id "undefined" edgeKind +:+
                                  " edges")) |})
      else Ok None
  end.

(** The loop [for (const t of targets) { const v = f(t); if (v) push(v) }]
    for an [f] that may throw. *)
Fixpoint collect_violations (f : TargetNode -> Result (option RuleViolation))
    (targets : list TargetNode) : Result (list RuleViolation) :=
  match targets with
  | [] => Ok []
  | t :: ts =>
      match f t with
      | Throw m => Throw m
      | Ok v =>
          match collect_violations f ts with
          | Throw m => Throw m
          | Ok vs => Ok (from_option (fun x => [x]) [] v ++ vs)
          end
      end
  end.

(** The bound description of a [count] violation. *)
Definition count_expected (min max : option Z) : string :=
  from_option (fun m => ">=" +:+ pretty m) "" min +:+
  from_option (fun m => " <=" +:+ pretty m) "" max.

Definition count_violated (count : Z) (min max : option Z) : bool :=
  from_option (fun m => (count <? m)%Z) false min
  || from_option (fun m => (m <? count)%Z) false max.

(** Returns the violations, or the exception, and what was written to the
    console. *)
Definition checkRuleCondition (rule : CriteriaRule) (ssot : SSoT)
  : Result (list RuleViolation) * list ConsoleLine :=
  let target := rule_target rule in
  let condition := rule_condition rule in
  let targets := getTargets target ssot in
  if bool_decide (cond_type condition = "exists") then
    (Ok (if bool_decide (length targets = 0%nat) then
           [ {| v_target_ref := None;
                v_target_kind := kind_label (target_kind target);
                v_evidence_anchors := [];
                v_actual_value := Some (JNum 0);
                v_expected_value := Some (JStr "at least 1") |} ]
         else []), [])
  else if bool_decide (cond_type condition = "not_exists") then
    (Ok ((fun t => {| v_target_ref := Some (tn_id t);
                      v_target_kind := Some (tn_kind t);
                      v_evidence_anchors := [tn_id t];
                      v_actual_value := Some (JStr "exists");
                      v_expected_value := Some (JStr "should not exist") |})
         <$> targets), [])
  else if bool_decide (cond_type condition = "count") then
    let count := Z.of_nat (length targets) in
    (Ok (if count_violated count (cond_min condition) (cond_max condition) then
           [ {| v_target_ref := None;
                v_target_kind := kind_label (target_kind target);
                v_evidence_anchors := tn_id <$> targets;
                v_actual_value := Some (JNum count);
                v_expected_value :=
                  Some (JStr (count_expected (cond_min condition)
                                             (cond_max condition))) |} ]
         else []), [])
  else if bool_decide (cond_type condition = "attribute") then
    (collect_violations (fun t => checkAttributeCondition t condition rule)
                        targets, [])
  else if bool_decide (cond_type condition = "connected") then
    (collect_violations
       (fun t => checkConnectedCondition t condition ssot rule) targets, [])
  else
    (Ok [], [ConsoleWarn ("Unknown condition type: " +:+ cond_type condition)]).

Definition formatMessage (template : string) (violation : RuleViolation)
  : string :=
  replace_placeholder host "expected_value"
    (js_String (v_expected_value violation))
    (replace_placeholder host "actual_value"
       (js_String (v_actual_value violation))
       (replace_placeholder host "target_ref"
          (or_string (v_target_ref violation) "unknown") template)).

Definition make_diagnostic (rule : CriteriaRule) (evaluated_at : string)
    (violation : RuleViolation) : Diagnostic :=
  {| diag_rule_id := rule_id rule;
     diag_severity := rule_severity rule;
     diag_message := formatMessage (rule_message rule) violation;
     diag_target_ref := v_target_ref violation;
     diag_target_kind := v_target_kind violation;
     diag_line := None;
     diag_column := None;
     diag_why := rule_why rule;
     diag_fix_hint := rule_fix_hint rule;
     diag_evidence_anchors := Some (v_evidence_anchors violation);
     diag_metadata :=
       Some {| dm_rule_title := Some (rule_title rule);
               dm_category := Some (rule_category rule);
               dm_evaluated_at := Some evaluated_at;
               dm_actual_value := v_actual_value violation;
               dm_expected_value := v_expected_value violation |} |}.

(** [tick] is the number of clock readings made so far in this run; every
    diagnostic takes one more. *)
Definition evaluateRule (rule : CriteriaRule) (ssot : SSoT) (tick : nat)
  : list Diagnostic * list ConsoleLine :=
  match checkRuleCondition rule ssot with
  | (Ok violations, out) =>
      (imap (fun i v => make_diagnostic rule (clock host (tick + i)) v)
            violations, out)
  | (Throw m, out) =>
      ([], out ++ [ConsoleError ("Failed to evaluate rule " +:+ rule_id rule
                                 +:+ ":") m])
  end.

(** The loop of [evaluate]. *)
Fixpoint evaluateRules (rules : list CriteriaRule) (ssot : SSoT) (tick : nat)
  : list Diagnostic * list ConsoleLine :=
  match rules with
  | [] => ([], [])
  | rule :: rest =>
      let '(ds, out) := evaluateRule rule ssot tick in
      let '(ds', out') := evaluateRules rest ssot (tick + length ds) in
      (ds ++ ds', out ++ out')
  end.

(** [byCategory[rule.category] = (byCategory[rule.category] || 0) + 1] on
    the plain object [byCategory].  A number counts up.  For a category
    without an entry that names a member of [Object.prototype], the entry
    read is that member: [+] joins its text and "1", and the assignment
    stores the text as an own entry, except under [__proto__], whose setter
    ignores a value that is not an object.  A text that was stored counts
    up by another "1". *)
Definition count_category (m : gmap string Tally) (rule : CriteriaRule)
  : gmap string Tally :=
  let category := rule_category rule in
  match m !! category with
  | Some (TallyNum n) => <[category := TallyNum (n + 1)]> m
  | Some (TallyText text) =>
      if truthy_string text then <[category := TallyText (text +:+ "1")]> m
      else <[category := TallyNum 1]> m
  | None =>
      if inherited category then
        if bool_decide (category = "__proto__") then m
        else <[category := TallyText (member_text category +:+ "1")]> m
      else <[category := TallyNum 1]> m
  end.

Definition count_severity (s : Severity) (diagnostics : list Diagnostic) : Z :=
  Z.of_nat (length (filter (fun d => diag_severity d = s) diagnostics)).

(** [evaluate] over the loaded rules [this.rules]. *)
Definition evaluate (rules : list CriteriaRule) (ssot : SSoT)
  : CriteriaEvaluation * list ConsoleLine :=
  let timestamp := clock host 0 in
  let '(diagnostics, out) := evaluateRules rules ssot 1 in
  let total := Z.of_nat (length rules) in
  let passed := (total - Z.of_nat (length diagnostics))%Z in
  let warned := count_severity WARN diagnostics in
  let failed := count_severity FAIL diagnostics in
  let qualityScore := calculateQualityScore total failed warned in
  let byCategory := foldl count_category ∅ rules in
  ({| ev_ssot_version := meta_version (meta ssot);
      ev_timestamp := timestamp;
      ev_total_rules := total;
      ev_passed := passed;
      ev_warned := warned;
      ev_failed := failed;
      ev_diagnostics := diagnostics;
      ev_summary :=
        {| sum_by_severity :=
             <["PASS" := passed]> (<["WARN" := warned]> (<["FAIL" := failed]> ∅));
           sum_by_category := byCategory;
           sum_quality_score := qualityScore |} |}, out).

End CriteriaEngine.

(** * The intent engine (packages/intent-engine/src) *)

(** ** Types (types.ts) *)

Inductive IntentSource := src_user | src_ai | src_import.

Record IntentMetadata := {
  im_intent_id : string;
  im_timestamp : string;
  im_user : option string;
  im_source : option IntentSource;
  im_collaboration_mode : option CollaborationModeId;
}.

(** [Intent<T = any>.params]: an object, which the handlers cast to their
    parameter types, or [null] or [undefined] where the caller passes no
    payload. *)
Inductive Payload :=
| PayloadObject (fields : Attrs)
| PayloadNull
| PayloadUndefined.

Record Intent := {
  intent_type : string;
  intent_params : Payload;
  intent_metadata : option IntentMetadata;
}.

Record AddNodeParams := {
  an_kind : string;
  an_attrs : option Attrs;
}.

Record AddEdgeParams := {
  ae_from_ref : string;
  ae_edge_kind : string;
  ae_to_ref : string;
  ae_attrs : option Attrs;
}.

(** [Operation] of fast-json-patch is a JSON object. *)
Record UpdateNodeAttrsParams := {
  un_node_ref : string;
  un_patch : list JValue;
}.

Record DeleteNodeParams := {
  dn_node_ref : string;
  dn_cascade : option bool;
}.

Record AddNeedParams := {
  need_attrs : Attrs;
  need_expressed_by : option string;
}.

Record AddRequirementRefinementParams := {
  rr_need_ref : string;
  rr_requirement_attrs : Attrs;
}.

Inductive ChangeType :=
| node_added | node_updated | node_deleted
| edge_added | edge_updated | edge_deleted.

(** The [details] objects that the handlers build. *)
Inductive ChangeDetails :=
| KindDetails (kind : string)
| OperationsDetails (operations : Z)
| DeleteDetails (cascade : option bool) (edges_deleted : Z).

Record IntentChange := {
  change_type : ChangeType;
  change_target : string;
  change_details : option ChangeDetails;
}.

Record ValidationError := {
  err_code : string;
  err_message : string;
  err_field : option string;
}.

Record RollbackInfo := {
  rb_reason : string;
  rb_original_state_snapshot : SSoT;
}.

Record IntentResult := {
  res_success : bool;
  res_intent_id : string;
  res_changes : option (list IntentChange);
  res_errors : option (list ValidationError);
  res_rollback : option RollbackInfo;
}.

Record EdgeDefinition := {
  def_from : list string;
  def_to : list string;
  def_cardinality : option string;
  def_semantics : option string;
}.

Record EffectiveSchema := {
  schema_version : string;
  schema_source_profile : string;
  node_kinds : list string;
  edge_kinds : list string;
  edge_definitions : gmap string EdgeDefinition;
}.

Record IntentEngineOptions := {
  ssotPath : string;
  effectiveSchemaPath : string;
  historyDir : option string;
  autoSave : option bool;
}.

Record ParameterDefinition := {
  param_type : string;
  param_required : bool;
  param_description : option string;
  param_default : JSAny;
  param_format : option string;
}.

(** [parameters] keeps the order of [Object.entries]; it is [None] for an
    entry of the catalog file that has no [parameters]. *)
Record IntentDefinition := {
  idef_id : string;
  idef_title : string;
  idef_scope : string;
  idef_category : string;
  idef_parameters : option (list (string * ParameterDefinition));
}.

Record IntentCatalog := {
  catalog_version : string;
  catalog_intents : list IntentDefinition;
}.

(** The record written by [recordHistory]. *)
Record HistoryEntry := {
  he_intent_id : string;
  he_timestamp : string;
  he_intent_type : string;
  he_params : Payload;
  he_metadata : option IntentMetadata;
}.

Inductive FileContent :=
| SsotDocument (doc : SSoT)
| HistoryDocument (entry : HistoryEntry).

Inductive IOEvent :=
| WroteFile (path : string) (content : FileContent)
| MadeDir (path : string).

(** What one call of [execute] obtains from outside the engine.  A file
    operation answers [Some message] when it throws. *)
Record ExecEnv := {
  (** the k-th [uuidv4()] of the call *)
  uuidv4 : nat -> string;
  (** the k-th [new Date().toISOString()] of the call *)
  now : nat -> string;
  fs_writeFile : string -> FileContent -> option string;
  fs_mkdir : string -> option string;
  path_join : string -> string -> string;
  (** [applyPatch(document, patch, true, false).newDocument] of
      fast-json-patch; it throws on an invalid or failing operation *)
  applyPatch : Attrs -> list JValue -> Result Attrs;
}.

(** ** Casts of the payload

    [intent.params as AddNodeParams] and the like do nothing at run time.
    Here the cast reads the fields of the declared type; it is undefined
    ([None]) on a payload that is not of that type. *)

Fixpoint field (name : string) (obj : Attrs) : JSAny :=
  match obj with
  | [] => None
  | (k, v) :: rest => if bool_decide (k = name) then Some v else field name rest
  end.

Definition as_string (v : JSAny) : option string :=
  match v with Some (JStr s) => Some s | _ => None end.

Definition as_optional_string (v : JSAny) : option (option string) :=
  match v with
  | None => Some None
  | Some (JStr s) => Some (Some s)
  | _ => None
  end.

Definition as_record (v : JSAny) : option Attrs :=
  match v with Some (JObj a) => Some a | _ => None end.

Definition as_optional_record (v : JSAny) : option (option Attrs) :=
  match v with
  | None => Some None
  | Some (JObj a) => Some (Some a)
  | _ => None
  end.

Definition as_optional_bool (v : JSAny) : option (option bool) :=
  match v with
  | None => Some None
  | Some (JBool b) => Some (Some b)
  | _ => None
  end.

Definition as_array (v : JSAny) : option (list JValue) :=
  match v with Some (JArr l) => Some l | _ => None end.

Definition as_AddNodeParams (p : Attrs) : option AddNodeParams :=
  k ← as_string (field "kind" p);
  a ← as_optional_record (field "attrs" p);
  Some {| an_kind := k; an_attrs := a |}.

Definition as_AddEdgeParams (p : Attrs) : option AddEdgeParams :=
  f ← as_string (field "from_ref" p);
  k ← as_string (field "edge_kind" p);
  t ← as_string (field "to_ref" p);
  a ← as_optional_record (field "attrs" p);
  Some {| ae_from_ref := f; ae_edge_kind := k; ae_to_ref := t; ae_attrs := a |}.

Definition as_UpdateNodeAttrsParams (p : Attrs) : option UpdateNodeAttrsParams :=
  r ← as_string (field "node_ref" p);
  ops ← as_array (field "patch" p);
  Some {| un_node_ref := r; un_patch := ops |}.

Definition as_DeleteNodeParams (p : Attrs) : option DeleteNodeParams :=
  r ← as_string (field "node_ref" p);
  c ← as_optional_bool (field "cascade" p);
  Some {| dn_node_ref := r; dn_cascade := c |}.

Definition as_AddNeedParams (p : Attrs) : option AddNeedParams :=
  a ← as_record (field "attrs" p);
  e ← as_optional_string (field "expressed_by" p);
  Some {| need_attrs := a; need_expressed_by := e |}.

Definition as_AddRequirementRefinementParams (p : Attrs)
  : option AddRequirementRefinementParams :=
  r ← as_string (field "need_ref" p);
  a ← as_record (field "requirement_attrs" p);
  Some {| rr_need_ref := r; rr_requirement_attrs := a |}.

(** ** Field updates of the SSoT *)

Definition set_nodes (ns : list Node) (s : SSoT) : SSoT :=
  {| meta := meta s; nodes := ns; edges := edges s; indexes := indexes s |}.

Definition set_edges (es : list Edge) (s : SSoT) : SSoT :=
  {| meta := meta s; nodes := nodes s; edges := es; indexes := indexes s |}.

Definition set_indexes (ix : option SSoTIndexes) (s : SSoT) : SSoT :=
  {| meta := meta s; nodes := nodes s; edges := edges s; indexes := ix |}.

Definition set_last_updated (t : string) (s : SSoT) : SSoT :=
  {| meta :=
       {| meta_version := meta_version (meta s);
          meta_profile_version := meta_profile_version (meta s);
          meta_last_updated := t;
          meta_created_at := meta_created_at (meta s);
          meta_collaboration_mode := meta_collaboration_mode (meta s);
          meta_description := meta_description (meta s) |};
     nodes := nodes s; edges := edges s; indexes := indexes s |}.

Definition set_node_attrs (a : Attrs) (n : Node) : Node :=
  {| node_id := node_id n; node_kind := node_kind n; node_attrs := a;
     node_metadata := node_metadata n |}.

(** ** The snapshot: [JSON.parse(JSON.stringify(this.ssot))] *)

Definition node_copy (n : Node) : Node :=
  {| node_id := node_id n; node_kind := node_kind n;
     node_attrs := attrs_copy (node_attrs n);
     node_metadata := node_metadata n |}.

Definition edge_copy (e : Edge) : Edge :=
  {| edge_from := edge_from e; edge_kind := edge_kind e; edge_to := edge_to e;
     edge_attrs := attrs_copy <$> edge_attrs e;
     edge_metadata := edge_metadata e |}.

Definition edge_index_copy (m : gmap string (list Edge))
  : gmap string (list Edge) :=
  (fun es : list Edge => edge_copy <$> es) <$> m.

Definition indexes_copy (ix : SSoTIndexes) : SSoTIndexes :=
  {| by_kind := by_kind ix;
     incoming_edges := edge_index_copy <$> incoming_edges ix;
     outgoing_edges := edge_index_copy <$> outgoing_edges ix |}.

Definition ssot_copy (s : SSoT) : SSoT :=
  {| meta := meta s;
     nodes := node_copy <$> nodes s;
     edges := edge_copy <$> edges s;
     indexes := indexes_copy <$> indexes s |}.

(** ** The state of one [execute] call and its monad *)

Record ExecState := {
  st_ssot : SSoT;            (** [this.ssot] *)
  st_uuids : nat;            (** [uuidv4()] calls made so far *)
  st_dates : nat;            (** [new Date()] readings made so far *)
  st_io : list IOEvent;      (** completed file operations *)
}.

Definition Exec (A : Type) : Type := ExecState -> Result A * ExecState.

#[global] Instance Exec_ret : MRet Exec :=
  fun A (a : A) st => (Ok a, st).

#[global] Instance Exec_bind : MBind Exec :=
  fun A B (f : A -> Exec B) (m : Exec A) st =>
    match m st with
    | (Ok a, st') => f a st'
    | (Throw e, st') => (Throw e, st')
    end.

Definition throw {A} (message : string) : Exec A :=
  fun st => (Throw message, st).

Definition get_ssot : Exec SSoT :=
  fun st => (Ok (st_ssot st), st).

Definition modify_ssot (f : SSoT -> SSoT) : Exec unit :=
  fun st => (Ok tt, {| st_ssot := f (st_ssot st); st_uuids := st_uuids st;
                       st_dates := st_dates st; st_io := st_io st |}).

Definition emit (ev : IOEvent) : Exec unit :=
  fun st => (Ok tt, {| st_ssot := st_ssot st; st_uuids := st_uuids st;
                       st_dates := st_dates st; st_io := st_io st ++ [ev] |}).

(** [if (!index[key]) index[key] = []; index[key].push(x)] on the plain
    object [index], which the source calls [name].  For a [key] without an
    entry of its own that names a member of [Object.prototype], the member
    is read: it is truthy, so nothing is assigned, and it has no [push]. *)
Definition index_push {A} (name key : string) (x : A)
    (index : gmap string (list A)) : Result (gmap string (list A)) :=
  match index !! key with
  | Some entries => Ok (<[key := entries ++ [x]]> index)
  | None =>
      if inherited key then Throw (name +:+ ".push is not a function")
      else Ok (<[key := [x]]> index)
  end.

(** The loop over [this.ssot.nodes]. *)
Fixpoint index_nodes (ns : list Node) (byKind : gmap string (list string))
  : Result (gmap string (list string)) :=
  match ns with
  | [] => Ok byKind
  | node :: rest =>
      match index_push "byKind[node.kind]" (node_kind node) (node_id node)
                       byKind with
      | Throw m => Throw m
      | Ok byKind' => index_nodes rest byKind'
      end
  end.

(** The loop over [this.ssot.edges]. *)
Fixpoint index_edges (es : list Edge)
    (outgoingEdges incomingEdges : gmap string (list Edge))
  : Result (gmap string (list Edge) * gmap string (list Edge)) :=
  match es with
  | [] => Ok (outgoingEdges, incomingEdges)
  | edge :: rest =>
      match index_push "outgoingEdges[edge.from]" (edge_from edge) edge
                       outgoingEdges with
      | Throw m => Throw m
      | Ok outgoingEdges' =>
          match index_push "incomingEdges[edge.to]" (edge_to edge) edge
                           incomingEdges with
          | Throw m => Throw m
          | Ok incomingEdges' => index_edges rest outgoingEdges' incomingEdges'
          end
      end
  end.

(** The indexes that [rebuildIndexes] assigns, or the exception of its
    loops. *)
Definition build_indexes (s : SSoT) : Result SSoTIndexes :=
  match index_nodes (nodes s) ∅ with
  | Throw m => Throw m
  | Ok byKind =>
      match index_edges (edges s) ∅ ∅ with
      | Throw m => Throw m
      | Ok (outgoingEdges, incomingEdges) =>
          Ok {| by_kind := Some byKind;
                incoming_edges := Some incomingEdges;
                outgoing_edges := Some outgoingEdges |}
      end
  end.

Section IntentEngine.

Variable schema : EffectiveSchema.
Variable catalog : IntentCatalog.
Variable options : IntentEngineOptions.
Variable env : ExecEnv.

Definition fresh_uuid : Exec string :=
  fun st => (Ok (uuidv4 env (st_uuids st)),
             {| st_ssot := st_ssot st; st_uuids := S (st_uuids st);
                st_dates := st_dates st; st_io := st_io st |}).

Definition read_clock : Exec string :=
  fun st => (Ok (now env (st_dates st)),
             {| st_ssot := st_ssot st; st_uuids := st_uuids st;
                st_dates := S (st_dates st); st_io := st_io st |}).

Definition write_file (path : string) (content : FileContent) : Exec unit :=
  match fs_writeFile env path content with
  | Some message => throw message
  | None => emit (WroteFile path content)
  end.

Definition make_dir (path : string) : Exec unit :=
  match fs_mkdir env path with
  | Some message => throw message
  | None => emit (MadeDir path)
  end.

(** ** Helpers *)

Definition findNode (s : SSoT) (id : string) : option Node :=
  snd <$> list_find (fun n => node_id n = id) (nodes s).

(** [this.ssot.nodes.some((n) => n.id === id)] for an [id] of any type. *)
Definition nodeExists (s : SSoT) (id : JValue) : bool :=
  match id with
  | JStr x => bool_decide (Exists (fun n => node_id n = x) (nodes s))
  | _ => false
  end.

(** [list.includes(value)] for a list of strings and a value of any type. *)
Definition includes_value (l : list string) (value : JValue) : bool :=
  match value with
  | JStr x => bool_decide (x ∈ l)
  | _ => false
  end.

Definition rebuildIndexes : Exec unit :=
  s ← get_ssot;
  match build_indexes s with
  | Throw m => throw m
  | Ok ix => modify_ssot (set_indexes (Some ix))
  end.

Definition save : Exec unit :=
  s ← get_ssot;
  write_file (ssotPath options) (SsotDocument s).

(** [this.options.historyDir] used as a condition. *)
Definition history_enabled : bool :=
  from_option truthy_string false (historyDir options).

Definition recordHistory (intent : Intent) (intentId timestamp : string)
  : Exec unit :=
  if negb history_enabled then mret tt
  else
    let dir := default "" (historyDir options) in
    let historyEntry :=
      {| he_intent_id := intentId;
         he_timestamp := timestamp;
         he_intent_type := intent_type intent;
         he_params := intent_params intent;
         he_metadata := intent_metadata intent |} in
    let historyFile := path_join env dir (intentId +:+ ".json") in
    make_dir dir;;
    write_file historyFile (HistoryDocument historyEntry).

(** ** Validation *)

(** What [(intent.params as any)[paramName]] yields on an object. *)
Inductive Member :=
| OwnValue (v : JValue)
| InheritedMember (name : string)
| NoMember.

Definition get_member (name : string) (obj : Attrs) : Member :=
  match field name obj with
  | Some v => OwnValue v
  | None => if inherited name then InheritedMember name else NoMember
  end.

(** [value === undefined || value === null] *)
Definition is_nullish (value : Member) : bool :=
  match value with
  | NoMember | OwnValue JNull => true
  | _ => false
  end.

(** [this.nodeExists(value)], and [list.includes(value)]: an inherited
    member is a function or an object and equals no string. *)
Definition member_nodeExists (s : SSoT) (value : Member) : bool :=
  match value with
  | OwnValue v => nodeExists s v
  | _ => false
  end.

Definition member_includes (l : list string) (value : Member) : bool :=
  match value with
  | OwnValue v => includes_value l v
  | _ => false
  end.

(** [value] inside a template literal. *)
Definition member_String (value : Member) : string :=
  match value with
  | OwnValue v => js_String_val v
  | InheritedMember name => member_text name
  | NoMember => "undefined"
  end.

(** The body of the loop over [Object.entries(intentDef.parameters)]. *)
Definition validateParameter (s : SSoT) (params : Attrs)
    (entry : string * ParameterDefinition) : list ValidationError :=
  let '(paramName, paramDef) := entry in
  let value := get_member paramName params in
  (if param_required paramDef && is_nullish value then
     [ {| err_code := "MISSING_PARAMETER";
          err_message := "Required parameter '" +:+ paramName +:+ "' is missing";
          err_field := Some paramName |} ]
   else []) ++
  (if is_nullish value then []
   else
     (if bool_decide (param_type paramDef = "NodeRef")
         && negb (member_nodeExists s value)
      then [ {| err_code := "INVALID_NODE_REF";
                err_message := "Node '" +:+ member_String value +:+
                               "' does not exist";
                err_field := Some paramName |} ]
      else []) ++
     (if bool_decide (param_type paramDef = "NodeKind")
         && negb (member_includes (node_kinds schema) value)
      then [ {| err_code := "INVALID_NODE_KIND";
                err_message := "Node kind '" +:+ member_String value +:+
                               "' not in schema";
                err_field := Some paramName |} ]
      else []) ++
     (if bool_decide (param_type paramDef = "EdgeKind")
         && negb (member_includes (edge_kinds schema) value)
      then [ {| err_code := "INVALID_EDGE_KIND";
                err_message := "Edge kind '" +:+ member_String value +:+
                               "' not in schema";
                err_field := Some paramName |} ]
      else [])).

(** The [TypeError] of a property read on [null] or [undefined]. *)
Definition cannot_read (what name : string) : string :=
  "Cannot read properties of " +:+ what +:+ " (reading '" +:+ name +:+ "')".

(** [validateIntent] throws where [Object.entries] is given no object, and
    where the first declared parameter is read from a payload that is
    [null] or [undefined]. *)
Definition validateIntent (intent : Intent) (s : SSoT)
  : Result (list ValidationError) :=
  match List.find (fun i => bool_decide (idef_id i = intent_type intent))
                  (catalog_intents catalog) with
  | None =>
      Ok [ {| err_code := "UNKNOWN_INTENT";
              err_message := "Intent type '" +:+ intent_type intent +:+
                             "' not found in catalog";
              err_field := None |} ]
  | Some intentDef =>
      match idef_parameters intentDef with
      | None => Throw "Cannot convert undefined or null to object"
      | Some [] => Ok []
      | Some ((paramName, paramDef) :: rest) =>
          match intent_params intent with
          | PayloadObject params =>
              Ok (mjoin (validateParameter s params
                           <$> (paramName, paramDef) :: rest))
          | PayloadNull => Throw (cannot_read "null" paramName)
          | PayloadUndefined => Throw (cannot_read "undefined" paramName)
          end
      end
  end.

(** ** Mutation handlers *)

Definition created_by_user_node (created_at intentId : string) : NodeMetadata :=
  {| nm_created_at := Some created_at; nm_created_by := Some by_user;
     nm_confidence := None; nm_intent_id := Some intentId |}.

Definition created_by_user_edge (created_at intentId : string) : EdgeMetadata :=
  {| em_created_at := Some created_at; em_created_by := Some by_user;
     em_confidence := None; em_intent_id := Some intentId;
     em_is_derived := None |}.

Definition push_node (n : Node) : Exec unit :=
  modify_ssot (fun s => set_nodes (nodes s ++ [n]) s).

Definition push_edge (e : Edge) : Exec unit :=
  modify_ssot (fun s => set_edges (edges s ++ [e]) s).

Definition edge_target (from_ref kind to_ref : string) : string :=
  from_ref +:+ "->" +:+ kind +:+ "->" +:+ to_ref.

Definition addNode (params : AddNodeParams) (intentId : string)
  : Exec (list IntentChange) :=
  nodeId ← fresh_uuid;
  created_at ← read_clock;
  let node :=
    {| node_id := nodeId;
       node_kind := an_kind params;
       node_attrs := default [] (an_attrs params);
       node_metadata := Some (created_by_user_node created_at intentId) |} in
  push_node node;;
  mret [ {| change_type := node_added;
            change_target := nodeId;
            change_details := Some (KindDetails (an_kind params)) |} ].

Definition addEdge (params : AddEdgeParams) (intentId : string)
  : Exec (list IntentChange) :=
  match edge_definitions schema !! ae_edge_kind params with
  | None =>
      if inherited (ae_edge_kind params) then
        (* [edgeDef] is a member of [Object.prototype]: truthy, and without
           [from] *)
        s ← get_ssot;
        match findNode s (ae_from_ref params), findNode s (ae_to_ref params)
        with
        | Some _, Some _ => throw (cannot_read "undefined" "includes")
        | _, _ => throw "Source or target node not found"
        end
      else
        throw ("Edge kind '" +:+ ae_edge_kind params +:+
               "' not found in schema")
  | Some edgeDef =>
      s ← get_ssot;
      match findNode s (ae_from_ref params), findNode s (ae_to_ref params) with
      | Some fromNode, Some toNode =>
          if negb (bool_decide (node_kind fromNode ∈ def_from edgeDef)) then
            throw ("Edge '" +:+ ae_edge_kind params +:+ "' cannot start from '"
                   +:+ node_kind fromNode +:+ "'")
          else if negb (bool_decide (node_kind toNode ∈ def_to edgeDef)) then
            throw ("Edge '" +:+ ae_edge_kind params +:+ "' cannot go to '"
                   +:+ node_kind toNode +:+ "'")
          else
            created_at ← read_clock;
            let edge :=
              {| edge_from := ae_from_ref params;
                 edge_kind := ae_edge_kind params;
                 edge_to := ae_to_ref params;
                 edge_attrs := ae_attrs params;
                 edge_metadata :=
                   Some (created_by_user_edge created_at intentId) |} in
            push_edge edge;;
            mret [ {| change_type := edge_added;
                      change_target :=
                        edge_target (ae_from_ref params) (ae_edge_kind params)
                                    (ae_to_ref params);
                      change_details :=
                        Some (KindDetails (ae_edge_kind params)) |} ]
      | _, _ => throw "Source or target node not found"
      end
  end.

(** [node.attrs = result.newDocument] assigns to the node that [findNode]
    returned, the first one with that id. *)
Definition updateNodeAttrs (params : UpdateNodeAttrsParams) (intentId : string)
  : Exec (list IntentChange) :=
  s ← get_ssot;
  match list_find (fun n => node_id n = un_node_ref params) (nodes s) with
  | None => throw ("Node '" +:+ un_node_ref params +:+ "' not found")
  | Some (i, node) =>
      match applyPatch env (node_attrs node) (un_patch params) with
      | Throw message => throw message
      | Ok newDocument =>
          modify_ssot (fun s' =>
            set_nodes (<[i := set_node_attrs newDocument node]> (nodes s')) s');;
          mret [ {| change_type := node_updated;
                    change_target := un_node_ref params;
                    change_details :=
                      Some (OperationsDetails
                              (Z.of_nat (length (un_patch params)))) |} ]
      end
  end.

(** [params.cascade] used as a condition. *)
Definition cascade_set (params : DeleteNodeParams) : bool :=
  default false (dn_cascade params).

Definition touches (ref : string) (e : Edge) : Prop :=
  edge_from e = ref \/ edge_to e = ref.

#[global] Instance touches_dec ref e : Decision (touches ref e).
Proof. unfold touches. apply _. Defined.

Definition deleteNode (params : DeleteNodeParams) (intentId : string)
  : Exec (list IntentChange) :=
  s ← get_ssot;
  match list_find (fun n => node_id n = dn_node_ref params) (nodes s) with
  | None => throw ("Node '" +:+ dn_node_ref params +:+ "' not found")
  | Some (nodeIndex, _) =>
      let connected := filter (touches (dn_node_ref params)) (edges s) in
      if bool_decide (0 < length connected)%nat && negb (cascade_set params) then
        throw ("Node '" +:+ dn_node_ref params +:+ "' has " +:+
               pretty (length connected) +:+
               " connected edges. Use cascade=true to delete them.")
      else
        modify_ssot (fun s' => set_nodes (delete nodeIndex (nodes s')) s');;
        (if cascade_set params then
           modify_ssot (fun s' =>
             set_edges
               (filter (fun e => edge_from e <> dn_node_ref params
                                 /\ edge_to e <> dn_node_ref params)
                       (edges s')) s')
         else mret tt);;
        mret [ {| change_type := node_deleted;
                  change_target := dn_node_ref params;
                  change_details :=
                    Some (DeleteDetails (dn_cascade params)
                                        (Z.of_nat (length connected))) |} ]
  end.

Definition addNeed (params : AddNeedParams) (intentId : string)
  : Exec (list IntentChange) :=
  needId ← fresh_uuid;
  created_at ← read_clock;
  let need :=
    {| node_id := needId;
       node_kind := "Need";
       node_attrs := need_attrs params;
       node_metadata := Some (created_by_user_node created_at intentId) |} in
  push_node need;;
  let changes :=
    [ {| change_type := node_added; change_target := needId;
         change_details := Some (KindDetails "Need") |} ] in
  match need_expressed_by params with
  | Some actor =>
      if truthy_string actor then
        edge_created_at ← read_clock;
        let edge :=
          {| edge_from := actor; edge_kind := "expresses"; edge_to := needId;
             edge_attrs := None;
             edge_metadata :=
               Some (created_by_user_edge edge_created_at intentId) |} in
        push_edge edge;;
        mret (changes ++
              [ {| change_type := edge_added;
                   change_target := edge_target actor "expresses" needId;
                   change_details := Some (KindDetails "expresses") |} ])
      else mret changes
  | None => mret changes
  end.

Definition addRequirementRefinement (params : AddRequirementRefinementParams)
    (intentId : string) : Exec (list IntentChange) :=
  s ← get_ssot;
  match findNode s (rr_need_ref params) with
  | Some need =>
      if bool_decide (node_kind need <> "Need") then
        throw ("Need '" +:+ rr_need_ref params +:+ "' not found")
      else
        reqId ← fresh_uuid;
        created_at ← read_clock;
        let requirement :=
          {| node_id := reqId;
             node_kind := "Requirement";
             node_attrs := rr_requirement_attrs params;
             node_metadata := Some (created_by_user_node created_at intentId) |} in
        push_node requirement;;
        edge_created_at ← read_clock;
        let edge :=
          {| edge_from := rr_need_ref params; edge_kind := "refinesTo";
             edge_to := reqId; edge_attrs := None;
             edge_metadata :=
               Some (created_by_user_edge edge_created_at intentId) |} in
        push_edge edge;;
        mret [ {| change_type := node_added; change_target := reqId;
                  change_details := Some (KindDetails "Requirement") |};
               {| change_type := edge_added;
                  change_target :=
                    edge_target (rr_need_ref params) "refinesTo" reqId;
                  change_details := Some (KindDetails "refinesTo") |} ]
  | None => throw ("Need '" +:+ rr_need_ref params +:+ "' not found")
  end.

(** ** Dispatch and [execute] *)

(** [this.handler(intent.params as P, intent.metadata!.intent_id)] *)
Definition dispatch {P} (cast : Attrs -> option P)
    (handler : P -> string -> Exec (list IntentChange)) (intent : Intent)
  : option (Exec (list IntentChange)) :=
  match intent_params intent with
  | PayloadObject fields =>
      params ← cast fields;
      Some (match intent_metadata intent with
            | Some md => handler params (im_intent_id md)
            | None => throw (cannot_read "undefined" "intent_id")
            end)
  | _ => None
  end.

Definition executeIntentType (intent : Intent)
  : option (Exec (list IntentChange)) :=
  let type := intent_type intent in
  if bool_decide (type = "I.AddNode") then
    dispatch as_AddNodeParams addNode intent
  else if bool_decide (type = "I.AddEdge") then
    dispatch as_AddEdgeParams addEdge intent
  else if bool_decide (type = "I.UpdateNodeAttrs") then
    dispatch as_UpdateNodeAttrsParams updateNodeAttrs intent
  else if bool_decide (type = "I.DeleteNode") then
    dispatch as_DeleteNodeParams deleteNode intent
  else if bool_decide (type = "I.AddNeed") then
    dispatch as_AddNeedParams addNeed intent
  else if bool_decide (type = "I.AddRequirementRefinement") then
    dispatch as_AddRequirementRefinementParams addRequirementRefinement intent
  else
    Some (throw ("Intent type '" +:+ type +:+ "' not yet implemented")).

(** [if (!intent.metadata) intent.metadata = {...}] *)
Definition with_metadata (intent : Intent) (intentId timestamp : string)
    (s : SSoT) : Intent :=
  match intent_metadata intent with
  | Some _ => intent
  | None =>
      {| intent_type := intent_type intent;
         intent_params := intent_params intent;
         intent_metadata :=
           Some {| im_intent_id := intentId;
                   im_timestamp := timestamp;
                   im_user := None;
                   im_source := Some src_user;
                   im_collaboration_mode :=
                     Some (meta_collaboration_mode (meta s)) |} |}
  end.

(** The [try] block of [execute], given the handler that the dispatch
    selected. *)
Definition try_block (handler : Exec (list IntentChange)) (intent : Intent)
    (intentId timestamp : string) : Exec (list IntentChange) :=
  changes ← handler;
  modify_ssot (set_last_updated timestamp);;
  rebuildIndexes;;
  (if default false (autoSave options) then save else mret tt);;
  (if history_enabled then recordHistory intent intentId timestamp
   else mret tt);;
  mret changes.

Definition validation_failure (intentId : string)
    (errors : list ValidationError) : IntentResult :=
  {| res_success := false; res_intent_id := intentId; res_changes := None;
     res_errors := Some errors; res_rollback := None |}.

Definition execution_success (intentId : string)
    (changes : list IntentChange) : IntentResult :=
  {| res_success := true; res_intent_id := intentId;
     res_changes := Some changes; res_errors := None; res_rollback := None |}.

Definition execution_failure (intentId message : string) (snapshot : SSoT)
  : IntentResult :=
  {| res_success := false; res_intent_id := intentId; res_changes := None;
     res_errors :=
       Some [ {| err_code := "EXECUTION_FAILED"; err_message := message;
                 err_field := None |} ];
     res_rollback :=
       Some {| rb_reason := "Execution error";
               rb_original_state_snapshot := snapshot |} |}.

(** The state in which the [try] block starts: [execute] itself has drawn one
    uuid and read the clock once. *)
Definition start_state (s : SSoT) : ExecState :=
  {| st_ssot := s; st_uuids := 1; st_dates := 1; st_io := [] |}.

(** [execute intent s] is the result that the call returns, or the
    exception that it throws to its caller; the value of [this.ssot]
    afterwards; and the file operations done, for an engine whose
    [this.ssot] is [s].  Validation runs before the [try] block, so what it
    throws leaves [execute].  The whole is [None] only where a handler would
    be given a payload that is not of its parameter type. *)
Definition execute (intent : Intent) (s : SSoT)
  : option (Result IntentResult * SSoT * list IOEvent) :=
  let intentId := uuidv4 env 0 in
  let timestamp := now env 0 in
  let intent := with_metadata intent intentId timestamp s in
  match validateIntent intent s with
  | Throw message => Some (Throw message, s, [])
  | Ok validationErrors =>
      if bool_decide (0 < length validationErrors)%nat then
        Some (Ok (validation_failure intentId validationErrors), s, [])
      else
        let snapshot := ssot_copy s in
        handler ← executeIntentType intent;
        match try_block handler intent intentId timestamp (start_state s) with
        | (Ok changes, st) =>
            Some (Ok (execution_success intentId changes), st_ssot st,
                  st_io st)
        | (Throw message, st) =>
            Some (Ok (execution_failure intentId message snapshot), snapshot,
                  st_io st)
        end
  end.

End IntentEngine.

(** * The quality gate (packages/criteria-engine/src) *)

Record QualityThreshold := {
  max_fail : option Z;
  max_warn : option Z;
  min_quality_score : option Z;
}.

Record ExceptionRule := {
  exc_rule_id : string;
  exc_reason : string;
  exc_expires_at : option string;
}.

Record QualityGate := {
  baseline : QualityThreshold;
  delta : option QualityThreshold;
  exception : option (list ExceptionRule);
}.

(** [checkQualityGate(evaluation, gate)] of an engine whose [this.qualityGate]
    is [qualityGate]. *)
Definition checkQualityGate (qualityGate : option QualityGate)
    (evaluation : CriteriaEvaluation) (gate : option QualityGate) : bool :=
  let g := match gate with Some x => Some x | None => qualityGate end in
  match g with
  | None => true
  | Some g =>
      let baseline := baseline g in
      if from_option (fun m => (m <? ev_failed evaluation)%Z) false
                     (max_fail baseline)
      then false
      else if from_option (fun m => (m <? ev_warned evaluation)%Z) false
                          (max_warn baseline)
      then false
      else if from_option
                (fun m => (sum_quality_score (ev_summary evaluation) <? m)%Z)
                false (min_quality_score baseline)
      then false
      else true
  end.

(** * Helpers of the core package (packages/core/src/types.ts) *)

Definition mapSeverityToLegacy (severity : string) : Result string :=
  if bool_decide (severity = "error") then Ok "ERROR"
  else if bool_decide (severity = "warning") then Ok "WARN"
  else if bool_decide (severity = "info") then Ok "INFO"
  else Throw ("Unknown severity value: " +:+ severity).

Definition mapLegacySeverityToStandard (severity : string) : Result string :=
  if bool_decide (severity = "ERROR") then Ok "error"
  else if bool_decide (severity = "WARN") then Ok "warning"
  else if bool_decide (severity = "INFO") then Ok "info"
  else Throw ("Unknown legacy severity value: " +:+ severity).

Record PhaseRuleConfig := {
  phase_rules : gmap string string;
}.

(** [PluginConfig]; the entries of its index signature are not read by
    [mergePhaseRules]. *)
Record PluginConfig := {
  pc_enabled : option bool;
  pc_profile : option string;
  pc_rules : option (gmap string string);
  pc_phases : option (gmap string PhaseRuleConfig);
}.

(** [{ ...defaultRules, ...phaseRules }]: the later spread wins.  Under a
    phase name that [phases] has no entry for, [config.phases[activePhase]]
    is either undefined or a member of [Object.prototype], which has no
    [rules]: spreading undefined adds nothing, so both ways the result has
    the entries of the default rules. *)
Definition mergePhaseRules (config : PluginConfig) (activePhase : option string)
  : gmap string string :=
  let defaultRules := default ∅ (pc_rules config) in
  match activePhase with
  | None => defaultRules
  | Some phase =>
      if negb (truthy_string phase) then defaultRules
      else
        match pc_phases config with
        | None => defaultRules
        | Some phases =>
            match phases !! phase with
            | None => defaultRules
            | Some phaseConfig => phase_rules phaseConfig ∪ defaultRules
            end
        end
  end.

(** * Loading the rules (packages/criteria-engine/src/engine.ts) *)

(** An error thrown by the file system, by a parser or by the engine's own
    code; [code] is the [code] property that Node gives to file-system
    errors, and that a [TypeError] does not have. *)
Record IOError := {
  io_code : option string;
  io_message : string;
}.

Record CriteriaEngineOptions := {
  criteriaDir : string;
  criteria_ssotPath : option string;
  autoLoad : option bool;
  enableExplainability : option bool;
}.

(** What [loadRules] obtains from outside the engine.  [read_rules path]
    stands for [YAML.parse(await fs.readFile(path, 'utf-8')).rules]: the
    rules of the document, [None] when the document has no [rules] entry,
    or the error that reading, parsing or the property access throws. *)
Record RulesEnv := {
  readdir : string -> IOError + list string;
  read_rules : string -> IOError + option (list CriteriaRule);
  rules_path_join : string -> string -> string;
}.

(** [s.endsWith(suffix)] *)
Definition ends_with (suffix s : string) : bool :=
  let n := String.length s in
  let m := String.length suffix in
  (m <=? n)%nat && bool_decide (String.substring (n - m) m s = suffix).

(** The outcome of [loadRules]: the error it throws if any, [this.rules]
    afterwards, and the console output. *)
Record LoadOutcome := {
  load_thrown : option IOError;
  load_rules : list CriteriaRule;
  load_console : list ConsoleLine;
}.

(** The [catch] block of [loadRules]. *)
Definition load_catch (criteriaDir : string) (error : IOError)
    (rules : list CriteriaRule) : LoadOutcome :=
  if bool_decide (io_code error = Some "ENOENT") then
    {| load_thrown := None; load_rules := rules;
       load_console :=
         [ConsoleWarn ("Criteria directory not found: " +:+ criteriaDir)] |}
  else
    {| load_thrown := Some error; load_rules := rules; load_console := [] |}.

(** The loop over the YAML files, with [rules] being [this.rules]. *)
Fixpoint load_files (renv : RulesEnv) (criteriaDir : string)
    (yamlFiles : list string) (rules : list CriteriaRule) : LoadOutcome :=
  match yamlFiles with
  | [] => {| load_thrown := None; load_rules := rules; load_console := [] |}
  | file :: rest =>
      let filePath := rules_path_join renv criteriaDir file in
      match read_rules renv filePath with
      | inl error => load_catch criteriaDir error rules
      | inr None => load_files renv criteriaDir rest rules
      | inr (Some docRules) =>
          load_files renv criteriaDir rest (rules ++ docRules)
      end
  end.

Definition is_yaml (f : string) : bool :=
  ends_with ".yaml" f || ends_with ".yml" f.

Definition loadRules (renv : RulesEnv) (options : CriteriaEngineOptions)
    (rules : list CriteriaRule) : LoadOutcome :=
  let criteriaDir := criteriaDir options in
  match readdir renv criteriaDir with
  | inl error => load_catch criteriaDir error rules
  | inr files =>
      let yamlFiles := List.filter is_yaml files in
      load_files renv criteriaDir yamlFiles rules
  end.

(** [initialize] of the criteria engine: [autoLoad !== false]. *)
Definition criteria_initialize (renv : RulesEnv)
    (options : CriteriaEngineOptions) (rules : list CriteriaRule)
  : LoadOutcome :=
  match autoLoad options with
  | Some false =>
      {| load_thrown := None; load_rules := rules; load_console := [] |}
  | _ => loadRules renv options rules
  end.

(** * Initializing the intent engine (packages/intent-engine/src/engine.ts) *)

(** The parsed catalog document: [intents] may be missing. *)
Record CatalogDoc := {
  doc_version : string;
  doc_intents : option (list IntentDefinition);
}.

(** What [initialize] obtains from outside the engine: each function stands
    for [fs.readFile] followed by the parser, and answers the document or
    the error that either throws. *)
Record InitEnv := {
  read_ssot : string -> IOError + SSoT;
  read_schema : string -> IOError + EffectiveSchema;
  read_catalog : string -> IOError + CatalogDoc;
  path_dirname : string -> string;
  init_path_join : string -> string -> string -> string;
}.

(** The fields of the engine that [initialize] assigns; [None] is the [null]
    that the constructor leaves. *)
Record EngineFields := {
  eng_ssot : option SSoT;
  eng_schema : option EffectiveSchema;
  eng_catalog : option IntentCatalog;
}.

Definition uninitialized : EngineFields :=
  {| eng_ssot := None; eng_schema := None; eng_catalog := None |}.

(** [if (!this.ssot.indexes) this.rebuildIndexes()]: the document that the
    engine holds afterwards, or the exception of [rebuildIndexes]. *)
Definition ensure_indexes (s : SSoT) : Result SSoT :=
  match indexes s with
  | Some _ => Ok s
  | None =>
      match build_indexes s with
      | Throw m => Throw m
      | Ok ix => Ok (set_indexes (Some ix) s)
      end
  end.

(** [initialize]: the error thrown, if any, and the fields afterwards. *)
Definition initialize (ienv : InitEnv) (options : IntentEngineOptions)
    (engine : EngineFields) : option IOError * EngineFields :=
  match read_ssot ienv (ssotPath options) with
  | inl error => (Some error, engine)
  | inr ssotDoc =>
      let engine1 :=
        {| eng_ssot := Some ssotDoc; eng_schema := eng_schema engine;
           eng_catalog := eng_catalog engine |} in
      match read_schema ienv (effectiveSchemaPath options) with
      | inl error => (Some error, engine1)
      | inr schemaDoc =>
          let engine2 :=
            {| eng_ssot := Some ssotDoc; eng_schema := Some schemaDoc;
               eng_catalog := eng_catalog engine |} in
          let catalogPath :=
            init_path_join ienv
              (path_dirname ienv (effectiveSchemaPath options)) ".."
              "intent_catalog.yaml" in
          match read_catalog ienv catalogPath with
          | inl error => (Some error, engine2)
          | inr catalogDoc =>
              let catalog :=
                {| catalog_version := doc_version catalogDoc;
                   catalog_intents := default [] (doc_intents catalogDoc) |} in
              match ensure_indexes ssotDoc with
              | Throw m =>
                  (Some {| io_code := None; io_message := m |},
                   {| eng_ssot := Some ssotDoc; eng_schema := Some schemaDoc;
                      eng_catalog := Some catalog |})
              | Ok indexedDoc =>
                  (None,
                   {| eng_ssot := Some indexedDoc;
                      eng_schema := Some schemaDoc;
                      eng_catalog := Some catalog |})
              end
          end
      end
  end.

(** * Concrete hosts, environments and documents used in the examples *)

Module Demo.

(** Literal replacement of every occurrence of a non-empty [pat]. *)
Fixpoint replace_from (pat repl : string) (skip : nat) (s : string) : string :=
  match s with
  | EmptyString => EmptyString
  | String c rest =>
      match skip with
      | S k => replace_from pat repl k rest
      | O =>
          if String.prefix pat s
          then repl +:+ replace_from pat repl (String.length pat - 1) rest
          else String c (replace_from pat repl 0 rest)
      end
  end.

(** Two numbers compare by value.  An operand that is an object with a
    [toString] entry of its own (which in a JSON document is no function)
    has no primitive value. *)
Definition num_cmp (f : Z -> Z -> bool) (a b : JSAny) : Result bool :=
  match a, b with
  | Some (JNum x), Some (JNum y) => Ok (f x y)
  | Some (JObj fields), _ | _, Some (JObj fields) =>
      if bool_decide (is_Some (field "toString" fields))
      then Throw "Cannot convert object to primitive value"
      else Ok false
  | _, _ => Ok false
  end.

(** A host that reads own properties of objects, compares numbers, accepts
    every pattern but ["("], and substitutes placeholders literally. *)
Definition host : JsHost :=
  {| js_get := fun acc part =>
       match acc with Some (JObj a) => field part a | _ => None end;
     js_gt := num_cmp Z.gtb;
     js_gte := num_cmp Z.geb;
     js_lt := num_cmp Z.ltb;
     js_lte := num_cmp Z.leb;
     regexp_test := fun pattern text =>
       if bool_decide (pattern = "(")
       then Throw "Invalid regular expression: /(/: Unterminated group"
       else Ok (bool_decide (pattern = text));
     replace_placeholder := fun name repl template =>
       replace_from ("{" +:+ name +:+ "}") repl 0 template;
     clock := fun k => "2025-01-01T00:00:0" +:+ pretty k +:+ "Z" |}.

Definition the_meta : SSoTMeta :=
  {| meta_version := "1.0"; meta_profile_version := "1.0";
     meta_last_updated := "2024-12-31T00:00:00Z";
     meta_created_at := "2024-12-01T00:00:00Z";
     meta_collaboration_mode := copilot; meta_description := None |}.

Definition mk_node (id kind : string) : Node :=
  {| node_id := id; node_kind := kind; node_attrs := [];
     node_metadata := None |}.

Definition mk_edge (from kind to : string) : Edge :=
  {| edge_from := from; edge_kind := kind; edge_to := to;
     edge_attrs := None; edge_metadata := None |}.

(** A document with the indexes that [rebuildIndexes] gives it. *)
Definition mk_ssot (ns : list Node) (es : list Edge) : SSoT :=
  let s := {| meta := the_meta; nodes := ns; edges := es; indexes := None |} in
  match build_indexes s with
  | Ok ix => set_indexes (Some ix) s
  | Throw _ => s
  end.

(** Two needs, one requirement; need N1 is refined, need N2 is not. *)
Definition graph : SSoT :=
  mk_ssot [mk_node "N1" "Need"; mk_node "N2" "Need"; mk_node "R1" "Requirement"]
          [mk_edge "N1" "refinesTo" "R1"].

Definition mk_condition (type : string) : RuleCondition :=
  {| cond_type := type; cond_operator := None; cond_value := None;
     cond_path := None; cond_edge_kind := None; cond_min := None;
     cond_max := None; cond_function := None |}.

Definition mk_rule (id : string) (severity : Severity) (target_type : string)
    (kind : option KindSpec) (condition : RuleCondition) : CriteriaRule :=
  {| rule_id := id; rule_title := id; rule_description := "";
     rule_severity := severity; rule_category := "traceability";
     rule_target := {| target_type := target_type; target_kind := kind;
                       target_selector := None |};
     rule_condition := condition;
     rule_message := "{target_ref}: {actual_value} (expected {expected_value})";
     rule_why := None; rule_fix_hint := None |}.

Definition connected_condition (edge_kind : string) (min : option Z)
  : RuleCondition :=
  {| cond_type := "connected"; cond_operator := None; cond_value := None;
     cond_path := None; cond_edge_kind := Some edge_kind; cond_min := min;
     cond_max := None; cond_function := None |}.

(** *** The intent engine *)

Definition schema : EffectiveSchema :=
  {| schema_version := "1.0"; schema_source_profile := "nrvv";
     node_kinds := ["Actor"; "Need"; "Requirement"];
     edge_kinds := ["expresses"; "refinesTo"];
     edge_definitions :=
       <["refinesTo" := {| def_from := ["Need"]; def_to := ["Requirement"];
                           def_cardinality := None; def_semantics := None |}]>
       (<["expresses" := {| def_from := ["Actor"]; def_to := ["Need"];
                            def_cardinality := None; def_semantics := None |}]>
        ∅) |}.

Definition param (type : string) (required : bool) : ParameterDefinition :=
  {| param_type := type; param_required := required;
     param_description := None; param_default := None; param_format := None |}.

Definition mk_def (id : string)
    (parameters : list (string * ParameterDefinition)) : IntentDefinition :=
  {| idef_id := id; idef_title := id; idef_scope := "graph";
     idef_category := "basic"; idef_parameters := Some parameters |}.

Definition catalog : IntentCatalog :=
  {| catalog_version := "1.0";
     catalog_intents :=
       [ mk_def "I.AddNode" [("kind", param "NodeKind" true);
                             ("attrs", param "Json" false)];
         mk_def "I.AddEdge" [("from_ref", param "NodeRef" true);
                             ("edge_kind", param "EdgeKind" true);
                             ("to_ref", param "NodeRef" true)];
         mk_def "I.DeleteNode" [("node_ref", param "NodeRef" true);
                                ("cascade", param "Boolean" false)];
         mk_def "I.ToggleEdge" [("from_ref", param "NodeRef" true);
                                ("edge_kind", param "EdgeKind" true);
                                ("to_ref", param "NodeRef" true)];
         mk_def "I.SuggestRequirements" [] ] |}.

(** A catalog whose I.AddNode requires, besides [kind], a parameter called
    [name]. *)
Definition requiring (name : string) : IntentCatalog :=
  {| catalog_version := "1.0";
     catalog_intents :=
       [ mk_def "I.AddNode" [("kind", param "NodeKind" true);
                             (name, param "String" true)] ] |}.

Definition autosaving : IntentEngineOptions :=
  {| ssotPath := "state/ssot.json";
     effectiveSchemaPath := "standards/compiled/effective_schema.yaml";
     historyDir := Some "state/history"; autoSave := Some true |}.

Definition in_memory : IntentEngineOptions :=
  {| ssotPath := "state/ssot.json";
     effectiveSchemaPath := "standards/compiled/effective_schema.yaml";
     historyDir := None; autoSave := None |}.

(** An environment whose file operations answer [disk]. *)
Definition mk_env (disk : option string) : ExecEnv :=
  {| uuidv4 := fun k => "uuid-" +:+ pretty k;
     now := fun k => "2025-01-01T00:00:0" +:+ pretty k +:+ "Z";
     fs_writeFile := fun _ _ => disk;
     fs_mkdir := fun _ => None;
     path_join := fun dir file => dir +:+ "/" +:+ file;
     applyPatch := fun doc _ => Ok doc |}.

Definition working_env : ExecEnv := mk_env None.


Definition mk_intent (type : string) (params : Attrs) : Intent :=
  {| intent_type := type; intent_params := PayloadObject params;
     intent_metadata := None |}.

(** *** Loading rules and documents *)

Definition unrefined_need : CriteriaRule :=
  mk_rule "R-001" FAIL "node" (Some (OneKind "Need"))
          (connected_condition "refinesTo" None).

Definition no_requirement : CriteriaRule :=
  mk_rule "R-002" WARN "node" (Some (OneKind "Requirement"))
          (mk_condition "not_exists").

Definition criteria_options : CriteriaEngineOptions :=
  {| criteriaDir := "checks/criteria"; criteria_ssotPath := None;
     autoLoad := None; enableExplainability := None |}.

Definition no_entry (path : string) : IOError :=
  {| io_code := Some "ENOENT";
     io_message := "ENOENT: no such file or directory, open '" +:+ path
                   +:+ "'" |}.

Definition not_permitted (path : string) : IOError :=
  {| io_code := Some "EACCES";
     io_message := "EACCES: permission denied, open '" +:+ path +:+ "'" |}.

(** A criteria directory with three YAML files and a README.  [a.yaml] holds
    one rule, [b.yml] has no [rules] entry, and reading [c.yaml] answers
    [third]. *)
Definition rules_env (third : IOError + option (list CriteriaRule))
  : RulesEnv :=
  {| readdir := fun dir =>
       if bool_decide (dir = "checks/criteria")
       then inr ["a.yaml"; "README.md"; "b.yml"; "c.yaml"; "yaml"]
       else inl (no_entry dir);
     read_rules := fun path =>
       if bool_decide (path = "checks/criteria/a.yaml")
       then inr (Some [unrefined_need])
       else if bool_decide (path = "checks/criteria/b.yml") then inr None
       else if bool_decide (path = "checks/criteria/c.yaml") then third
       else inl {| io_code := None;
                   io_message := "YAMLParseError: not a YAML document" |};
     rules_path_join := fun dir file => dir +:+ "/" +:+ file |}.

Definition rule_documents (f : string) : option (list CriteriaRule) :=
  if bool_decide (f = "a.yaml") then Some [unrefined_need]
  else if bool_decide (f = "c.yaml") then Some [no_requirement]
  else None.

(** The stored document of [graph], without indexes. *)
Definition stored_graph : SSoT := set_indexes None graph.

(** A stored document, without indexes, that has a node of kind
    "constructor". *)
Definition stored_constructor : SSoT :=
  set_nodes (nodes graph ++ [mk_node "C1" "constructor"]) stored_graph.

(** The files that [initialize] reads; the stored document is [document],
    and the catalog document has the intents [intents]. *)
Definition init_env_of (document : SSoT)
    (intents : option (list IntentDefinition))
    (schemaFile : IOError + EffectiveSchema) : InitEnv :=
  {| read_ssot := fun path =>
       if bool_decide (path = "state/ssot.json") then inr document
       else inl (no_entry path);
     read_schema := fun _ => schemaFile;
     read_catalog := fun path =>
       if bool_decide
            (path = "standards/compiled/../intent_catalog.yaml")
       then inr {| doc_version := "1.0"; doc_intents := intents |}
       else inl (no_entry path);
     path_dirname := fun _ => "standards/compiled";
     init_path_join := fun a b c => a +:+ "/" +:+ b +:+ "/" +:+ c |}.

Definition init_env : option (list IntentDefinition) ->
                      IOError + EffectiveSchema -> InitEnv :=
  init_env_of stored_graph.

End Demo.

(** * Vocabulary of the statements *)

(** A rule whose condition is not one of the five that [checkRuleCondition]
    handles: the [default] branch of its [switch]. *)
Definition recognized (type : string) : Prop :=
  type ∈ ["exists"; "not_exists"; "count"; "attribute"; "connected"].

(** The diagnostics of one rule taken alone. *)
Definition rule_diagnostics (host : JsHost) (ssot : SSoT) (rule : CriteriaRule)
  : list Diagnostic :=
  (evaluateRule host rule ssot 0).1.

(** A rule is faulty on a graph when checking its condition throws, or when
    its condition type is not one that the engine implements. *)
Definition condition_throws (host : JsHost) (rule : CriteriaRule) (ssot : SSoT)
    (message : string) : Prop :=
  (checkRuleCondition host rule ssot).1 = Throw message.

Definition faulty (host : JsHost) (rule : CriteriaRule) (ssot : SSoT) : Prop :=
  (exists message, condition_throws host rule ssot message) \/
  ~ recognized (cond_type (rule_condition rule)).

(** The state in which the indexes are rebuilt: the handler's result with
    the time stamp of the call. *)
Definition stamped (timestamp : string) (st : ExecState) : ExecState :=
  {| st_ssot := set_last_updated timestamp (st_ssot st);
     st_uuids := st_uuids st; st_dates := st_dates st; st_io := st_io st |}.

(** The state in which [save] runs: the handler's result, stamped, with the
    indexes [ix] that the reindexing gave. *)
Definition finished (timestamp : string) (ix : SSoTIndexes) (st : ExecState)
  : ExecState :=
  {| st_ssot :=
       set_indexes (Some ix) (set_last_updated timestamp (st_ssot st));
     st_uuids := st_uuids st; st_dates := st_dates st; st_io := st_io st |}.

(** [this.ssot] after a call of [execute] on an engine that held [s]. *)
Definition ssot_after
    (r : option (Result IntentResult * SSoT * list IOEvent)) (s : SSoT)
  : SSoT :=
  from_option (fun x => x.1.2) s r.

(** A parameter that the payload answers: the read is neither [undefined]
    nor [null]. *)
Definition present (value : Member) : Prop :=
  value <> NoMember /\ value <> OwnValue JNull.

(** When a validation error applies to a declared parameter, given what the
    read [params[paramName]] yields: a required parameter whose read is
    [undefined] or [null] is MISSING_PARAMETER; a present value declared as
    a node reference that is the id of no node is INVALID_NODE_REF; a
    present value declared as a node kind or edge kind that is not in the
    schema's set is INVALID_NODE_KIND or INVALID_EDGE_KIND. *)
Inductive applicable (schema : EffectiveSchema) (s : SSoT) (params : Attrs)
    (paramName : string) (paramDef : ParameterDefinition) : string -> Prop :=
| applicable_missing :
    param_required paramDef = true ->
    ~ present (get_member paramName params) ->
    applicable schema s params paramName paramDef "MISSING_PARAMETER"
| applicable_node_ref :
    present (get_member paramName params) ->
    param_type paramDef = "NodeRef" ->
    (forall n, n ∈ nodes s ->
       get_member paramName params <> OwnValue (JStr (node_id n))) ->
    applicable schema s params paramName paramDef "INVALID_NODE_REF"
| applicable_node_kind :
    present (get_member paramName params) ->
    param_type paramDef = "NodeKind" ->
    (forall k, k ∈ node_kinds schema ->
       get_member paramName params <> OwnValue (JStr k)) ->
    applicable schema s params paramName paramDef "INVALID_NODE_KIND"
| applicable_edge_kind :
    present (get_member paramName params) ->
    param_type paramDef = "EdgeKind" ->
    (forall k, k ∈ edge_kinds schema ->
       get_member paramName params <> OwnValue (JStr k)) ->
    applicable schema s params paramName paramDef "INVALID_EDGE_KIND".




(** The edge that [addEdge] builds. *)
Definition new_edge (params : AddEdgeParams) (created_at intentId : string)
  : Edge :=
  {| edge_from := ae_from_ref params;
     edge_kind := ae_edge_kind params;
     edge_to := ae_to_ref params;
     edge_attrs := ae_attrs params;
     edge_metadata := Some (created_by_user_edge created_at intentId) |}.

(** An entry of an index: absent when nothing was pushed under the key. *)
Definition index_entry {A} (l : list A) : option (list A) :=
  match l with
  | [] => None
  | _ => Some l
  end.

(** The indexes are the projection of the nodes and edges: those that
    [rebuildIndexes] computes from them. *)
Definition indexed (s : SSoT) : Prop :=
  exists ix, build_indexes s = Ok ix /\ indexes s = Some ix.

(** No node kind and no endpoint of an edge is named like a member of
    [Object.prototype]. *)
Definition plain_keys (s : SSoT) : Prop :=
  (forall n, n ∈ nodes s -> inherited (node_kind n) = false) /\
  (forall e, e ∈ edges s ->
     inherited (edge_from e) = false /\ inherited (edge_to e) = false).

(** A plain object has no own entry under a name of [Object.prototype]. *)
Definition plain_index {A} (index : gmap string A) : Prop :=
  forall key, is_Some (index !! key) -> inherited key = false.

(** One loop of [rebuildIndexes], over any list. *)
Fixpoint index_all {A B} (name : string) (key : A -> string) (val : A -> B)
    (l : list A) (index : gmap string (list B))
  : Result (gmap string (list B)) :=
  match l with
  | [] => Ok index
  | x :: rest =>
      match index_push name (key x) (val x) index with
      | Throw m => Throw m
      | Ok index' => index_all name key val rest index'
      end
  end.

(** What one pass of the category loop of [evaluate] does to the entry of
    the category of its rule: [count_category], read at that one key. *)
Definition bump (category : string) (entry : option Tally) : option Tally :=
  match entry with
  | Some (TallyNum n) => Some (TallyNum (n + 1))
  | Some (TallyText text) =>
      if truthy_string text then Some (TallyText (text +:+ "1"))
      else Some (TallyNum 1)
  | None =>
      if inherited category then
        if bool_decide (category = "__proto__") then None
        else Some (TallyText (member_text category +:+ "1"))
      else Some (TallyNum 1)
  end.

(** The text "1", [n] times. *)
Fixpoint ones (n : nat) : string :=
  match n with
  | O => ""
  | S k => ones k +:+ "1"
  end.

Definition is_node (s : SSoT) (id : string) : Prop :=
  exists n, n ∈ nodes s /\ node_id n = id.

(** Every edge starts and ends at a node of the graph. *)
Definition edges_resolve (s : SSoT) : Prop :=
  forall e, e ∈ edges s -> is_node s (edge_from e) /\ is_node s (edge_to e).

(** No two nodes share an id. *)
Definition unique_ids (s : SSoT) : Prop :=
  NoDup (node_id <$> nodes s).

(** What a handler that returns has done to the graph.  [fresh] is the id
    given to a node that it creates; [unchecked] is the source of an edge
    that it appended without looking it up. *)
Inductive effect (fresh : string) : option string -> SSoT -> SSoT -> Prop :=
| effect_node s n :
    node_id n = fresh ->
    effect fresh None s (set_nodes (nodes s ++ [n]) s)
| effect_edge s e :
    is_node s (edge_from e) -> is_node s (edge_to e) ->
    effect fresh None s (set_edges (edges s ++ [e]) s)
| effect_attrs s i node a :
    nodes s !! i = Some node ->
    effect fresh None s
      (set_nodes (<[i := set_node_attrs a node]> (nodes s)) s)
| effect_delete s i node :
    nodes s !! i = Some node ->
    (forall e, e ∈ edges s -> ~ touches (node_id node) e) ->
    effect fresh None s (set_nodes (delete i (nodes s)) s)
| effect_delete_cascade s i node :
    nodes s !! i = Some node ->
    effect fresh None s
      (set_edges (filter (fun e => ~ touches (node_id node) e) (edges s))
                 (set_nodes (delete i (nodes s)) s))
| effect_need s n actor e :
    node_id n = fresh -> edge_from e = actor -> edge_to e = fresh ->
    effect fresh (Some actor) s
      (set_edges (edges s ++ [e]) (set_nodes (nodes s ++ [n]) s))
| effect_refinement s n e :
    node_id n = fresh -> is_node s (edge_from e) -> edge_to e = fresh ->
    effect fresh None s
      (set_edges (edges s ++ [e]) (set_nodes (nodes s ++ [n]) s)).

(** What running a handler from [st] may give: no file operation; if it
    returns, an [effect] on the graph; if it throws, the state it started
    from. *)
Definition handler_outcome (fresh : string) (unchecked : option string)
    (st : ExecState) (out : Result (list IntentChange) * ExecState) : Prop :=
  st_io out.2 = st_io st /\
  match out.1 with
  | Ok _ => effect fresh unchecked (st_ssot st) (st_ssot out.2)
  | Throw _ => out.2 = st
  end.

(** The source of the edge that [addNeed] appends without a lookup. *)
Definition unchecked_actor (params : AddNeedParams) : option string :=
  match need_expressed_by params with
  | Some actor => if truthy_string actor then Some actor else None
  | None => None
  end.

(** The file operations of a successful [execute] that leaves [s']: the
    document, if autosave is on, then the history directory and the history
    record, if a history directory is configured. *)
Definition success_io (options : IntentEngineOptions) (env : ExecEnv)
    (intent : Intent) (intentId timestamp : string) (s' : SSoT)
  : list IOEvent :=
  (if default false (autoSave options)
   then [WroteFile (ssotPath options) (SsotDocument s')] else []) ++
  (if history_enabled options
   then [MadeDir (default "" (historyDir options));
         WroteFile (path_join env (default "" (historyDir options))
                              (intentId +:+ ".json"))
                   (HistoryDocument
                      {| he_intent_id := intentId;
                         he_timestamp := timestamp;
                         he_intent_type := intent_type intent;
                         he_params := intent_params intent;
                         he_metadata := intent_metadata intent |})]
   else []).

Definition is_history_record (ev : IOEvent) : Prop :=
  match ev with
  | WroteFile _ (HistoryDocument _) => True
  | _ => False
  end.

(** The operators that [compareValues] implements. *)
Definition known_operator (operator : string) : Prop :=
  operator ∈ ["eq"; "ne"; "gt"; "gte"; "lt"; "lte"; "in"; "not_in";
              "matches"; "not_matches"].

(** The rules that the documents of [files] contribute, in order. *)
Definition loaded (docs : string -> option (list CriteriaRule))
    (files : list string) : list CriteriaRule :=
  files ≫= (fun f => default [] (docs f)).

(** What the [catch] block of [loadRules] leaves when [error] was thrown
    with [rules] loaded so far. *)
Definition caught (dir : string) (error : IOError)
    (rules : list CriteriaRule) (outcome : LoadOutcome) : Prop :=
  load_rules outcome = rules /\
  (io_code error = Some "ENOENT" ->
   load_thrown outcome = None /\
   load_console outcome =
     [ConsoleWarn ("Criteria directory not found: " +:+ dir)]) /\
  (io_code error <> Some "ENOENT" ->
   load_thrown outcome = Some error /\ load_console outcome = []).

(** The name of a YAML file. *)
Definition yaml_name (f : string) : Prop :=
  exists stem, f = stem +:+ ".yaml" \/ f = stem +:+ ".yml".

(** The path of the intent catalog, next to the directory of the schema. *)
Definition catalog_path (ienv : InitEnv) (options : IntentEngineOptions)
  : string :=
  init_path_join ienv (path_dirname ienv (effectiveSchemaPath options)) ".."
                 "intent_catalog.yaml".

(** * Properties of the criteria engine *)

Section CriteriaFacts.

Variable host : JsHost.

Lemma evaluateRules_cons rule rest ssot tick :
  evaluateRules host (rule :: rest) ssot tick =
  ((evaluateRule host rule ssot tick).1 ++
     (evaluateRules host rest ssot
        (tick + length (evaluateRule host rule ssot tick).1)).1,
   (evaluateRule host rule ssot tick).2 ++
     (evaluateRules host rest ssot
        (tick + length (evaluateRule host rule ssot tick).1)).2).
Proof.
  simpl. destruct (evaluateRule host rule ssot tick) as [ds out]. simpl.
  by destruct (evaluateRules host rest ssot (tick + length ds)).
Qed.

Lemma evaluateRules_app before after ssot tick :
  (evaluateRules host (before ++ after) ssot tick).1 =
  (evaluateRules host before ssot tick).1 ++
  (evaluateRules host after ssot
     (tick + length (evaluateRules host before ssot tick).1)).1.
Proof.
  revert tick. induction before as [|rule before IH]; intros tick.
  - simpl. by rewrite Nat.add_0_r.
  - rewrite <- app_comm_cons, !evaluateRules_cons. simpl.
    rewrite IH, length_app, Nat.add_assoc. by rewrite <- app_assoc.
Qed.

Lemma evaluateRules_skip rule rest ssot tick :
  (evaluateRule host rule ssot tick).1 = [] ->
  (evaluateRules host (rule :: rest) ssot tick).1 =
  (evaluateRules host rest ssot tick).1.
Proof.
  intros Hnil. rewrite evaluateRules_cons. simpl.
  by rewrite Hnil, Nat.add_0_r.
Qed.

Lemma checkRuleCondition_unrecognized rule ssot :
  ~ recognized (cond_type (rule_condition rule)) ->
  checkRuleCondition host rule ssot =
  (Ok [], [ConsoleWarn ("Unknown condition type: " +:+
                        cond_type (rule_condition rule))]).
Proof.
  intros Hun. unfold checkRuleCondition.
  repeat (case_bool_decide;
          [ exfalso; apply Hun; unfold recognized;
            match goal with H : cond_type _ = _ |- _ => rewrite H end;
            rewrite !elem_of_cons; auto 10 | ]).
  done.
Qed.

Lemma evaluateRule_throw rule ssot tick m :
  (checkRuleCondition host rule ssot).1 = Throw m ->
  evaluateRule host rule ssot tick =
  ([], (checkRuleCondition host rule ssot).2 ++
       [ConsoleError ("Failed to evaluate rule " +:+ rule_id rule +:+ ":") m]).
Proof.
  unfold evaluateRule.
  destruct (checkRuleCondition host rule ssot) as [[vs|m'] out]; simpl;
    intros Hm; by simplify_eq.
Qed.

Lemma evaluateRule_length rule ssot tick vs :
  (checkRuleCondition host rule ssot).1 = Ok vs ->
  length (evaluateRule host rule ssot tick).1 = length vs.
Proof.
  unfold evaluateRule.
  destruct (checkRuleCondition host rule ssot) as [[vs'|m'] out]; simpl;
    intros Hm; simplify_eq. by rewrite length_imap.
Qed.

(** No rules, no diagnostics. *)
Lemma evaluate_no_rules ssot :
  ev_diagnostics (evaluate host [] ssot).1 = [].
Proof. reflexivity. Qed.

Lemma evaluate_diagnostics rules ssot :
  ev_diagnostics (evaluate host rules ssot).1 =
  (evaluateRules host rules ssot 1).1.
Proof.
  unfold evaluate. by destruct (evaluateRules host rules ssot 1).
Qed.

Lemma evaluate_counts rules ssot :
  let ev := (evaluate host rules ssot).1 in
  ev_total_rules ev = Z.of_nat (length rules) /\
  ev_passed ev = (Z.of_nat (length rules)
                  - Z.of_nat (length (ev_diagnostics ev)))%Z /\
  ev_warned ev = count_severity WARN (ev_diagnostics ev) /\
  ev_failed ev = count_severity FAIL (ev_diagnostics ev) /\
  sum_quality_score (ev_summary ev) =
    calculateQualityScore (Z.of_nat (length rules)) (ev_failed ev)
                          (ev_warned ev).
Proof.
  unfold evaluate. by destruct (evaluateRules host rules ssot 1).
Qed.

End CriteriaFacts.

(** C5.  For every evaluation, [failed] and [warned] are the numbers of
    diagnostics (not of rules) of severity FAIL and WARN, and the quality
    score is [100 - (failed*10 + warned*2)] clamped to the range 0..100; the
    early return of [calculateQualityScore] for an empty rule list agrees
    with the formula, because no rules give no diagnostics.  With 10 rules,
    1 FAIL and 2 WARN diagnostics the score is 86. *)
Theorem quality_score_formula (host : JsHost) (rules : list CriteriaRule)
    (ssot : SSoT) :
  let ev := (evaluate host rules ssot).1 in
  ev_failed ev =
    Z.of_nat (length (filter (fun d => diag_severity d = FAIL)
                             (ev_diagnostics ev))) /\
  ev_warned ev =
    Z.of_nat (length (filter (fun d => diag_severity d = WARN)
                             (ev_diagnostics ev))) /\
  sum_quality_score (ev_summary ev) =
    Z.max 0 (Z.min 100 (100 - (ev_failed ev * 10 + ev_warned ev * 2))) /\
  calculateQualityScore 10 1 2 = 86%Z.
Proof.
  intros ev.
  destruct (evaluate_counts host rules ssot)
    as (Htotal & Hpassed & Hwarned & Hfailed & Hscore).
  fold ev in Htotal, Hpassed, Hwarned, Hfailed, Hscore.
  repeat split; try done.
  rewrite Hscore. unfold calculateQualityScore.
  destruct (Z.eqb_spec (Z.of_nat (length rules)) 0) as [Hzero|Hpos]; [|done].
  assert (rules = []) as -> by (destruct rules; [done | simpl in Hzero; lia]).
  rewrite Hfailed, Hwarned. subst ev. by rewrite evaluate_no_rules.
Qed.

(** C9.  For every evaluation, [passed] is the number of rules minus the
    number of diagnostics.  A rule can yield several diagnostics, and then
    [passed] can be smaller than the number of rules without a diagnostic:
    with one rule that reports two nodes and one rule that reports nothing,
    [passed] is 0 although one rule has no violation. *)
Theorem passed_is_rules_minus_diagnostics (host : JsHost) :
  (forall rules ssot,
     let ev := (evaluate host rules ssot).1 in
     ev_total_rules ev = Z.of_nat (length rules) /\
     ev_passed ev =
       (ev_total_rules ev - Z.of_nat (length (ev_diagnostics ev)))%Z) /\
  (exists rules ssot,
     let ev := (evaluate host rules ssot).1 in
     Exists (fun r => (1 < length (rule_diagnostics host ssot r))%nat) rules /\
     (ev_passed ev <
      Z.of_nat (length (filter
                (fun r => length (rule_diagnostics host ssot r) = 0%nat)
                rules)))%Z).
Proof.
  split.
  - intros rules ssot ev.
    destruct (evaluate_counts host rules ssot) as (Htotal & Hpassed & _).
    fold ev in Htotal, Hpassed. by rewrite Hpassed, Htotal.
  - exists [ Demo.mk_rule "no-needs" WARN "node" (Some (OneKind "Need"))
               (Demo.mk_condition "not_exists");
             Demo.mk_rule "some-requirement" FAIL "node"
               (Some (OneKind "Requirement")) (Demo.mk_condition "exists") ],
           Demo.graph.
    split.
    + apply Exists_cons_hd. vm_compute. lia.
    + vm_compute. done.
Qed.

Section ConnectedFacts.

Variable host : JsHost.

Lemma collect_violations_total (g : TargetNode -> option RuleViolation)
    (targets : list TargetNode) :
  collect_violations (fun t => Ok (g t)) targets = Ok (omap g targets).
Proof.
  induction targets as [|t ts IH]; [done|].
  simpl. rewrite IH. by destruct (g t).
Qed.

(** What [checkConnectedCondition] compares with: [condition.min || 1]. *)
Lemma checkConnectedCondition_reports target condition ssot rule connected :
  connectedEdges ssot (tn_id target) (cond_edge_kind condition)
    = Ok connected ->
  exists v,
    checkConnectedCondition target condition ssot rule = Ok v /\
    (is_Some v <->
     (Z.of_nat (length connected) < min_or_1 (cond_min condition))%Z).
Proof.
  intros Hconnected. unfold checkConnectedCondition. rewrite Hconnected.
  destruct (Z.ltb_spec (Z.of_nat (length connected))
                       (min_or_1 (cond_min condition))) as [Hlt|Hge].
  - eexists. split; [reflexivity|]. split; [done | intros _; eauto].
  - eexists. split; [reflexivity|]. split; [intros [? ?]; done | lia].
Qed.

(** What the index lookup throws is what [checkConnectedCondition]
    throws. *)
Lemma checkConnectedCondition_throws target condition ssot rule m :
  connectedEdges ssot (tn_id target) (cond_edge_kind condition) = Throw m ->
  checkConnectedCondition target condition ssot rule = Throw m.
Proof. intros Hthrow. unfold checkConnectedCondition. by rewrite Hthrow. Qed.

Lemma min_or_1_unset : min_or_1 None = 1%Z.
Proof. reflexivity. Qed.

Lemma min_or_1_nonzero n : n <> 0%Z -> min_or_1 (Some n) = n.
Proof. intros Hn. unfold min_or_1. by destruct (Z.eqb_spec n 0). Qed.

Lemma min_or_1_zero : min_or_1 (Some 0%Z) = 1%Z.
Proof. reflexivity. Qed.

(** A [connected] rule reports the targets for which
    [checkConnectedCondition] answers, in order, unless one of the checks
    throws. *)
Lemma checkRuleCondition_connected rule ssot :
  cond_type (rule_condition rule) = "connected" ->
  checkRuleCondition host rule ssot =
  (collect_violations
     (fun t => checkConnectedCondition t (rule_condition rule) ssot rule)
     (getTargets (rule_target rule) ssot), []).
Proof. intros Htype. unfold checkRuleCondition. by rewrite Htype. Qed.

(** With [min] explicitly 0, a target without a matching outgoing edge is
    still reported. *)
Lemma min_zero_still_counts_as_one target condition ssot rule :
  cond_min condition = Some 0%Z ->
  connectedEdges ssot (tn_id target) (cond_edge_kind condition) = Ok [] ->
  exists v, checkConnectedCondition target condition ssot rule = Ok (Some v).
Proof.
  intros Hmin Hnone.
  destruct (checkConnectedCondition_reports target condition ssot rule []
              Hnone) as (v & Hv & Hiff).
  rewrite Hmin in Hiff. destruct v as [v|]; [by exists v|].
  destruct (proj2 Hiff) as [? ?]; done.
Qed.

End ConnectedFacts.

(** C8, evaluated on the code.  The rule asks every Need for at least 0
    [refinesTo] edges.  Need N2 has none; the index lookup counts 0, the
    bound [condition.min || 1] is 1, and N2 is reported with
    ">=1 refinesTo edges" expected. *)
Theorem connected_min_zero_reports_N2 :
  (checkRuleCondition Demo.host
     (Demo.mk_rule "need-refined" FAIL "node" (Some (OneKind "Need"))
                   (Demo.connected_condition "refinesTo" (Some 0%Z)))
     Demo.graph).1 =
  Ok [ {| v_target_ref := Some "N2";
          v_target_kind := Some "Need";
          v_evidence_anchors := ["N2"];
          v_actual_value := Some (JNum 0);
          v_expected_value := Some (JStr ">=1 refinesTo edges") |} ].
Proof. vm_compute. reflexivity. Qed.

Lemma faulty_no_diagnostics host rule ssot tick :
  faulty host rule ssot -> (evaluateRule host rule ssot tick).1 = [].
Proof.
  intros [[m Hthrow] | Hun].
  - by rewrite (evaluateRule_throw host rule ssot tick m Hthrow).
  - unfold evaluateRule.
    by rewrite (checkRuleCondition_unrecognized host rule ssot Hun).
Qed.

Lemma custom_unrecognized : ~ recognized "custom".
Proof.
  unfold recognized. intros Hin.
  repeat (apply elem_of_cons in Hin as [Hin|Hin]; [discriminate Hin|]).
  by apply elem_of_nil in Hin.
Qed.

(** C6.  [evaluate] is a total function, so nothing is thrown to its caller.
    A rule whose condition check throws is logged with [console.error], a
    rule whose condition type is unrecognized ('custom' included) is logged
    with [console.warn]; either contributes no diagnostic, and the
    diagnostics of the run are those of the run without that rule: the rules
    before and after it produce what they produce on their own. *)
Theorem faulty_rule_is_isolated (host : JsHost) (rule : CriteriaRule)
    (ssot : SSoT) :
  faulty host rule ssot ->
  (forall tick, (evaluateRule host rule ssot tick).1 = []) /\
  (forall message tick,
     condition_throws host rule ssot message ->
     ConsoleError ("Failed to evaluate rule " +:+ rule_id rule +:+ ":") message
       ∈ (evaluateRule host rule ssot tick).2) /\
  (forall tick,
     ~ recognized (cond_type (rule_condition rule)) ->
     (evaluateRule host rule ssot tick).2 =
       [ConsoleWarn ("Unknown condition type: " +:+
                     cond_type (rule_condition rule))]) /\
  ~ recognized "custom" /\
  (forall before after,
     ev_diagnostics (evaluate host (before ++ rule :: after) ssot).1 =
     ev_diagnostics (evaluate host (before ++ after) ssot).1).
Proof.
  intros Hfaulty. repeat split.
  - intros tick. by apply faulty_no_diagnostics.
  - intros m tick Hthrow.
    rewrite (evaluateRule_throw host rule ssot tick m Hthrow). simpl.
    apply elem_of_app. right. apply list_elem_of_singleton. done.
  - intros tick Hun. unfold evaluateRule.
    by rewrite (checkRuleCondition_unrecognized host rule ssot Hun).
  - apply custom_unrecognized.
  - intros before after. rewrite !evaluate_diagnostics, !evaluateRules_app.
    f_equal. apply evaluateRules_skip. by apply faulty_no_diagnostics.
Qed.

(** An [attribute] rule without a [path] throws on the first target: a
    faulty rule between two rules that report. *)
Lemma faulty_rule_is_isolated_witness :
  let broken :=
    Demo.mk_rule "broken" FAIL "node" None (Demo.mk_condition "attribute") in
  let first :=
    Demo.mk_rule "no-needs" WARN "node" (Some (OneKind "Need"))
                 (Demo.mk_condition "not_exists") in
  let last :=
    Demo.mk_rule "some-actor" FAIL "node" (Some (OneKind "Actor"))
                 (Demo.mk_condition "exists") in
  faulty Demo.host broken Demo.graph /\
  length (ev_diagnostics
            (evaluate Demo.host [first; broken; last] Demo.graph).1) = 3%nat /\
  ev_diagnostics (evaluate Demo.host ([first] ++ broken :: [last]) Demo.graph).1 =
  ev_diagnostics (evaluate Demo.host ([first] ++ [last]) Demo.graph).1.
Proof.
  intros broken first last.
  assert (faulty Demo.host broken Demo.graph) as Hfaulty.
  { left. eexists. vm_compute. reflexivity. }
  split; [exact Hfaulty|]. split; [vm_compute; reflexivity|].
  exact (proj2 (proj2 (proj2 (proj2
           (faulty_rule_is_isolated Demo.host broken Demo.graph Hfaulty))))
           [first] [last]).
Defined.

(** C10.  A rule whose target type is 'graph' or 'attribute' has no targets,
    whatever the graph holds.  With an [exists] condition it yields exactly
    one diagnostic (observed 0), with [not_exists] none, and a [count]
    condition compares the count 0 with its bounds. *)
Theorem graph_and_attribute_targets_are_empty (host : JsHost)
    (rule : CriteriaRule) (ssot : SSoT) :
  target_type (rule_target rule) = "graph" \/
  target_type (rule_target rule) = "attribute" ->
  getTargets (rule_target rule) ssot = [] /\
  (cond_type (rule_condition rule) = "exists" ->
   forall tick, exists d,
     evaluateRule host rule ssot tick = ([d], []) /\
     diag_target_ref d = None /\
     dm_actual_value <$> diag_metadata d = Some (Some (JNum 0))) /\
  (cond_type (rule_condition rule) = "not_exists" ->
   forall tick, evaluateRule host rule ssot tick = ([], [])) /\
  (cond_type (rule_condition rule) = "count" ->
   checkRuleCondition host rule ssot =
   (Ok (if count_violated 0 (cond_min (rule_condition rule))
                            (cond_max (rule_condition rule))
        then [ {| v_target_ref := None;
                  v_target_kind := kind_label (target_kind (rule_target rule));
                  v_evidence_anchors := [];
                  v_actual_value := Some (JNum 0);
                  v_expected_value :=
                    Some (JStr (count_expected
                                  (cond_min (rule_condition rule))
                                  (cond_max (rule_condition rule)))) |} ]
        else []), [])).
Proof.
  intros Htype.
  assert (getTargets (rule_target rule) ssot = []) as Hnone.
  { unfold getTargets. by destruct Htype as [-> | ->]. }
  split; [exact Hnone|]. repeat split.
  - intros Hcond tick. unfold evaluateRule, checkRuleCondition.
    rewrite Hcond, Hnone. simpl. eexists. split; [reflexivity|]. done.
  - intros Hcond tick. unfold evaluateRule, checkRuleCondition.
    rewrite Hcond, Hnone. done.
  - intros Hcond. unfold checkRuleCondition. rewrite Hcond, Hnone. done.
Qed.

Lemma graph_and_attribute_targets_are_empty_witness :
  let rule := Demo.mk_rule "graph-wide" WARN "graph" (Some (OneKind "Need"))
                           (Demo.mk_condition "exists") in
  getTargets (rule_target rule) Demo.graph = [] /\
  length (evaluateRule Demo.host rule Demo.graph 1).1 = 1%nat.
Proof.
  intros rule.
  destruct (graph_and_attribute_targets_are_empty Demo.host rule Demo.graph)
    as (Hnone & Hexists & _); [by left|].
  split; [exact Hnone|].
  destruct (Hexists eq_refl 1%nat) as (d & Heval & _). by rewrite Heval.
Defined.

(** * Properties of the intent engine *)

(** ** The snapshot is an equal copy *)

Lemma json_copy_id : forall v, json_copy v = v.
Proof.
  fix IH 1. intros [ | b | n | s | items | fields]; simpl; try reflexivity.
  - f_equal. induction items as [|x xs IHxs]; simpl; [reflexivity|].
    by rewrite IH, IHxs.
  - f_equal. induction fields as [|[k x] fs IHfs]; simpl; [reflexivity|].
    by rewrite IH, IHfs.
Qed.

Lemma attrs_copy_id (a : Attrs) : attrs_copy a = a.
Proof.
  unfold attrs_copy. induction a as [|[k x] fs IH]; simpl; [reflexivity|].
  by rewrite json_copy_id, IH.
Qed.

Lemma node_copy_id n : node_copy n = n.
Proof. destruct n. unfold node_copy. simpl. by rewrite attrs_copy_id. Qed.

Lemma edge_copy_id e : edge_copy e = e.
Proof.
  destruct e as [f k t [a|] md]; unfold edge_copy; simpl;
    [by rewrite attrs_copy_id | reflexivity].
Qed.

Lemma edge_index_copy_id (m : gmap string (list Edge)) : edge_index_copy m = m.
Proof.
  unfold edge_index_copy. rewrite <- (map_fmap_id m) at 2.
  apply map_fmap_ext. intros k es _. simpl.
  rewrite <- (list_fmap_id es) at 2. apply list_fmap_ext.
  intros ? e _. apply edge_copy_id.
Qed.

Lemma ssot_copy_id s : ssot_copy s = s.
Proof.
  destruct s as [m ns es ix]. unfold ssot_copy. simpl. f_equal.
  - rewrite <- (list_fmap_id ns) at 2. apply list_fmap_ext.
    intros ? n _. apply node_copy_id.
  - rewrite <- (list_fmap_id es) at 2. apply list_fmap_ext.
    intros ? e _. apply edge_copy_id.
  - destruct ix as [[bk [inc|] [out|]]|]; simpl; unfold indexes_copy; simpl;
      by rewrite ?edge_index_copy_id.
Qed.

(** ** Running the monad *)

Lemma run_bind {A B} (m : Exec A) (f : A -> Exec B) st :
  (m ≫= f) st =
  match m st with
  | (Ok a, st') => f a st'
  | (Throw e, st') => (Throw e, st')
  end.
Proof. reflexivity. Qed.

Lemma run_bind_throw {A B} (m : Exec A) (f : A -> Exec B) st e st' :
  m st = (Throw e, st') -> (m ≫= f) st = (Throw e, st').
Proof. intros H. by rewrite run_bind, H. Qed.

Lemma run_bind_ok {A B} (m : Exec A) (f : A -> Exec B) st a st' :
  m st = (Ok a, st') -> (m ≫= f) st = f a st'.
Proof. intros H. by rewrite run_bind, H. Qed.

(** Unfold the operations of the monad and compute. *)
Ltac run_exec :=
  repeat (unfold mbind, mret, Exec_bind, Exec_ret, modify_ssot, rebuildIndexes,
            save, get_ssot, write_file, make_dir, throw, emit, push_node,
            push_edge, fresh_uuid, read_clock;
          simpl).

(** The reindexing, by its outcome. *)
Lemma rebuildIndexes_Ok st ix :
  build_indexes (st_ssot st) = Ok ix ->
  rebuildIndexes st =
  (Ok tt, {| st_ssot := set_indexes (Some ix) (st_ssot st);
             st_uuids := st_uuids st; st_dates := st_dates st;
             st_io := st_io st |}).
Proof. intros Hix. unfold rebuildIndexes. run_exec. by rewrite Hix. Qed.

Lemma rebuildIndexes_Throw st m :
  build_indexes (st_ssot st) = Throw m -> rebuildIndexes st = (Throw m, st).
Proof. intros Hix. unfold rebuildIndexes. run_exec. by rewrite Hix. Qed.

Section IntentFacts.

Variable schema : EffectiveSchema.
Variable catalog : IntentCatalog.
Variable options : IntentEngineOptions.
Variable env : ExecEnv.

Lemma validateIntent_with_metadata intent intentId timestamp s0 s :
  validateIntent schema catalog (with_metadata intent intentId timestamp s0) s =
  validateIntent schema catalog intent s.
Proof. unfold with_metadata. by destruct (intent_metadata intent). Qed.

(** An exception of the handler leaves the [try] block at once. *)
Lemma try_block_handler_throws handler intent intentId timestamp st0 m st :
  handler st0 = (Throw m, st) ->
  try_block options env handler intent intentId timestamp st0 = (Throw m, st).
Proof. intros H. unfold try_block. by apply run_bind_throw. Qed.

(** The [try] block up to the reindexing. *)
Lemma try_block_reindexed handler intent intentId timestamp st0 changes st ix :
  handler st0 = (Ok changes, st) ->
  build_indexes (set_last_updated timestamp (st_ssot st)) = Ok ix ->
  try_block options env handler intent intentId timestamp st0 =
  ((if default false (autoSave options) then save options env else mret tt);;
   (if history_enabled options
    then recordHistory options env intent intentId timestamp
    else mret tt);;
   mret changes) (finished timestamp ix st).
Proof.
  intros Hh Hix. unfold try_block. rewrite (run_bind_ok _ _ _ _ _ Hh).
  rewrite run_bind. cbn [modify_ssot].
  rewrite run_bind, (rebuildIndexes_Ok _ ix) by exact Hix. reflexivity.
Qed.

(** An exception of the reindexing leaves the [try] block with the mutation
    done and stamped. *)
Lemma try_block_reindex_throws handler intent intentId timestamp st0 changes st
    m :
  handler st0 = (Ok changes, st) ->
  build_indexes (set_last_updated timestamp (st_ssot st)) = Throw m ->
  try_block options env handler intent intentId timestamp st0 =
  (Throw m, stamped timestamp st).
Proof.
  intros Hh Hix. unfold try_block. rewrite (run_bind_ok _ _ _ _ _ Hh).
  rewrite run_bind. cbn [modify_ssot].
  rewrite run_bind, (rebuildIndexes_Throw _ m) by exact Hix. reflexivity.
Qed.

(** An exception of [save] leaves the [try] block with the mutation done. *)
Lemma try_block_save_throws handler intent intentId timestamp st0 changes st
    ix m :
  handler st0 = (Ok changes, st) ->
  build_indexes (set_last_updated timestamp (st_ssot st)) = Ok ix ->
  autoSave options = Some true ->
  fs_writeFile env (ssotPath options)
    (SsotDocument (st_ssot (finished timestamp ix st))) = Some m ->
  try_block options env handler intent intentId timestamp st0 =
  (Throw m, finished timestamp ix st).
Proof.
  intros Hh Hix Hauto Hfail.
  rewrite (try_block_reindexed _ _ _ _ _ _ _ _ Hh Hix), Hauto. simpl.
  run_exec. simpl in Hfail. rewrite Hfail. reflexivity.
Qed.

(** An exception while the history record is written leaves the [try] block
    after the document was saved. *)
Lemma try_block_history_throws handler intent intentId timestamp st0 changes st
    ix dir m :
  handler st0 = (Ok changes, st) ->
  build_indexes (set_last_updated timestamp (st_ssot st)) = Ok ix ->
  autoSave options = Some true ->
  fs_writeFile env (ssotPath options)
    (SsotDocument (st_ssot (finished timestamp ix st))) = None ->
  historyDir options = Some dir -> truthy_string dir = true ->
  fs_mkdir env dir = Some m ->
  try_block options env handler intent intentId timestamp st0 =
  (Throw m,
   {| st_ssot := st_ssot (finished timestamp ix st);
      st_uuids := st_uuids st; st_dates := st_dates st;
      st_io := st_io st ++
               [WroteFile (ssotPath options)
                          (SsotDocument
                             (st_ssot (finished timestamp ix st)))] |}).
Proof.
  intros Hh Hix Hauto Hsave Hdir Htruthy Hfail.
  rewrite (try_block_reindexed _ _ _ _ _ _ _ _ Hh Hix), Hauto. simpl.
  unfold history_enabled, recordHistory, history_enabled. rewrite Hdir. simpl.
  rewrite Htruthy. simpl.
  run_exec. simpl in Hsave. rewrite Hsave. run_exec. rewrite Hfail.
  reflexivity.
Qed.

End IntentFacts.



(** The file written by [save] is not part of what is rolled back: when the
    history record cannot be written, the saved document already holds the
    new node. *)
Lemma saved_document_is_not_rolled_back :
  let env :=
    {| uuidv4 := uuidv4 Demo.working_env; now := now Demo.working_env;
       fs_writeFile := fs_writeFile Demo.working_env;
       fs_mkdir := fun _ => Some "EACCES: permission denied, mkdir";
       path_join := path_join Demo.working_env;
       applyPatch := applyPatch Demo.working_env |} in
  exists r doc,
    execute Demo.schema Demo.catalog Demo.autosaving env
      (Demo.mk_intent "I.AddNode" [("kind", JStr "Need")]) Demo.graph =
    Some (Ok r, Demo.graph,
          [WroteFile "state/ssot.json" (SsotDocument doc)]) /\
    res_success r = false /\
    length (nodes doc) = 4%nat.
Proof. intros env. eexists _, _. vm_compute. done. Qed.

(** ** Validation *)

Lemma nodeExists_false s v :
  nodeExists s v = false <-> forall n, n ∈ nodes s -> JStr (node_id n) <> v.
Proof.
  unfold nodeExists. destruct v; try (split; [intros _ ? _; discriminate | done]).
  rewrite bool_decide_eq_false, Exists_exists. split.
  - intros Hno n Hin Heq. apply Hno. exists n. split; [done|]. congruence.
  - intros Hno (n & Hin & Heq). apply (Hno n Hin). by rewrite Heq.
Qed.

Lemma includes_value_false l v :
  includes_value l v = false <-> forall k, k ∈ l -> JStr k <> v.
Proof.
  unfold includes_value.
  destruct v; try (split; [intros _ ? _; discriminate | done]).
  rewrite bool_decide_eq_false. split.
  - intros Hno k Hin Heq. apply Hno. congruence.
  - intros Hno Hin. by apply (Hno s Hin).
Qed.

(** Walk to the first error that is present in a concatenation. *)
Ltac find_error :=
  repeat first [ apply list_elem_of_here | apply elem_of_app; right ].

Lemma present_nullish value : is_nullish value = false <-> present value.
Proof.
  unfold present. destruct value as [[]| |]; simpl; split; try done;
    intros [? ?]; done.
Qed.

Lemma not_present_nullish value : is_nullish value = true <-> ~ present value.
Proof.
  rewrite <- present_nullish. by destruct (is_nullish value).
Qed.

Lemma member_nodeExists_false s value :
  member_nodeExists s value = false <->
  forall n, n ∈ nodes s -> value <> OwnValue (JStr (node_id n)).
Proof.
  destruct value as [v| |]; simpl; try (split; [intros _ ? _ | ]; done).
  rewrite nodeExists_false. split.
  - intros Hno n Hin [= ->]. by apply (Hno n Hin).
  - intros Hno n Hin Heq. apply (Hno n Hin). by rewrite Heq.
Qed.

Lemma member_includes_false l value :
  member_includes l value = false <->
  forall k, k ∈ l -> value <> OwnValue (JStr k).
Proof.
  destruct value as [v| |]; simpl; try (split; [intros _ ? _ | ]; done).
  rewrite includes_value_false. split.
  - intros Hno k Hin [= ->]. by apply (Hno k Hin).
  - intros Hno k Hin Heq. apply (Hno k Hin). by rewrite Heq.
Qed.

Section ValidationFacts.

Variable schema : EffectiveSchema.
Variable catalog : IntentCatalog.

Lemma validateParameter_complete s params paramName paramDef code :
  applicable schema s params paramName paramDef code ->
  exists e, e ∈ validateParameter schema s params (paramName, paramDef) /\
            err_code e = code /\ err_field e = Some paramName.
Proof.
  intros Happ. unfold validateParameter.
  destruct Happ as [Hreq Hnull | Hpresent Hty Hno | Hpresent Hty Hno
                    | Hpresent Hty Hno].
  - apply not_present_nullish in Hnull. rewrite Hreq, Hnull. simpl.
    eexists. split; [apply list_elem_of_here | done].
  - apply present_nullish in Hpresent. apply member_nodeExists_false in Hno.
    rewrite Hpresent, Hty, Hno, andb_false_r. simpl.
    eexists. split; [find_error | done].
  - apply present_nullish in Hpresent. apply member_includes_false in Hno.
    rewrite Hpresent, Hty, Hno, andb_false_r. simpl.
    eexists. split; [find_error | done].
  - apply present_nullish in Hpresent. apply member_includes_false in Hno.
    rewrite Hpresent, Hty, Hno, andb_false_r. simpl.
    eexists. split; [find_error | done].
Qed.

(** Conversely, validation reports nothing that does not apply. *)
Lemma validateParameter_sound s params paramName paramDef e :
  e ∈ validateParameter schema s params (paramName, paramDef) ->
  applicable schema s params paramName paramDef (err_code e) /\
  err_field e = Some paramName.
Proof.
  unfold validateParameter. intros He.
  apply elem_of_app in He as [He|He].
  - destruct (param_required paramDef) eqn:Hreq; simpl in He;
      [|by apply elem_of_nil in He].
    destruct (is_nullish (get_member paramName params)) eqn:Hnull;
      [|by apply elem_of_nil in He].
    apply list_elem_of_singleton in He as ->. simpl. split; [|done].
    apply applicable_missing; [done|]. by apply not_present_nullish.
  - destruct (is_nullish (get_member paramName params)) eqn:Hnull;
      [by apply elem_of_nil in He|].
    apply present_nullish in Hnull. rewrite !elem_of_app in He.
    destruct He as [He | [He | He]];
      match type of He with
      | _ ∈ (if ?c then _ else _) =>
          destruct c eqn:Hc; [|by apply elem_of_nil in He]
      end;
      apply list_elem_of_singleton in He as ->;
      apply andb_true_iff in Hc as [Hty Hno];
      apply bool_decide_eq_true in Hty; apply negb_true_iff in Hno;
      (split; [|done]); simpl.
    + apply applicable_node_ref; [done | done |].
      by apply member_nodeExists_false.
    + apply applicable_node_kind; [done | done |].
      by apply member_includes_false.
    + apply applicable_edge_kind; [done | done |].
      by apply member_includes_false.
Qed.

Lemma validateIntent_unknown intent s :
  (forall intentDef, intentDef ∈ catalog_intents catalog ->
                     idef_id intentDef <> intent_type intent) ->
  validateIntent schema catalog intent s =
  Ok [ {| err_code := "UNKNOWN_INTENT";
          err_message := "Intent type '" +:+ intent_type intent +:+
                         "' not found in catalog";
          err_field := None |} ].
Proof.
  intros Hno. unfold validateIntent.
  destruct (List.find _ (catalog_intents catalog)) as [d|] eqn:Hfind; [|done].
  apply List.find_some in Hfind as [Hin Hid].
  apply bool_decide_eq_true in Hid. apply list_elem_of_In in Hin.
  by destruct (Hno d Hin).
Qed.

(** On a payload that is an object, validation throws nothing and collects
    the errors of the declared parameters in their order. *)
Lemma validateIntent_Params intent s intentDef entries params :
  List.find (fun i => bool_decide (idef_id i = intent_type intent))
            (catalog_intents catalog) = Some intentDef ->
  idef_parameters intentDef = Some entries ->
  intent_params intent = PayloadObject params ->
  validateIntent schema catalog intent s =
  Ok (mjoin (validateParameter schema s params <$> entries)).
Proof.
  intros Hfind Hentries Hparams. unfold validateIntent.
  rewrite Hfind, Hentries, Hparams. by destruct entries as [|[? ?] ?].
Qed.

Lemma validateIntent_complete intent s intentDef entries params paramName
    paramDef code :
  List.find (fun i => bool_decide (idef_id i = intent_type intent))
            (catalog_intents catalog) = Some intentDef ->
  idef_parameters intentDef = Some entries ->
  intent_params intent = PayloadObject params ->
  (paramName, paramDef) ∈ entries ->
  applicable schema s params paramName paramDef code ->
  exists errors e,
    validateIntent schema catalog intent s = Ok errors /\
    e ∈ errors /\ err_code e = code /\ err_field e = Some paramName.
Proof.
  intros Hfind Hentries Hparams Hin Happ.
  rewrite (validateIntent_Params _ _ _ _ _ Hfind Hentries Hparams).
  destruct (validateParameter_complete s _ _ _ _ Happ) as (e & He & Hcode & Hf).
  eexists _, e. split; [reflexivity|]. split; [|done].
  apply list_elem_of_join. eexists. split; [exact He|].
  apply list_elem_of_fmap. by exists (paramName, paramDef).
Qed.

(** When validation throws: the catalog entry has no [parameters], or it
    declares a parameter and the payload is [null] or [undefined]. *)
Lemma validateIntent_throws intent s m :
  validateIntent schema catalog intent s = Throw m <->
  exists intentDef,
    List.find (fun i => bool_decide (idef_id i = intent_type intent))
              (catalog_intents catalog) = Some intentDef /\
    ((idef_parameters intentDef = None /\
      m = "Cannot convert undefined or null to object") \/
     (exists paramName paramDef rest,
        idef_parameters intentDef = Some ((paramName, paramDef) :: rest) /\
        ((intent_params intent = PayloadNull /\
          m = cannot_read "null" paramName) \/
         (intent_params intent = PayloadUndefined /\
          m = cannot_read "undefined" paramName)))).
Proof.
  unfold validateIntent.
  destruct (List.find _ (catalog_intents catalog)) as [d|];
    [|split; [done | intros (? & ? & _); done]].
  destruct (idef_parameters d) as [[|[paramName paramDef] rest]|] eqn:Hp.
  - split; [done|].
    intros (d' & [= <-] & [[Hn _] | (? & ? & ? & Hs & _)]); congruence.
  - destruct (intent_params intent) as [params| |] eqn:Hpar.
    + split; [done|].
      intros (d' & [= <-] & [[? _] | (? & ? & ? & _ & [[? _] | [? _]])]);
        congruence.
    + split.
      * intros [= <-]. exists d. split; [done|]. right.
        exists paramName, paramDef, rest. split; [done|]. by left.
      * intros (d' & [= <-] & [[? _] | (? & ? & ? & Hs & H)]); [congruence|].
        rewrite Hp in Hs. injection Hs as <- <- <-.
        destruct H as [[_ ->] | [? _]]; [done | congruence].
    + split.
      * intros [= <-]. exists d. split; [done|]. right.
        exists paramName, paramDef, rest. split; [done|]. by right.
      * intros (d' & [= <-] & [[? _] | (? & ? & ? & Hs & H)]); [congruence|].
        rewrite Hp in Hs. injection Hs as <- <- <-.
        destruct H as [[? _] | [_ ->]]; [congruence | done].
  - split.
    + intros [= <-]. exists d. split; [done|]. by left.
    + intros (d' & [= <-] & [[_ ->] | (? & ? & ? & ? & _)]);
        [done | congruence].
Qed.

End ValidationFacts.

(** When validation yields at least one error, [execute] answers
    success = false with exactly the list that validation collected and
    without a rollback field, the engine holds the same SSoT (meta, nodes,
    edges, indexes) as before, and no file was touched.  For an intent type
    absent from the catalog the list is the single UNKNOWN_INTENT error;
    otherwise it holds every error that applies to a declared parameter,
    given what reading the parameter from the payload yields. *)
Lemma execute_stopped_by_validation (schema : EffectiveSchema)
    (catalog : IntentCatalog) (options : IntentEngineOptions) (env : ExecEnv)
    (intent : Intent) (s : SSoT) (errors : list ValidationError) :
  validateIntent schema catalog intent s = Ok errors ->
  errors <> [] ->
  execute schema catalog options env intent s =
    Some (Ok {| res_success := false;
                res_intent_id := uuidv4 env 0;
                res_changes := None;
                res_errors := Some errors;
                res_rollback := None |}, s, []) /\
  ((forall intentDef, intentDef ∈ catalog_intents catalog ->
                      idef_id intentDef <> intent_type intent) ->
   exists message,
     errors = [ {| err_code := "UNKNOWN_INTENT"; err_message := message;
                   err_field := None |} ]) /\
  (forall intentDef entries params paramName paramDef code,
     List.find (fun i => bool_decide (idef_id i = intent_type intent))
               (catalog_intents catalog) = Some intentDef ->
     idef_parameters intentDef = Some entries ->
     intent_params intent = PayloadObject params ->
     (paramName, paramDef) ∈ entries ->
     applicable schema s params paramName paramDef code ->
     exists e, e ∈ errors /\ err_code e = code /\ err_field e = Some paramName).
Proof.
  intros Hvalid Herr. repeat split.
  - unfold execute. rewrite validateIntent_with_metadata, Hvalid.
    destruct errors; [done|]. reflexivity.
  - intros Hno. rewrite (validateIntent_unknown schema catalog intent s Hno)
      in Hvalid. injection Hvalid as <-. by eexists.
  - intros intentDef entries params paramName paramDef code Hfind Hentries
      Hparams Hin Happ.
    destruct (validateIntent_complete schema catalog intent s intentDef entries
                params paramName paramDef code Hfind Hentries Hparams Hin Happ)
      as (errors' & e & Hvalid' & He).
    rewrite Hvalid in Hvalid'. injection Hvalid' as <-. by exists e.
Qed.

(** An AddEdge intent with an unknown source, an unknown edge kind and no
    target: three errors, one per parameter. *)
Example execute_stopped_by_validation_AddEdge :
  let intent :=
    Demo.mk_intent "I.AddEdge"
                   [("from_ref", JStr "R9"); ("edge_kind", JStr "zzz")] in
  exists errors,
    validateIntent Demo.schema Demo.catalog intent Demo.graph = Ok errors /\
    (err_code <$> errors) =
      ["INVALID_NODE_REF"; "INVALID_EDGE_KIND"; "MISSING_PARAMETER"] /\
    execute Demo.schema Demo.catalog Demo.autosaving Demo.working_env intent
            Demo.graph =
    Some (Ok (validation_failure "uuid-0" errors), Demo.graph, []).
Proof. intros intent. eexists. vm_compute. done. Qed.

(** C2, evaluated on the code.  The catalog declares for I.AddNode, besides
    [kind], a required parameter that the intent does not carry.  When the
    parameter is called "owner", validation reports it: together with the
    error about an unknown kind, or alone.  When it is called "constructor",
    the read [params["constructor"]] answers the function that every plain
    object inherits, which is neither [undefined] nor [null], and the
    missing parameter is not reported: with an unknown kind the list holds
    the error about the kind only, and with a known kind validation passes,
    [execute] goes on to the handler and answers success, and the graph has
    one node more. *)
Theorem validation_misses_inherited_parameter :
  let run name kind :=
    execute Demo.schema (Demo.requiring name) Demo.in_memory Demo.working_env
            (Demo.mk_intent "I.AddNode" [("kind", JStr kind)]) Demo.graph in
  let unknown_kind :=
    {| err_code := "INVALID_NODE_KIND";
       err_message := "Node kind 'Bogus' not in schema";
       err_field := Some "kind" |} in
  let missing name :=
    {| err_code := "MISSING_PARAMETER";
       err_message := "Required parameter '" +:+ name +:+ "' is missing";
       err_field := Some name |} in
  run "owner" "Bogus" =
    Some (Ok (validation_failure "uuid-0" [unknown_kind; missing "owner"]),
          Demo.graph, []) /\
  run "constructor" "Bogus" =
    Some (Ok (validation_failure "uuid-0" [unknown_kind]), Demo.graph, []) /\
  run "owner" "Need" =
    Some (Ok (validation_failure "uuid-0" [missing "owner"]),
          Demo.graph, []) /\
  validateIntent Demo.schema (Demo.requiring "constructor")
    (Demo.mk_intent "I.AddNode" [("kind", JStr "Need")]) Demo.graph = Ok [] /\
  (exists r s',
     run "constructor" "Need" = Some (Ok r, s', []) /\
     res_success r = true /\ res_errors r = None /\
     length (nodes s') = S (length (nodes Demo.graph))).
Proof.
  intros run unknown_kind missing.
  do 4 (split; [vm_compute; reflexivity|]).
  subst run. cbv beta.
  destruct (execute Demo.schema (Demo.requiring "constructor")
              Demo.in_memory Demo.working_env
              (Demo.mk_intent "I.AddNode" [("kind", JStr "Need")])
              Demo.graph)
    as [[[[r|m] s'] io]|] eqn:Hrun;
    vm_compute in Hrun; try discriminate Hrun.
  injection Hrun as <- <- <-. eexists _, _.
  split; [reflexivity|]. split; [reflexivity|]. split; reflexivity.
Qed.

(** ** Intent types without a handler *)

Section UnhandledFacts.

Variable schema : EffectiveSchema.
Variable catalog : IntentCatalog.
Variable options : IntentEngineOptions.
Variable env : ExecEnv.


Lemma with_metadata_type intent intentId timestamp s :
  intent_type (with_metadata intent intentId timestamp s) = intent_type intent.
Proof. unfold with_metadata. by destruct (intent_metadata intent). Qed.


Lemma execute_invalid intent s errors :
  validateIntent schema catalog intent s = Ok errors ->
  errors <> [] ->
  execute schema catalog options env intent s =
  Some (Ok (validation_failure (uuidv4 env 0) errors), s, []).
Proof.
  intros Hvalid Hinvalid. unfold execute.
  rewrite validateIntent_with_metadata, Hvalid. by destruct errors.
Qed.

(** What validation throws leaves [execute]: validation runs before the
    [try] block. *)
Lemma execute_validation_throws intent s m :
  validateIntent schema catalog intent s = Throw m ->
  execute schema catalog options env intent s = Some (Throw m, s, []).
Proof.
  intros Hvalid. unfold execute.
  by rewrite validateIntent_with_metadata, Hvalid.
Qed.

End UnhandledFacts.



(** An I.ToggleEdge intent, which has no handler either, is stopped by
    validation when it lacks its required parameters, and then never
    reaches the dispatch. *)
Example ToggleEdge_stopped_by_validation :
  exists res,
    execute Demo.schema Demo.catalog Demo.in_memory Demo.working_env
            (Demo.mk_intent "I.ToggleEdge" []) Demo.graph =
    Some (Ok res, Demo.graph, []) /\
    ((fun errors : list ValidationError => err_code <$> errors)
       <$> res_errors res) =
      Some ["MISSING_PARAMETER"; "MISSING_PARAMETER"; "MISSING_PARAMETER"] /\
    res_rollback res = None.
Proof. eexists. vm_compute. done. Qed.

(** ** The handlers *)

Lemma findNode_None s id :
  findNode s id = None <-> forall n, n ∈ nodes s -> node_id n <> id.
Proof.
  unfold findNode. rewrite fmap_None, list_find_None, Forall_forall. done.
Qed.

Lemma findNode_Some s id n :
  findNode s id = Some n -> n ∈ nodes s /\ node_id n = id.
Proof.
  unfold findNode. intros Hfind. apply fmap_Some in Hfind as ([i x] & Hf & ->).
  apply list_find_Some in Hf as (Hlook & Hid & _).
  split; [by eapply list_elem_of_lookup_2 | done].
Qed.



(** An edge kind named like a member of [Object.prototype] and absent from
    the schema: the lookup finds the inherited member, the check for a
    missing definition passes, and the read of its [from] throws. *)
Example addEdge_inherited_kind :
  let params := {| ae_from_ref := "N2"; ae_edge_kind := "constructor";
                   ae_to_ref := "R1"; ae_attrs := None |} in
  addEdge Demo.schema Demo.working_env params "i1" (start_state Demo.graph) =
  (Throw "Cannot read properties of undefined (reading 'includes')",
   start_state Demo.graph).
Proof. vm_compute. reflexivity. Qed.

Lemma untouched_filter ref (es : list Edge) :
  filter (fun e => edge_from e <> ref /\ edge_to e <> ref) es =
  filter (fun e => ~ touches ref e) es.
Proof. apply list_filter_iff. intros e. unfold touches. tauto. Qed.

Lemma touching_count ref (es : list Edge) :
  (length (filter (fun e => ~ touches ref e) es)
   + length (filter (touches ref) es) = length es)%nat.
Proof.
  rewrite <- (Permutation_length (filter_app_complement (touches ref) es)).
  rewrite length_app. lia.
Qed.

(** C4.  Let the node [node_ref] exist and let [n > 0] edges have it as
    source or target.  Without [cascade], [deleteNode] throws an error that
    reports [n] and leaves the state as it was.  With [cascade], it removes
    the node (the first one with that id) and leaves exactly the edges that
    do not touch it, which are [n] fewer, changes nothing else, and reports
    [edges_deleted = n]. *)
Theorem deleteNode_cascade (params : DeleteNodeParams) (intentId : string)
    (st : ExecState) :
  let s := st_ssot st in
  let ref := dn_node_ref params in
  let n := length (filter (touches ref) (edges s)) in
  (exists node, node ∈ nodes s /\ node_id node = ref) ->
  (0 < n)%nat ->
  (cascade_set params = false ->
   deleteNode params intentId st =
   (Throw ("Node '" +:+ ref +:+ "' has " +:+ pretty n +:+
           " connected edges. Use cascade=true to delete them."), st)) /\
  (cascade_set params = true ->
   exists i node st',
     nodes s !! i = Some node /\ node_id node = ref /\
     (forall j other, nodes s !! j = Some other -> (j < i)%nat ->
                      node_id other <> ref) /\
     deleteNode params intentId st =
       (Ok [ {| change_type := node_deleted;
                change_target := ref;
                change_details :=
                  Some (DeleteDetails (dn_cascade params) (Z.of_nat n)) |} ],
        st') /\
     nodes (st_ssot st') = delete i (nodes s) /\
     edges (st_ssot st') = filter (fun e => ~ touches ref e) (edges s) /\
     (forall e, e ∈ edges (st_ssot st') <-> e ∈ edges s /\ ~ touches ref e) /\
     (length (edges (st_ssot st')) + n = length (edges s))%nat /\
     meta (st_ssot st') = meta s /\
     indexes (st_ssot st') = indexes s).
Proof.
  intros s ref n (node & Hin & Hid) Hn.
  destruct (list_find_elem_of (fun x => node_id x = ref) (nodes s) node Hin Hid)
    as [[i first] Hfind].
  unfold deleteNode. run_exec. fold s ref. rewrite Hfind. fold n.
  rewrite (bool_decide_eq_true_2 _ Hn). split.
  - intros ->. reflexivity.
  - intros ->. simpl.
    apply list_find_Some in Hfind as (Hlook & Hfirst & Hbefore).
    exists i, first. eexists. split; [exact Hlook|]. split; [exact Hfirst|].
    split; [exact Hbefore|]. split; [reflexivity|]. simpl.
    rewrite untouched_filter. fold s.
    split; [reflexivity|]. split; [reflexivity|]. split; [|split; [|done]].
    + intros e. rewrite list_elem_of_filter. tauto.
    + apply touching_count.
Qed.

(** N1 has one edge, N1 -> R1.  Without cascade nothing is deleted; with
    cascade N1 and that edge go. *)
Lemma deleteNode_cascade_witness :
  let st := start_state Demo.graph in
  deleteNode {| dn_node_ref := "N1"; dn_cascade := None |} "i1" st =
    (Throw "Node 'N1' has 1 connected edges. Use cascade=true to delete them.",
     st) /\
  exists st',
    (deleteNode {| dn_node_ref := "N1"; dn_cascade := Some true |} "i1" st).2
      = st' /\
    (node_id <$> nodes (st_ssot st')) = ["N2"; "R1"] /\
    edges (st_ssot st') = [].
Proof.
  intros st.
  assert (exists node, node ∈ nodes (st_ssot st) /\ node_id node = "N1") as Hex.
  { exists (Demo.mk_node "N1" "Need"). split; [apply list_elem_of_here | done]. }
  split.
  - refine (proj1 (deleteNode_cascade {| dn_node_ref := "N1";
                                         dn_cascade := None |} "i1" st Hex _)
                  _); [vm_compute; lia | reflexivity].
  - destruct (proj2 (deleteNode_cascade {| dn_node_ref := "N1";
                                           dn_cascade := Some true |} "i1" st
                                        Hex ltac:(vm_compute; lia))
                    eq_refl)
      as (i & node & st' & _ & _ & _ & Hrun & _).
    exists st'. rewrite Hrun. split; [reflexivity|].
    apply (f_equal snd) in Hrun. simpl in Hrun. subst st'.
    vm_compute. done.
Defined.

(** ** The handlers seen through [execute] *)

Section ThroughExecute.

Variable schema : EffectiveSchema.
Variable catalog : IntentCatalog.
Variable options : IntentEngineOptions.
Variable env : ExecEnv.

(** Without autosave and history, the [try] block is the handler followed by
    the time stamp and the reindexing. *)
Lemma try_block_in_memory handler intent intentId timestamp st0 :
  default false (autoSave options) = false ->
  history_enabled options = false ->
  try_block options env handler intent intentId timestamp st0 =
  match handler st0 with
  | (Ok changes, st) =>
      match build_indexes (set_last_updated timestamp (st_ssot st)) with
      | Ok ix => (Ok changes, finished timestamp ix st)
      | Throw m => (Throw m, stamped timestamp st)
      end
  | (Throw m, st) => (Throw m, st)
  end.
Proof.
  intros Hauto Hhist.
  destruct (handler st0) as [[changes|m] st] eqn:Hh;
    [|by apply try_block_handler_throws].
  destruct (build_indexes (set_last_updated timestamp (st_ssot st)))
    as [ix|m] eqn:Hix.
  - rewrite (try_block_reindexed options env _ _ _ _ _ _ _ _ Hh Hix).
    by rewrite Hauto, Hhist.
  - by apply (try_block_reindex_throws options env _ _ _ _ _ changes).
Qed.

(** A [try] block that runs to its end makes [execute] succeed with the
    handler's change records. *)
Lemma execute_success intent s handler changes st :
  let intentId := uuidv4 env 0 in
  let timestamp := now env 0 in
  let intent' := with_metadata intent intentId timestamp s in
  validateIntent schema catalog intent' s = Ok [] ->
  executeIntentType schema env intent' = Some handler ->
  try_block options env handler intent' intentId timestamp (start_state s)
    = (Ok changes, st) ->
  execute schema catalog options env intent s =
  Some (Ok (execution_success intentId changes), st_ssot st, st_io st).
Proof.
  intros intentId timestamp intent' Hvalid Hdispatch Hok.
  unfold execute. fold intentId timestamp intent'.
  rewrite Hvalid. simpl. rewrite Hdispatch. simpl. by rewrite Hok.
Qed.

(** [execute] answers whenever validation stops the intent or the dispatch
    finds the payload to be of the handler's parameter type. *)
Lemma execute_is_Some intent s :
  is_Some (execute schema catalog options env intent s) <->
  validateIntent schema catalog intent s <> Ok [] \/
  is_Some (executeIntentType schema env
             (with_metadata intent (uuidv4 env 0) (now env 0) s)).
Proof.
  unfold execute. rewrite validateIntent_with_metadata.
  destruct (validateIntent schema catalog intent s) as [[|e errs]|m]; simpl.
  - destruct (executeIntentType schema env _) as [handler|]; simpl.
    + destruct (try_block options env handler _ _ _ _) as [[changes|m] st];
        split; eauto.
    + split; [intros [? ?]; done | intros [? | [? ?]]; done].
  - split; [intros _; by left | eauto].
  - split; [intros _; by left | eauto].
Qed.

End ThroughExecute.

(** Joining N2 to R1 through [execute]: one more edge, one change record,
    the time stamp set and the indexes rebuilt. *)
Example execute_addEdge :
  exists r s',
    execute Demo.schema Demo.catalog Demo.in_memory Demo.working_env
      (Demo.mk_intent "I.AddEdge"
         [("from_ref", JStr "N2"); ("edge_kind", JStr "refinesTo");
          ("to_ref", JStr "R1")]) Demo.graph = Some (Ok r, s', []) /\
    res_success r = true /\
    (change_type <$> default [] (res_changes r)) = [edge_added] /\
    (edge_ref <$> edges s') = ["N1->refinesTo->R1"; "N2->refinesTo->R1"] /\
    nodes s' = nodes Demo.graph /\
    meta_last_updated (meta s') = "2025-01-01T00:00:00Z" /\
    indexed s'.
Proof.
  eexists _, _. split; [vm_compute; reflexivity|].
  do 5 (split; [vm_compute; reflexivity|]).
  eexists. split; vm_compute; reflexivity.
Qed.

(** The same intent from a Requirement is refused and the graph is kept. *)
Example execute_addEdge_refused :
  execute Demo.schema Demo.catalog Demo.in_memory Demo.working_env
    (Demo.mk_intent "I.AddEdge"
       [("from_ref", JStr "R1"); ("edge_kind", JStr "refinesTo");
        ("to_ref", JStr "R1")]) Demo.graph =
  Some (Ok (execution_failure "uuid-0"
              "Edge 'refinesTo' cannot start from 'Requirement'" Demo.graph),
        Demo.graph, []).
Proof. vm_compute. reflexivity. Qed.

(** Deleting N1 through [execute], without and with cascade. *)
Example execute_deleteNode :
  execute Demo.schema Demo.catalog Demo.in_memory Demo.working_env
    (Demo.mk_intent "I.DeleteNode" [("node_ref", JStr "N1")]) Demo.graph =
  Some (Ok (execution_failure "uuid-0"
              "Node 'N1' has 1 connected edges. Use cascade=true to delete them."
              Demo.graph), Demo.graph, []) /\
  exists r s',
    execute Demo.schema Demo.catalog Demo.in_memory Demo.working_env
      (Demo.mk_intent "I.DeleteNode"
         [("node_ref", JStr "N1"); ("cascade", JBool true)]) Demo.graph =
    Some (Ok r, s', []) /\
    res_changes r =
      Some [ {| change_type := node_deleted; change_target := "N1";
                change_details := Some (DeleteDetails (Some true) 1) |} ] /\
    (node_id <$> nodes s') = ["N2"; "R1"] /\ edges s' = [].
Proof. split; [vm_compute; reflexivity|]. eexists _, _. vm_compute. done. Qed.

(** Ten rules, of which one FAIL rule reports one node and one WARN rule
    reports two: the score of the evaluation is 86. *)
Example evaluate_score_86 :
  let clean k :=
    Demo.mk_rule ("clean-" +:+ pretty k) FAIL "node"
                 (Some (OneKind "Requirement")) (Demo.mk_condition "exists") in
  let rules :=
    Demo.mk_rule "refined" FAIL "node" (Some (OneKind "Need"))
                 (Demo.connected_condition "refinesTo" None)
    :: Demo.mk_rule "no-needs" WARN "node" (Some (OneKind "Need"))
                    (Demo.mk_condition "not_exists")
    :: (clean <$> seq 0 8) in
  let ev := (evaluate Demo.host rules Demo.graph).1 in
  ev_total_rules ev = 10%Z /\ ev_failed ev = 1%Z /\ ev_warned ev = 2%Z /\
  ev_passed ev = 7%Z /\ sum_quality_score (ev_summary ev) = 86%Z.
Proof. vm_compute. done. Qed.

(** * Further properties of the intent engine *)

(** ** The indexes *)

Lemma index_push_Ok {A} name key (x : A) (index index' : gmap string (list A)) :
  index_push name key x index = Ok index' ->
  index' = <[key := default [] (index !! key) ++ [x]]> index /\
  (index !! key = None -> inherited key = false).
Proof.
  unfold index_push. destruct (index !! key) as [entries|].
  - intros [= <-]. by split.
  - destruct (inherited key); [done|]. intros [= <-]. by split.
Qed.

Lemma index_push_plain {A} name key (x : A) (index : gmap string (list A)) :
  inherited key = false ->
  index_push name key x index =
  Ok (<[key := default [] (index !! key) ++ [x]]> index).
Proof.
  intros Hkey. unfold index_push. rewrite Hkey. by destruct (index !! key).
Qed.

Lemma index_all_lookup {A B} name (key : A -> string) (val : A -> B)
    (l : list A) (index index' : gmap string (list B)) (k : string) :
  index_all name key val l index = Ok index' ->
  index' !! k =
  match index !! k with
  | Some old => Some (old ++ (val <$> filter (fun x => key x = k) l))
  | None => index_entry (val <$> filter (fun x => key x = k) l)
  end.
Proof.
  revert index. induction l as [|x l IH]; intros index.
  - simpl. intros [= <-]. destruct (index !! k); [by rewrite app_nil_r | done].
  - simpl. destruct (index_push name (key x) (val x) index) as [index1|m]
      eqn:Hpush; [|done].
    apply index_push_Ok in Hpush as [-> _]. intros Hrest.
    rewrite (IH _ Hrest).
    destruct (decide (key x = k)) as [Heq|Hne].
    + rewrite Heq, lookup_insert_eq, filter_cons_True by done.
      rewrite fmap_cons, <- app_assoc. simpl.
      by destruct (index !! k).
    + rewrite lookup_insert_ne, filter_cons_False by done. done.
Qed.

Lemma index_all_plain {A B} name (key : A -> string) (val : A -> B)
    (l : list A) (index index' : gmap string (list B)) :
  plain_index index ->
  index_all name key val l index = Ok index' ->
  (forall x, x ∈ l -> inherited (key x) = false) /\ plain_index index'.
Proof.
  revert index. induction l as [|x l IH]; intros index Hplain.
  - simpl. intros [= <-]. split; [|done]. intros x Hx. by apply elem_of_nil in Hx.
  - simpl. destruct (index_push name (key x) (val x) index) as [index1|m]
      eqn:Hpush; [|done].
    apply index_push_Ok in Hpush as [-> Hnew]. intros Hrest.
    assert (inherited (key x) = false) as Hx.
    { destruct (index !! key x) eqn:Hlook; [|by apply Hnew].
      apply Hplain. by rewrite Hlook. }
    assert (plain_index (<[key x := default [] (index !! key x) ++ [val x]]>
                           index)) as Hplain1.
    { intros k. destruct (decide (key x = k)) as [<-|Hne]; [done|].
      rewrite lookup_insert_ne by done. apply Hplain. }
    destruct (IH _ Hplain1 Hrest) as [Hall Hplain'].
    split; [|done]. intros y Hy.
    apply elem_of_cons in Hy as [-> | Hy]; [done | by apply Hall].
Qed.

Lemma index_all_Ok {A B} name (key : A -> string) (val : A -> B)
    (l : list A) (index : gmap string (list B)) :
  (forall x, x ∈ l -> inherited (key x) = false) ->
  exists index', index_all name key val l index = Ok index'.
Proof.
  revert index. induction l as [|x l IH]; intros index Hall.
  - by eexists.
  - simpl. rewrite index_push_plain by (apply Hall, list_elem_of_here).
    apply IH. intros y Hy. apply Hall. by apply list_elem_of_further.
Qed.

Lemma index_nodes_all ns byKind :
  index_nodes ns byKind =
  index_all "byKind[node.kind]" node_kind node_id ns byKind.
Proof.
  revert byKind. induction ns as [|n ns IH]; intros byKind; [done|].
  simpl. destruct (index_push _ _ _ _); [apply IH | done].
Qed.

Lemma index_edges_all es out inc out' inc' :
  index_edges es out inc = Ok (out', inc') <->
  index_all "outgoingEdges[edge.from]" edge_from id es out = Ok out' /\
  index_all "incomingEdges[edge.to]" edge_to id es inc = Ok inc'.
Proof.
  revert out inc. induction es as [|e es IH]; intros out inc; simpl.
  - split; [by intros [= <- <-] | by intros [[= <-] [= <-]]].
  - destruct (index_push "outgoingEdges[edge.from]" (edge_from e) e out)
      as [out1|m]; [|split; [done | intros [? _]; done]].
    destruct (index_push "incomingEdges[edge.to]" (edge_to e) e inc)
      as [inc1|m]; [|split; [done | intros [_ ?]; done]].
    apply IH.
Qed.

Lemma index_edges_Throw es out inc m :
  index_edges es out inc = Throw m ->
  (exists m', index_all "outgoingEdges[edge.from]" edge_from id es out
              = Throw m') \/
  (exists m', index_all "incomingEdges[edge.to]" edge_to id es inc
              = Throw m').
Proof.
  revert out inc. induction es as [|e es IH]; intros out inc; simpl; [done|].
  destruct (index_push "outgoingEdges[edge.from]" (edge_from e) e out)
    as [out1|m1]; [|intros _; left; by eexists].
  destruct (index_push "incomingEdges[edge.to]" (edge_to e) e inc)
    as [inc1|m1]; [|intros _; right; by eexists].
  apply IH.
Qed.

Lemma plain_index_empty {A} : plain_index (∅ : gmap string A).
Proof. intros key [x Hx]. by rewrite lookup_empty in Hx. Qed.

(** What the indexes hold when [rebuildIndexes] has built them. *)
Lemma build_indexes_Ok s ix :
  build_indexes s = Ok ix ->
  exists byKind out inc,
    ix = {| by_kind := Some byKind; incoming_edges := Some inc;
            outgoing_edges := Some out |} /\
    (forall k,
       byKind !! k =
       index_entry (node_id <$> filter (fun n => node_kind n = k) (nodes s))) /\
    (forall i,
       out !! i = index_entry (filter (fun e => edge_from e = i) (edges s))) /\
    (forall i,
       inc !! i = index_entry (filter (fun e => edge_to e = i) (edges s))) /\
    plain_keys s.
Proof.
  unfold build_indexes. rewrite index_nodes_all.
  destruct (index_all _ node_kind node_id (nodes s) ∅) as [byKind|m] eqn:Hn;
    [|done].
  destruct (index_edges (edges s) ∅ ∅) as [[out inc]|m] eqn:He; [|done].
  apply index_edges_all in He as [Hout Hinc].
  intros [= <-]. exists byKind, out, inc. split; [done|].
  split; [|split; [|split]].
  - intros k. by rewrite (index_all_lookup _ _ _ _ _ _ k Hn), lookup_empty.
  - intros i. rewrite (index_all_lookup _ _ _ _ _ _ i Hout), lookup_empty.
    by rewrite list_fmap_id.
  - intros i. rewrite (index_all_lookup _ _ _ _ _ _ i Hinc), lookup_empty.
    by rewrite list_fmap_id.
  - destruct (index_all_plain _ _ _ _ _ _ plain_index_empty Hn) as [Hkinds _].
    destruct (index_all_plain _ _ _ _ _ _ plain_index_empty Hout) as [Hfrom _].
    destruct (index_all_plain _ _ _ _ _ _ plain_index_empty Hinc) as [Hto _].
    split; [done|]. intros e He. split; [by apply Hfrom | by apply Hto].
Qed.

Lemma build_indexes_plain s :
  plain_keys s -> exists ix, build_indexes s = Ok ix.
Proof.
  intros [Hkinds Hedges]. unfold build_indexes. rewrite index_nodes_all.
  destruct (index_all_Ok "byKind[node.kind]" node_kind node_id (nodes s) ∅
              Hkinds) as [byKind ->].
  destruct (index_all_Ok "outgoingEdges[edge.from]" edge_from id (edges s) ∅)
    as [out Hout]; [intros e He; by apply Hedges|].
  destruct (index_all_Ok "incomingEdges[edge.to]" edge_to id (edges s) ∅)
    as [inc Hinc]; [intros e He; by apply Hedges|].
  rewrite (proj2 (index_edges_all _ _ _ _ _) (conj Hout Hinc)). by eexists.
Qed.

Lemma build_indexes_iff s :
  plain_keys s <-> exists ix, build_indexes s = Ok ix.
Proof.
  split; [apply build_indexes_plain|].
  intros [ix Hix]. by destruct (build_indexes_Ok s ix Hix) as (? & ? & ? & _ & _ & _ & _ & ?).
Qed.

Lemma build_indexes_Throw s :
  ~ plain_keys s <-> exists m, build_indexes s = Throw m.
Proof.
  rewrite build_indexes_iff. destruct (build_indexes s) as [ix|m].
  - split; [intros Hno; destruct Hno; by eexists | intros [? ?]; done].
  - split; [by eexists | intros _ [? ?]; done].
Qed.

(** The indexes depend on the nodes and the edges only. *)
Lemma build_indexes_ext s1 s2 :
  nodes s1 = nodes s2 -> edges s1 = edges s2 ->
  build_indexes s1 = build_indexes s2.
Proof. intros Hn He. unfold build_indexes. by rewrite Hn, He. Qed.

(** X1.  [rebuildIndexes] touches only [indexes], and its index objects are
    plain objects: it throws, leaving the state as it was, exactly when a
    node kind or an endpoint of an edge is named like a member of
    [Object.prototype].  Otherwise, after it, [by_kind[k]] holds the ids of
    the nodes of kind [k] in the order of [nodes], [outgoing_edges[id]] the
    edges that start at [id] and [incoming_edges[id]] the edges that end at
    [id], in the order of [edges]; a key under which nothing falls is
    absent.  Running it again changes nothing. *)
Theorem rebuildIndexes_projects (st : ExecState) :
  let s := st_ssot st in
  (plain_keys s <-> exists st', rebuildIndexes st = (Ok tt, st')) /\
  (~ plain_keys s <-> exists m, rebuildIndexes st = (Throw m, st)) /\
  (forall m st', rebuildIndexes st = (Throw m, st') -> st' = st) /\
  (forall st',
     rebuildIndexes st = (Ok tt, st') ->
     exists byKind out inc,
       rebuildIndexes st' = (Ok tt, st') /\
       meta (st_ssot st') = meta s /\
       nodes (st_ssot st') = nodes s /\
       edges (st_ssot st') = edges s /\
       st_io st' = st_io st /\
       indexes (st_ssot st') =
         Some {| by_kind := Some byKind; incoming_edges := Some inc;
                 outgoing_edges := Some out |} /\
       (forall k,
          byKind !! k =
          index_entry (node_id <$> filter (fun n => node_kind n = k)
                                          (nodes s))) /\
       (forall id,
          out !! id =
          index_entry (filter (fun e => edge_from e = id) (edges s))) /\
       (forall id,
          inc !! id =
          index_entry (filter (fun e => edge_to e = id) (edges s)))).
Proof.
  intros s. subst s.
  destruct (build_indexes (st_ssot st)) as [ix|m] eqn:Hix.
  - rewrite (rebuildIndexes_Ok st ix Hix).
    assert (plain_keys (st_ssot st)) as Hplain
      by (apply build_indexes_iff; by eexists).
    split; [split; [intros _; by eexists | done]|].
    split; [split; [done | intros [? ?]; done]|].
    split; [done|]. intros st' [= <-].
    assert (rebuildIndexes
              {| st_ssot := set_indexes (Some ix) (st_ssot st);
                 st_uuids := st_uuids st; st_dates := st_dates st;
                 st_io := st_io st |} =
            (Ok tt, {| st_ssot := set_indexes (Some ix) (st_ssot st);
                       st_uuids := st_uuids st; st_dates := st_dates st;
                       st_io := st_io st |})) as Hagain.
    { erewrite rebuildIndexes_Ok; [reflexivity|]. simpl. rewrite <- Hix.
      by apply build_indexes_ext. }
    destruct (build_indexes_Ok _ _ Hix)
      as (byKind & out & inc & -> & Hk & Hout & Hinc & _).
    exists byKind, out, inc. split; [exact Hagain|]. simpl. done.
  - rewrite (rebuildIndexes_Throw st m Hix).
    assert (~ plain_keys (st_ssot st)) as Hplain
      by (apply build_indexes_Throw; by eexists).
    split; [split; [done | intros [? ?]; done]|].
    split; [split; [intros _; by eexists | done]|].
    split; [by intros ? ? [= _ <-] | done].
Qed.

(** A graph with a node of kind "constructor" cannot be indexed. *)
Lemma rebuildIndexes_projects_witness :
  let s := Demo.mk_ssot [Demo.mk_node "C1" "constructor"] [] in
  rebuildIndexes (start_state s) =
  (Throw "byKind[node.kind].push is not a function", start_state s).
Proof.
  intros s.
  destruct (proj1 (proj1 (proj2 (rebuildIndexes_projects (start_state s)))))
    as [m Hthrow].
  - intros [Hkinds _]. specialize (Hkinds (Demo.mk_node "C1" "constructor")).
    discriminate Hkinds. apply list_elem_of_here.
  - rewrite Hthrow. vm_compute in Hthrow. by injection Hthrow as <-.
Defined.

(** ** What the handlers do to the graph *)

Lemma ExecState_eta st :
  {| st_ssot := st_ssot st; st_uuids := st_uuids st; st_dates := st_dates st;
     st_io := st_io st |} = st.
Proof. by destruct st. Qed.

Lemma no_touching_edges ref (es : list Edge) :
  length (filter (touches ref) es) = 0%nat ->
  forall e, e ∈ es -> ~ touches ref e.
Proof.
  intros Hlen e Hin Htouch. apply length_zero_iff_nil in Hlen.
  assert (e ∈ filter (touches ref) es) as Hf by (by apply list_elem_of_filter).
  rewrite Hlen in Hf. by apply elem_of_nil in Hf.
Qed.

Section Effects.

Variable schema : EffectiveSchema.
Variable env : ExecEnv.

Lemma addNode_outcome params intentId st :
  handler_outcome (uuidv4 env (st_uuids st)) None st
                  (addNode env params intentId st).
Proof.
  unfold handler_outcome, addNode. run_exec. split; [done|].
  by apply effect_node.
Qed.

Lemma addEdge_outcome params intentId st :
  handler_outcome (uuidv4 env (st_uuids st)) None st
                  (addEdge schema env params intentId st).
Proof.
  unfold handler_outcome, addEdge.
  destruct (edge_definitions schema !! ae_edge_kind params) as [edgeDef|].
  2: { destruct (inherited (ae_edge_kind params)); run_exec; [|done].
       by destruct (findNode (st_ssot st) (ae_from_ref params)),
                   (findNode (st_ssot st) (ae_to_ref params)). }
  run_exec.
  destruct (findNode (st_ssot st) (ae_from_ref params)) as [fromNode|] eqn:Hf;
    [|done].
  destruct (findNode (st_ssot st) (ae_to_ref params)) as [toNode|] eqn:Ht;
    [|done].
  repeat case_bool_decide; simpl; try done.
  split; [done|]. apply findNode_Some in Hf, Ht.
  apply effect_edge; simpl; [by exists fromNode | by exists toNode].
Qed.

Lemma updateNodeAttrs_outcome params intentId st :
  handler_outcome (uuidv4 env (st_uuids st)) None st
                  (updateNodeAttrs env params intentId st).
Proof.
  unfold handler_outcome, updateNodeAttrs. run_exec.
  destruct (list_find _ (nodes (st_ssot st))) as [[i node]|] eqn:Hfind;
    [|done].
  destruct (applyPatch env (node_attrs node) (un_patch params)); [|done].
  simpl. split; [done|].
  apply list_find_Some in Hfind as (Hlook & _ & _). by apply effect_attrs.
Qed.

Lemma deleteNode_outcome params intentId st :
  handler_outcome (uuidv4 env (st_uuids st)) None st
                  (deleteNode params intentId st).
Proof.
  unfold handler_outcome, deleteNode. run_exec.
  destruct (list_find _ (nodes (st_ssot st))) as [[i node]|] eqn:Hfind;
    [|done].
  apply list_find_Some in Hfind as (Hlook & Hid & _).
  case_bool_decide as Hcount; simpl.
  - destruct (cascade_set params); simpl; [|done]. split; [done|].
    rewrite untouched_filter, <- Hid.
      by apply (effect_delete_cascade _ _ i node).
  - destruct (cascade_set params); simpl; (split; [done|]).
    + rewrite untouched_filter, <- Hid.
      by apply (effect_delete_cascade _ _ i node).
    + apply (effect_delete _ _ i node); [exact Hlook|]. rewrite Hid.
      apply no_touching_edges. lia.
Qed.

Lemma addNeed_outcome params intentId st :
  handler_outcome (uuidv4 env (st_uuids st)) (unchecked_actor params) st
                  (addNeed env params intentId st).
Proof.
  unfold handler_outcome, addNeed, unchecked_actor. run_exec.
  destruct (need_expressed_by params) as [actor|]; simpl.
  - destruct (truthy_string actor); simpl; (split; [done|]).
    + by apply effect_need.
    + by apply effect_node.
  - split; [done|]. by apply effect_node.
Qed.

Lemma addRequirementRefinement_outcome params intentId st :
  handler_outcome (uuidv4 env (st_uuids st)) None st
                  (addRequirementRefinement env params intentId st).
Proof.
  unfold handler_outcome, addRequirementRefinement. run_exec.
  destruct (findNode (st_ssot st) (rr_need_ref params)) as [need|] eqn:Hf;
    [|done].
  case_bool_decide; simpl; [done|]. split; [done|].
  apply findNode_Some in Hf.
  apply effect_refinement; simpl; [done | by exists need | done].
Qed.

End Effects.

Section Dispatch.

Variable schema : EffectiveSchema.
Variable catalog : IntentCatalog.
Variable options : IntentEngineOptions.
Variable env : ExecEnv.

Lemma dispatch_outcome {P} (cast : Attrs -> option P)
    (handler : P -> string -> Exec (list IntentChange))
    (unchecked : P -> option string) intent h st :
  (forall params intentId st,
     handler_outcome (uuidv4 env (st_uuids st)) (unchecked params) st
                     (handler params intentId st)) ->
  dispatch cast handler intent = Some h ->
  exists u,
    handler_outcome (uuidv4 env (st_uuids st)) u st (h st) /\
    (forall a, u = Some a ->
       exists fields params,
         intent_params intent = PayloadObject fields /\
         cast fields = Some params /\ unchecked params = Some a).
Proof.
  intros Hout. unfold dispatch.
  destruct (intent_params intent) as [fields| |]; [|done|done].
  destruct (cast fields) as [params|] eqn:Hcast; [|done].
  simpl. intros [= <-]. destruct (intent_metadata intent) as [md|].
  - exists (unchecked params). split; [apply Hout|]. eauto.
  - exists None. split; [by split | done].
Qed.

Lemma unchecked_actor_field p params a :
  as_AddNeedParams p = Some params ->
  unchecked_actor params = Some a ->
  field "expressed_by" p = Some (JStr a) /\ a <> "".
Proof.
  unfold as_AddNeedParams, unchecked_actor. intros Hcast Hactor.
  destruct (as_record (field "attrs" p)) as [attrs|]; [|done]. simpl in Hcast.
  destruct (field "expressed_by" p) as [[]|]; simpl in Hcast; try done;
    injection Hcast as <-; simpl in Hactor; [|done].
  unfold truthy_string in Hactor. case_bool_decide; simpl in Hactor; [done|].
  by injection Hactor as <-.
Qed.

(** Whatever handler the dispatch selects: it does no file operation; when
    it throws it has not touched the state; when it returns it has had one
    of the effects. *)
Lemma executeIntentType_outcome intent h st :
  executeIntentType schema env intent = Some h ->
  exists u,
    handler_outcome (uuidv4 env (st_uuids st)) u st (h st) /\
    (forall a, u = Some a ->
       intent_type intent = "I.AddNeed" /\
       (exists fields,
          intent_params intent = PayloadObject fields /\
          field "expressed_by" fields = Some (JStr a)) /\
       a <> "").
Proof.
  unfold executeIntentType. repeat case_bool_decide.
  - intros Hd.
    destruct (dispatch_outcome _ _ (fun _ => None) intent h st
                (addNode_outcome env) Hd) as (u & Hout & Hu).
    exists u. split; [done|]. intros a ->.
    by destruct (Hu a eq_refl) as (? & ? & _ & _ & ?).
  - intros Hd.
    destruct (dispatch_outcome _ _ (fun _ => None) intent h st
                (addEdge_outcome schema env) Hd) as (u & Hout & Hu).
    exists u. split; [done|]. intros a ->.
    by destruct (Hu a eq_refl) as (? & ? & _ & _ & ?).
  - intros Hd.
    destruct (dispatch_outcome _ _ (fun _ => None) intent h st
                (updateNodeAttrs_outcome env) Hd) as (u & Hout & Hu).
    exists u. split; [done|]. intros a ->.
    by destruct (Hu a eq_refl) as (? & ? & _ & _ & ?).
  - intros Hd.
    destruct (dispatch_outcome _ _ (fun _ => None) intent h st
                (fun params intentId st =>
                   deleteNode_outcome env params intentId st) Hd)
      as (u & Hout & Hu).
    exists u. split; [done|]. intros a ->.
    by destruct (Hu a eq_refl) as (? & ? & _ & _ & ?).
  - intros Hd.
    destruct (dispatch_outcome _ _ unchecked_actor intent h st
                (addNeed_outcome env) Hd) as (u & Hout & Hu).
    exists u. split; [done|]. intros a ->.
    destruct (Hu a eq_refl) as (fields & params & Hfields & Hcast & Hactor).
    destruct (unchecked_actor_field _ _ _ Hcast Hactor) as [Hf Hne].
    split; [done|]. split; [by exists fields | done].
  - intros Hd.
    destruct (dispatch_outcome _ _ (fun _ => None) intent h st
                (addRequirementRefinement_outcome env) Hd) as (u & Hout & Hu).
    exists u. split; [done|]. intros a ->.
    by destruct (Hu a eq_refl) as (? & ? & _ & _ & ?).
  - intros [= <-]. exists None. split; [by split | done].
Qed.

End Dispatch.

Section TryBlock.

Variable options : IntentEngineOptions.
Variable env : ExecEnv.

(** The [try] block after the handler.  When the reindexing throws, the
    block ends there, with nothing written.  Otherwise the graph it leaves
    is the handler's, stamped and reindexed, whether or not a file operation
    then throws; the history record is the last thing written. *)
Lemma try_block_outcome handler intent intentId timestamp st0 :
  let out := try_block options env handler intent intentId timestamp st0 in
  match handler st0 with
  | (Throw m, st1) => out = (Throw m, st1)
  | (Ok changes, st1) =>
      match build_indexes (set_last_updated timestamp (st_ssot st1)) with
      | Throw m => out = (Throw m, stamped timestamp st1)
      | Ok ix =>
          let s' := st_ssot (finished timestamp ix st1) in
          st_ssot out.2 = s' /\
          match out.1 with
          | Ok c =>
              c = changes /\
              st_io out.2 =
                st_io st1 ++
                success_io options env intent intentId timestamp s'
          | Throw _ =>
              exists written,
                st_io out.2 = st_io st1 ++ written /\
                Forall (fun ev => ~ is_history_record ev) written
          end
      end
  end.
Proof.
  intros out. subst out.
  destruct (handler st0) as [[changes|m] st1] eqn:Hh;
    [|by apply try_block_handler_throws].
  destruct (build_indexes (set_last_updated timestamp (st_ssot st1)))
    as [ix|m] eqn:Hix;
    [|by apply (try_block_reindex_throws options env _ _ _ _ _ changes)].
  rewrite (try_block_reindexed options env _ _ _ _ _ _ _ _ Hh Hix).
  unfold success_io, recordHistory. unfold finished. run_exec.
  destruct (default false (autoSave options)); run_exec.
  - destruct (fs_writeFile env (ssotPath options) _) as [m|] eqn:Hsave;
      run_exec.
    + split; [done|]. exists []. by rewrite app_nil_r.
    + destruct (history_enabled options); run_exec.
      * destruct (fs_mkdir env _) as [m|]; run_exec.
        { split; [done|]. eexists. split; [reflexivity|].
          repeat constructor. simpl. tauto. }
        destruct (fs_writeFile env (path_join env _ _) _) as [m|]; run_exec.
        { split; [done|]. eexists. split; [by rewrite <- app_assoc|].
          repeat constructor; simpl; tauto. }
        split; [done|]. split; [done|]. by rewrite <- !app_assoc.
      * done.
  - destruct (history_enabled options); run_exec.
    + destruct (fs_mkdir env _) as [m|]; run_exec.
      { split; [done|]. exists []. by rewrite app_nil_r. }
      destruct (fs_writeFile env (path_join env _ _) _) as [m|]; run_exec.
      { split; [done|]. eexists. split; [reflexivity|].
        repeat constructor. simpl. tauto. }
      split; [done|]. split; [done|]. by rewrite <- !app_assoc.
    + split; [done|]. split; [done|]. by rewrite app_nil_r.
Qed.

End TryBlock.

Section ExecuteCases.

Variable schema : EffectiveSchema.
Variable catalog : IntentCatalog.
Variable options : IntentEngineOptions.
Variable env : ExecEnv.

(** The three ways in which a call of [execute] returns: stopped by
    validation; the handler returned, and then either everything was
    written, or the reindexing or a file operation threw; the handler
    threw. *)
Lemma execute_cases intent s r s' io :
  let intentId := uuidv4 env 0 in
  let timestamp := now env 0 in
  let intent' := with_metadata intent intentId timestamp s in
  execute schema catalog options env intent s = Some (Ok r, s', io) ->
  (exists errors,
     validateIntent schema catalog intent s = Ok errors /\ errors <> [] /\
     r = validation_failure intentId errors /\ s' = s /\ io = []) \/
  (validateIntent schema catalog intent s = Ok [] /\
   exists u mutated,
     effect (uuidv4 env 1) u s mutated /\
     (forall a, u = Some a ->
        intent_type intent = "I.AddNeed" /\
        (exists fields,
           intent_params intent = PayloadObject fields /\
           field "expressed_by" fields = Some (JStr a)) /\
        a <> "") /\
     ((exists changes ix,
         r = execution_success intentId changes /\
         build_indexes (set_last_updated timestamp mutated) = Ok ix /\
         s' = set_indexes (Some ix) (set_last_updated timestamp mutated) /\
         io = success_io options env intent' intentId timestamp s') \/
      (exists m,
         r = execution_failure intentId m s /\ s' = s /\
         Forall (fun ev => ~ is_history_record ev) io))) \/
  (validateIntent schema catalog intent s = Ok [] /\
   exists m, r = execution_failure intentId m s /\ s' = s /\ io = []).
Proof.
  intros intentId timestamp intent' Hexec. unfold execute in Hexec.
  rewrite validateIntent_with_metadata in Hexec.
  fold intentId timestamp intent' in Hexec.
  destruct (validateIntent schema catalog intent s) as [[|e errs]|m]
    eqn:Hvalid; simpl in Hexec.
  2: { injection Hexec as <- <- <-. left. by eexists. }
  2: { discriminate Hexec. }
  destruct (executeIntentType schema env intent') as [handler|] eqn:Hd;
    [|done]. simpl in Hexec.
  destruct (executeIntentType_outcome schema env intent' handler
              (start_state s) Hd) as (u & [Hio Hout] & Hu).
  pose proof (try_block_outcome options env handler intent' intentId
                timestamp (start_state s)) as Htry.
  simpl in Htry.
  destruct (handler (start_state s)) as [[changes|m] st1]; simpl in *.
  - right. left. split; [done|]. exists u, (st_ssot st1).
    split; [exact Hout|]. split.
    { intros a Ha. destruct (Hu a Ha) as (Hty & (fields & Hp & Hf) & Hne).
      unfold intent' in Hty, Hp. rewrite with_metadata_type in Hty.
      split; [done|]. split; [|done]. exists fields. split; [|done].
      unfold with_metadata in Hp. by destruct (intent_metadata intent). }
    destruct (build_indexes (set_last_updated timestamp (st_ssot st1)))
      as [ix|m] eqn:Hix.
    + destruct Htry as [Hssot Hrest].
      destruct (try_block options env handler intent' intentId timestamp
                  (start_state s)) as [[c|m] st]; simpl in *.
      * destruct Hrest as [-> Hw]. injection Hexec as <- <- <-. left.
        exists changes, ix. split; [done|]. split; [done|].
        split; [done|]. rewrite Hw, Hio, Hssot. done.
      * destruct Hrest as (written & Hw & Hnone).
        rewrite ssot_copy_id in Hexec.
        injection Hexec as <- <- <-. right. exists m. split; [done|].
        split; [done|]. by rewrite Hw, Hio.
    + rewrite Htry, ssot_copy_id in Hexec. simpl in Hexec.
      injection Hexec as <- <- <-. right. exists m. split; [done|].
      split; [done|]. rewrite Hio. by constructor.
  - right. right. split; [done|]. rewrite Htry, ssot_copy_id in Hexec.
    simpl in Hexec. injection Hexec as <- <- <-. exists m. subst st1. done.
Qed.

End ExecuteCases.

(** ** Invariants of the graph *)

Lemma is_node_ids s id : is_node s id <-> id ∈ node_id <$> nodes s.
Proof.
  unfold is_node. rewrite list_elem_of_fmap. split.
  - intros (n & Hin & <-). eauto.
  - intros (n & -> & Hin). eauto.
Qed.

Lemma elem_of_delete_other {A} (l : list A) i x y :
  l !! i = Some y -> x ∈ l -> x <> y -> x ∈ delete i l.
Proof.
  intros Hi Hin Hne. apply list_elem_of_lookup in Hin as [j Hj].
  assert (j <> i) as Hji by (intros ->; congruence).
  apply list_elem_of_lookup.
  destruct (decide (j < i)%nat) as [Hlt|Hge].
  - exists j. by rewrite list_lookup_delete_lt.
  - exists (pred j). rewrite list_lookup_delete_ge by lia.
    replace (S (pred j)) with j by lia. done.
Qed.

Lemma ids_after_update (ns : list Node) i node a :
  ns !! i = Some node ->
  node_id <$> <[i := set_node_attrs a node]> ns = node_id <$> ns.
Proof.
  intros Hi. rewrite list_fmap_insert. simpl. apply list_insert_id.
  by rewrite list_lookup_fmap, Hi.
Qed.


(** Nodes that are not the deleted one stay. *)
Lemma is_node_after_delete s i node id :
  nodes s !! i = Some node -> is_node s id -> id <> node_id node ->
  id ∈ node_id <$> delete i (nodes s).
Proof.
  intros Hi Hnode Hne. apply is_node_ids in Hnode.
  rewrite list_fmap_delete.
  apply (elem_of_delete_other _ i id (node_id node)); [|done|done].
  by rewrite list_lookup_fmap, Hi.
Qed.

Lemma effect_edges_resolve fresh u s s' :
  effect fresh u s s' ->
  edges_resolve s ->
  (forall a, u = Some a -> is_node s a) ->
  edges_resolve s'.
Proof.
  intros Heff Hres Hactor. unfold edges_resolve in *.
  destruct Heff as [s n Hn | s e Hf Ht | s i node a Hi | s i node Hi Hno
                    | s i node Hi | s n actor e Hn Hfrom Hto
                    | s n e Hn Hfrom Hto];
    simpl; intros e' He'; rewrite !is_node_ids; simpl.
  - destruct (Hres e' He') as [H1 H2]. apply is_node_ids in H1, H2.
    rewrite fmap_app, !elem_of_app. auto.
  - apply elem_of_app in He' as [He'|He'].
    + destruct (Hres e' He') as [H1 H2]. by apply is_node_ids in H1, H2.
    + apply list_elem_of_singleton in He' as ->. by apply is_node_ids in Hf, Ht.
  - rewrite (ids_after_update _ _ _ _ Hi).
    destruct (Hres e' He') as [H1 H2]. by apply is_node_ids in H1, H2.
  - destruct (Hres e' He') as [H1 H2].
    assert (~ touches (node_id node) e') as Hun by (by apply Hno).
    unfold touches in Hun.
    split; apply (is_node_after_delete s i node); try done;
      intros Heq; apply Hun; auto.
  - apply list_elem_of_filter in He' as [Hun He'].
    destruct (Hres e' He') as [H1 H2]. unfold touches in Hun.
    split; apply (is_node_after_delete s i node); try done;
      intros Heq; apply Hun; auto.
  - rewrite fmap_app, !elem_of_app. simpl.
    apply elem_of_app in He' as [He'|He'].
    + destruct (Hres e' He') as [H1 H2]. apply is_node_ids in H1, H2. auto.
    + apply list_elem_of_singleton in He' as ->. rewrite Hfrom, Hto, Hn.
      split; [left; apply is_node_ids; by apply Hactor|].
      right. apply list_elem_of_here.
  - rewrite fmap_app, !elem_of_app. simpl.
    apply elem_of_app in He' as [He'|He'].
    + destruct (Hres e' He') as [H1 H2]. apply is_node_ids in H1, H2. auto.
    + apply list_elem_of_singleton in He' as ->. rewrite Hto, Hn.
      split; [left; by apply is_node_ids|]. right. apply list_elem_of_here.
Qed.

Lemma effect_unique_ids fresh u s s' :
  effect fresh u s s' ->
  unique_ids s -> ~ is_node s fresh -> unique_ids s'.
Proof.
  intros Heff Huniq Hfresh. unfold unique_ids in *.
  rewrite is_node_ids in Hfresh.
  assert (forall n : Node, node_id n = fresh ->
            NoDup (node_id <$> nodes s ++ [n])) as Hadd.
  { intros n Hn. rewrite fmap_app. apply NoDup_app. split; [done|]. split.
    - intros x Hx Hin. simpl in Hin. apply list_elem_of_singleton in Hin.
      congruence.
    - simpl. apply NoDup_singleton. }
  destruct Heff as [s n Hn | s e Hf Ht | s i node a Hi | s i node Hi Hno
                    | s i node Hi | s n actor e Hn Hfrom Hto
                    | s n e Hn Hfrom Hto]; simpl; auto.
  - by rewrite (ids_after_update _ _ _ _ Hi).
  - rewrite list_fmap_delete. eapply sublist_NoDup; [exact Huniq|].
    apply sublist_delete.
  - rewrite list_fmap_delete. eapply sublist_NoDup; [exact Huniq|].
    apply sublist_delete.
Qed.

Lemma indexed_set_indexes s ix :
  build_indexes s = Ok ix -> indexed (set_indexes (Some ix) s).
Proof.
  intros Hix. exists ix. split; [|done]. rewrite <- Hix.
  by apply build_indexes_ext.
Qed.



(** X3.  A successful [execute] writes, in this order and nothing else: the
    resulting SSoT to [ssotPath] if autosave is on; then, if a history
    directory is configured, that directory and one history record named by
    the id of the result, holding the intent with its resolved metadata.  A
    failed [execute] has never written a history record, and one stopped by
    validation has written nothing at all. *)
Theorem execute_file_operations (schema : EffectiveSchema)
    (catalog : IntentCatalog) (options : IntentEngineOptions) (env : ExecEnv)
    (intent : Intent) (s : SSoT) (r : IntentResult) (s' : SSoT)
    (io : list IOEvent) :
  execute schema catalog options env intent s = Some (Ok r, s', io) ->
  (res_success r = true ->
   io = success_io options env
          (with_metadata intent (uuidv4 env 0) (now env 0) s)
          (res_intent_id r) (now env 0) s') /\
  (res_success r = false -> Forall (fun ev => ~ is_history_record ev) io) /\
  (validateIntent schema catalog intent s <> Ok [] -> io = []).
Proof.
  intros Hexec.
  destruct (execute_cases schema catalog options env intent s r s' io Hexec)
    as [(errors & Hvalid & Hne & -> & -> & ->)
       | [(Hnil & u & mutated & Heff & _ & Hend)
         | (Hnil & m & -> & -> & ->)]].
  - split; [intros [=]|]. split; [by constructor | done].
  - destruct Hend as [(changes & ix & -> & _ & -> & ->)
                     | (m & -> & -> & Hnone)].
    + split; [done|]. split; [intros [=] | done].
    + split; [intros [=]|]. split; [done | done].
  - split; [intros [=]|]. split; [by constructor | done].
Qed.

Lemma execute_file_operations_witness :
  match execute Demo.schema Demo.catalog Demo.autosaving Demo.working_env
          (Demo.mk_intent "I.AddNode" [("kind", JStr "Need")]) Demo.graph with
  | Some (Ok r, s', io) =>
      exists entry,
        io = [WroteFile "state/ssot.json" (SsotDocument s');
              MadeDir "state/history";
              WroteFile "state/history/uuid-0.json" (HistoryDocument entry)]
  | _ => False
  end.
Proof.
  destruct (execute Demo.schema Demo.catalog Demo.autosaving Demo.working_env
              (Demo.mk_intent "I.AddNode" [("kind", JStr "Need")]) Demo.graph)
    as [[[[r|m] s'] io]|] eqn:Hexec;
    [|vm_compute in Hexec; discriminate Hexec
     |vm_compute in Hexec; discriminate Hexec].
  pose proof (execute_file_operations _ _ _ _ _ _ _ _ _ Hexec) as [Hok _].
  assert (res_success r = true /\ res_intent_id r = "uuid-0") as [Hr Hid]
    by (vm_compute in Hexec; by injection Hexec as <- _ _).
  rewrite (Hok Hr), Hid. eexists. reflexivity.
Defined.

(** X4.  If every edge of the graph starts and ends at a node, this still
    holds after [execute], whatever the intent and however the call ends,
    with one proviso: an I.AddNeed intent that names a non-empty
    [expressed_by] must name a node of the graph, because [addNeed] appends
    its edge without looking the actor up. *)
Theorem execute_keeps_edges_resolved (schema : EffectiveSchema)
    (catalog : IntentCatalog) (options : IntentEngineOptions) (env : ExecEnv)
    (intent : Intent) (s : SSoT) (r : Result IntentResult) (s' : SSoT)
    (io : list IOEvent) :
  execute schema catalog options env intent s = Some (r, s', io) ->
  edges_resolve s ->
  (forall fields a,
     intent_type intent = "I.AddNeed" ->
     intent_params intent = PayloadObject fields ->
     field "expressed_by" fields = Some (JStr a) ->
     a <> "" -> is_node s a) ->
  edges_resolve s'.
Proof.
  intros Hexec Hres Hactor.
  destruct r as [r|thrown].
  2: { unfold execute in Hexec.
       destruct (validateIntent _ _ _ _) as [errors|m]; simpl in Hexec.
       - case_bool_decide; [done|].
         destruct (executeIntentType _ _ _) as [handler|]; [|done].
         simpl in Hexec. by destruct (try_block _ _ _ _ _ _ _) as [[?|?] ?].
       - by injection Hexec as _ <- _. }
  destruct (execute_cases schema catalog options env intent s r s' io Hexec)
    as [(errors & _ & _ & _ & -> & _)
       | [(_ & u & mutated & Heff & Hu & Hend) | (_ & m & _ & -> & _)]];
    try done.
  destruct Hend as [(changes & ix & _ & _ & -> & _) | (m & _ & -> & _)];
    [|done].
  apply (effect_edges_resolve _ _ _ _ Heff Hres).
  intros a Ha. destruct (Hu a Ha) as (Hty & (fields & Hp & Hf) & Hne).
  by apply (Hactor fields).
Qed.

Lemma execute_keeps_edges_resolved_witness :
  edges_resolve
    (ssot_after
       (execute Demo.schema Demo.catalog Demo.in_memory Demo.working_env
          (Demo.mk_intent "I.DeleteNode"
             [("node_ref", JStr "N1"); ("cascade", JBool true)]) Demo.graph)
       Demo.graph).
Proof.
  destruct (execute Demo.schema Demo.catalog Demo.in_memory Demo.working_env
              (Demo.mk_intent "I.DeleteNode"
                 [("node_ref", JStr "N1"); ("cascade", JBool true)])
              Demo.graph)
    as [[[r s'] io]|] eqn:Hexec; [|vm_compute in Hexec; discriminate Hexec].
  simpl.
  apply (execute_keeps_edges_resolved _ _ _ _ _ _ _ _ _ Hexec).
  - intros e He. simpl in He. apply list_elem_of_singleton in He as ->.
    split; [exists (Demo.mk_node "N1" "Need")
           | exists (Demo.mk_node "R1" "Requirement")];
      (split; [simpl | reflexivity]).
    + apply list_elem_of_here.
    + do 2 apply list_elem_of_further. apply list_elem_of_here.
  - simpl. intros fields a Hty. discriminate Hty.
Defined.

(** X5.  If no two nodes share an id and the uuid that the call hands to a
    new node is not yet the id of a node, then no two nodes share an id
    after [execute] either. *)
Theorem execute_keeps_ids_unique (schema : EffectiveSchema)
    (catalog : IntentCatalog) (options : IntentEngineOptions) (env : ExecEnv)
    (intent : Intent) (s : SSoT) (r : Result IntentResult) (s' : SSoT)
    (io : list IOEvent) :
  execute schema catalog options env intent s = Some (r, s', io) ->
  unique_ids s ->
  ~ is_node s (uuidv4 env 1) ->
  unique_ids s'.
Proof.
  intros Hexec Huniq Hfresh.
  destruct r as [r|thrown].
  2: { unfold execute in Hexec.
       destruct (validateIntent _ _ _ _) as [errors|m]; simpl in Hexec.
       - case_bool_decide; [done|].
         destruct (executeIntentType _ _ _) as [handler|]; [|done].
         simpl in Hexec. by destruct (try_block _ _ _ _ _ _ _) as [[?|?] ?].
       - by injection Hexec as _ <- _. }
  destruct (execute_cases schema catalog options env intent s r s' io Hexec)
    as [(errors & _ & _ & _ & -> & _)
       | [(_ & u & mutated & Heff & Hu & Hend) | (_ & m & _ & -> & _)]];
    try done.
  destruct Hend as [(changes & ix & _ & _ & -> & _) | (m & _ & -> & _)];
    [|done].
  apply (effect_unique_ids _ _ _ _ Heff Huniq Hfresh).
Qed.

Lemma execute_keeps_ids_unique_witness :
  unique_ids
    (ssot_after
       (execute Demo.schema Demo.catalog Demo.in_memory Demo.working_env
          (Demo.mk_intent "I.AddNode" [("kind", JStr "Need")]) Demo.graph)
       Demo.graph).
Proof.
  destruct (execute Demo.schema Demo.catalog Demo.in_memory Demo.working_env
              (Demo.mk_intent "I.AddNode" [("kind", JStr "Need")]) Demo.graph)
    as [[[r s'] io]|] eqn:Hexec; [|vm_compute in Hexec; discriminate Hexec].
  simpl.
  apply (execute_keeps_ids_unique _ _ _ _ _ _ _ _ _ Hexec).
  - unfold unique_ids. simpl.
    refine (bool_decide_unpack (NoDup ["N1"; "N2"; "R1"]) _).
    vm_compute. exact I.
  - rewrite is_node_ids. simpl.
    refine (bool_decide_unpack ("uuid-1" ∉ ["N1"; "N2"; "R1"]) _).
    vm_compute. exact I.
Defined.

(** X6.  None of the handlers that the dispatch can select throws after it
    has touched the state: when the selected handler throws, the state is
    the one it started from. *)
Theorem handlers_throw_before_mutating (schema : EffectiveSchema)
    (env : ExecEnv) (intent : Intent) (handler : Exec (list IntentChange))
    (st st' : ExecState) (message : string) :
  executeIntentType schema env intent = Some handler ->
  handler st = (Throw message, st') ->
  st' = st.
Proof.
  intros Hd Hrun.
  destruct (executeIntentType_outcome schema env intent handler st Hd)
    as (u & [_ Hout] & _).
  by rewrite Hrun in Hout.
Qed.

Lemma handlers_throw_before_mutating_witness :
  let intent :=
    {| intent_type := "I.DeleteNode";
       intent_params := PayloadObject [("node_ref", JStr "N1")];
       intent_metadata :=
         Some {| im_intent_id := "i1"; im_timestamp := "t"; im_user := None;
                 im_source := None; im_collaboration_mode := None |} |} in
  let handler := deleteNode {| dn_node_ref := "N1"; dn_cascade := None |} "i1" in
  (handler (start_state Demo.graph)).2 = start_state Demo.graph.
Proof.
  intros intent handler.
  apply (handlers_throw_before_mutating Demo.schema Demo.working_env intent
           handler (start_state Demo.graph) _
           "Node 'N1' has 1 connected edges. Use cascade=true to delete them.").
  - vm_compute. reflexivity.
  - vm_compute. reflexivity.
Defined.

(** ** The handlers, case by case *)

Lemma first_with_id (ns : list Node) ref i node :
  ns !! i = Some node -> node_id node = ref ->
  (forall j other, ns !! j = Some other -> (j < i)%nat -> node_id other <> ref) ->
  list_find (fun n => node_id n = ref) ns = Some (i, node).
Proof. intros. by apply list_find_Some. Qed.

Lemma no_node_with_id s ref :
  ~ is_node s ref ->
  list_find (fun n => node_id n = ref) (nodes s) = None.
Proof.
  intros Hno. apply list_find_None, Forall_forall. intros n Hin Hid.
  apply Hno. by exists n.
Qed.

(** X7.  [updateNodeAttrs] throws "Node '...' not found" for an id that no
    node has, and rethrows what the patch library throws; in both cases the
    state is untouched.  Otherwise it replaces the [attrs] of the first node
    with that id by the patched document and changes nothing else: every
    other node, the number and order of the nodes, the edges, [meta] and the
    (now stale) indexes are as before, and the change record counts the
    patch operations. *)
Theorem updateNodeAttrs_changes_one_node (env : ExecEnv)
    (params : UpdateNodeAttrsParams) (intentId : string) (st : ExecState) :
  let s := st_ssot st in
  let ref := un_node_ref params in
  let run := updateNodeAttrs env params intentId st in
  (~ is_node s ref ->
   run = (Throw ("Node '" +:+ ref +:+ "' not found"), st)) /\
  (forall i node,
     nodes s !! i = Some node -> node_id node = ref ->
     (forall j other, nodes s !! j = Some other -> (j < i)%nat ->
                      node_id other <> ref) ->
     match applyPatch env (node_attrs node) (un_patch params) with
     | Throw m => run = (Throw m, st)
     | Ok newDocument =>
         exists st',
           run = (Ok [ {| change_type := node_updated;
                          change_target := ref;
                          change_details :=
                            Some (OperationsDetails
                                    (Z.of_nat (length (un_patch params)))) |} ],
                  st') /\
           nodes (st_ssot st') !! i = Some (set_node_attrs newDocument node) /\
           (forall j, j <> i -> nodes (st_ssot st') !! j = nodes s !! j) /\
           (node_id <$> nodes (st_ssot st')) = (node_id <$> nodes s) /\
           (node_kind <$> nodes (st_ssot st')) = (node_kind <$> nodes s) /\
           edges (st_ssot st') = edges s /\
           meta (st_ssot st') = meta s /\
           indexes (st_ssot st') = indexes s
     end).
Proof.
  intros s ref run. subst run. unfold updateNodeAttrs. run_exec.
  fold s ref. split.
  - intros Hno. by rewrite (no_node_with_id s ref Hno).
  - intros i node Hi Hid Hfirst.
    rewrite (first_with_id _ _ _ _ Hi Hid Hfirst).
    destruct (applyPatch env (node_attrs node) (un_patch params))
      as [newDocument|m]; [|done].
    simpl. eexists. split; [reflexivity|]. simpl.
    split; [apply list_lookup_insert_eq; by eapply lookup_lt_Some|].
    split; [intros j Hj; by apply list_lookup_insert_ne|].
    split; [by apply ids_after_update|].
    split; [|done].
    rewrite list_fmap_insert. simpl. apply list_insert_id.
    by rewrite list_lookup_fmap, Hi.
Qed.

Lemma updateNodeAttrs_changes_one_node_witness :
  let env :=
    {| uuidv4 := uuidv4 Demo.working_env; now := now Demo.working_env;
       fs_writeFile := fs_writeFile Demo.working_env;
       fs_mkdir := fs_mkdir Demo.working_env;
       path_join := path_join Demo.working_env;
       applyPatch := fun doc _ => Ok (("priority", JStr "high") :: doc) |} in
  let params := {| un_node_ref := "N2"; un_patch := [JObj []] |} in
  exists st',
    (updateNodeAttrs env params "i1" (start_state Demo.graph)).2 = st' /\
    (node_attrs <$> nodes (st_ssot st')) =
      [[]; [("priority", JStr "high")]; []].
Proof.
  intros env params.
  destruct (proj2 (updateNodeAttrs_changes_one_node env params "i1"
                     (start_state Demo.graph))
              1%nat (Demo.mk_node "N2" "Need") eq_refl eq_refl)
    as (st' & Hrun & _).
  { intros [|[|j]] other Hj Hlt; [|lia|lia].
    simpl in Hj. injection Hj as <-. discriminate. }
  exists st'. rewrite Hrun. split; [reflexivity|].
  apply (f_equal snd) in Hrun. simpl in Hrun. subst st'. reflexivity.
Defined.

Lemma NoDup_delete_gone {A} (l : list A) i x :
  NoDup l -> l !! i = Some x -> x ∉ delete i l.
Proof.
  intros Hnd Hi. rewrite delete_take_drop.
  rewrite <- (take_drop_middle l i x Hi) in Hnd.
  apply NoDup_app in Hnd as (_ & Hleft & Hright).
  apply NoDup_cons in Hright as [Hnotin _].
  intros Hin. apply elem_of_app in Hin as [Hin|Hin]; [|done].
  apply (Hleft x Hin). apply list_elem_of_here.
Qed.

Lemma filter_all {A} (P : A -> Prop) `{!forall x, Decision (P x)} (l : list A) :
  (forall x, x ∈ l -> P x) -> filter P l = l.
Proof.
  induction l as [|x l IH]; intros Hall; [done|].
  rewrite filter_cons_True by (apply Hall, list_elem_of_here).
  f_equal. apply IH. intros y Hy. apply Hall. by apply list_elem_of_further.
Qed.

Lemma filter_none {A} (P : A -> Prop) `{!forall x, Decision (P x)} (l : list A) :
  (forall x, x ∈ l -> ~ P x) -> filter P l = [].
Proof.
  induction l as [|x l IH]; intros Hall; [done|].
  rewrite filter_cons_False by (apply Hall, list_elem_of_here).
  apply IH. intros y Hy. apply Hall. by apply list_elem_of_further.
Qed.

(** X8.  [deleteNode] on an id that no node has throws "Node '...' not
    found" and touches nothing.  On a node that no edge touches it removes
    the node (the first with that id) whether or not [cascade] is set,
    leaves the edges as they are and reports [edges_deleted = 0].  After any
    successful [deleteNode] on a graph without duplicate ids, no node with
    that id is left. *)
Theorem deleteNode_without_edges (params : DeleteNodeParams)
    (intentId : string) (st : ExecState) :
  let s := st_ssot st in
  let ref := dn_node_ref params in
  let run := deleteNode params intentId st in
  (~ is_node s ref ->
   run = (Throw ("Node '" +:+ ref +:+ "' not found"), st)) /\
  (is_node s ref ->
   (forall e, e ∈ edges s -> ~ touches ref e) ->
   exists i node st',
     list_find (fun n => node_id n = ref) (nodes s) = Some (i, node) /\
     run = (Ok [ {| change_type := node_deleted;
                    change_target := ref;
                    change_details :=
                      Some (DeleteDetails (dn_cascade params) 0) |} ], st') /\
     nodes (st_ssot st') = delete i (nodes s) /\
     edges (st_ssot st') = edges s) /\
  (forall changes st',
     run = (Ok changes, st') -> unique_ids s -> ~ is_node (st_ssot st') ref).
Proof.
  intros s ref run. subst run. unfold deleteNode. run_exec. fold s ref.
  split; [|split].
  - intros Hno. by rewrite (no_node_with_id s ref Hno).
  - intros (n & Hin & Hid) Hnone.
    destruct (list_find_elem_of (fun x => node_id x = ref) (nodes s) n Hin Hid)
      as [[i first] Hfind].
    rewrite Hfind. exists i, first.
    assert (filter (touches ref) (edges s) = []) as ->.
    { by apply filter_none. }
    simpl.
    destruct (cascade_set params); simpl; eexists; (split; [done|]);
      (split; [reflexivity|]); (split; [reflexivity|]); [|done].
    simpl. rewrite untouched_filter. by apply filter_all.
  - intros changes st'.
    destruct (list_find _ (nodes s)) as [[i node]|] eqn:Hfind; [|done].
    apply list_find_Some in Hfind as (Hi & Hid & _).
    assert (unique_ids s -> ref ∉ node_id <$> delete i (nodes s)) as Hgone.
    { intros Huniq. rewrite list_fmap_delete, <- Hid.
      apply NoDup_delete_gone; [exact Huniq|].
      by rewrite list_lookup_fmap, Hi. }
    case_bool_decide; destruct (cascade_set params); simpl;
      intros [= <- <-] Huniq; rewrite is_node_ids; simpl; by apply Hgone.
Qed.

Lemma deleteNode_without_edges_witness :
  let params := {| dn_node_ref := "N2"; dn_cascade := None |} in
  exists st',
    (deleteNode params "i1" (start_state Demo.graph)).2 = st' /\
    (node_id <$> nodes (st_ssot st')) = ["N1"; "R1"] /\
    edges (st_ssot st') = edges Demo.graph.
Proof.
  intros params.
  destruct (proj1 (proj2 (deleteNode_without_edges params "i1"
                            (start_state Demo.graph))))
    as (i & node & st' & Hfind & Hrun & Hnodes & Hedges).
  { exists (Demo.mk_node "N2" "Need"). split; [|reflexivity].
    simpl. apply list_elem_of_further, list_elem_of_here. }
  { simpl. intros e He. apply list_elem_of_singleton in He as ->.
    unfold touches. simpl. intros [Heq|Heq]; discriminate Heq. }
  exists st'. rewrite Hrun. split; [reflexivity|].
  rewrite Hnodes, Hedges. split; [|reflexivity].
  vm_compute in Hfind. injection Hfind as <- _. reflexivity.
Defined.

(** X9.  [addNeed] never throws and always appends one node of kind "Need"
    with the fresh uuid.  With a non-empty [expressed_by] it also appends
    the edge (actor, "expresses", new need) and returns two change records,
    and it does so without checking that the actor exists: if the actor is
    not a node, the graph that results has an edge that starts at no
    node. *)
Theorem addNeed_does_not_check_actor (env : ExecEnv) (params : AddNeedParams)
    (intentId : string) (st : ExecState) :
  let s := st_ssot st in
  let needId := uuidv4 env (st_uuids st) in
  exists need changes st',
    addNeed env params intentId st = (Ok changes, st') /\
    node_id need = needId /\ node_kind need = "Need" /\
    node_attrs need = need_attrs params /\
    nodes (st_ssot st') = nodes s ++ [need] /\
    (unchecked_actor params = None ->
     length changes = 1%nat /\ edges (st_ssot st') = edges s) /\
    (forall actor,
       unchecked_actor params = Some actor ->
       exists edge,
         length changes = 2%nat /\
         edges (st_ssot st') = edges s ++ [edge] /\
         edge_from edge = actor /\ edge_kind edge = "expresses" /\
         edge_to edge = needId /\
         (~ is_node s actor -> actor <> needId ->
          ~ edges_resolve (st_ssot st'))).
Proof.
  intros s needId. unfold addNeed, unchecked_actor. run_exec. fold s needId.
  exists {| node_id := needId; node_kind := "Need";
            node_attrs := need_attrs params;
            node_metadata :=
              Some (created_by_user_node (now env (st_dates st)) intentId) |}.
  destruct (need_expressed_by params) as [actor|]; simpl.
  - destruct (truthy_string actor); simpl.
    + eexists _, _. split; [reflexivity|]. simpl.
      do 4 (split; [reflexivity|]). split; [done|].
      intros a [= <-]. eexists. split; [reflexivity|].
      split; [reflexivity|]. do 3 (split; [reflexivity|]).
      intros Hno Hne Hres.
      destruct (Hres _ (proj2 (elem_of_app _ _ _)
                          (or_intror (list_elem_of_here _ _)))) as [Hfrom _].
      simpl in Hfrom. apply is_node_ids in Hfrom. simpl in Hfrom.
      rewrite fmap_app in Hfrom. apply elem_of_app in Hfrom as [Hin|Hin].
      * apply Hno. by apply is_node_ids.
      * simpl in Hin. apply list_elem_of_singleton in Hin. done.
    + eexists _, _. split; [reflexivity|]. simpl.
      do 4 (split; [reflexivity|]). split; [done | intros a [=]].
  - eexists _, _. split; [reflexivity|]. simpl.
    do 4 (split; [reflexivity|]). split; [done | intros a [=]].
Qed.

Lemma addNeed_does_not_check_actor_witness :
  let params := {| need_attrs := []; need_expressed_by := Some "ghost" |} in
  ~ edges_resolve
      (st_ssot (addNeed Demo.working_env params "i1"
                        (start_state Demo.graph)).2).
Proof.
  intros params.
  destruct (addNeed_does_not_check_actor Demo.working_env params "i1"
              (start_state Demo.graph))
    as (need & changes & st' & Hrun & _ & _ & _ & _ & _ & Hactor).
  destruct (Hactor "ghost" eq_refl) as (edge & _ & _ & _ & _ & _ & Hbroken).
  rewrite Hrun. simpl. apply Hbroken.
  - rewrite is_node_ids. simpl.
    refine (bool_decide_unpack ("ghost" ∉ ["N1"; "N2"; "R1"]) _).
    vm_compute. exact I.
  - simpl. discriminate.
Defined.

(** X10.  [addRequirementRefinement] is all or nothing.  If the first node
    with id [need_ref] is a Need, it appends one node of kind "Requirement"
    with the fresh uuid and the given attributes, and the edge (need_ref,
    "refinesTo", new requirement), and returns the two change records in
    that order.  If there is no such node, or it is not a Need, it throws
    "Need '...' not found" and the state is untouched. *)
Theorem addRequirementRefinement_all_or_nothing (env : ExecEnv)
    (params : AddRequirementRefinementParams) (intentId : string)
    (st : ExecState) :
  let s := st_ssot st in
  let ref := rr_need_ref params in
  let reqId := uuidv4 env (st_uuids st) in
  let run := addRequirementRefinement env params intentId st in
  (forall need,
     findNode s ref = Some need -> node_kind need = "Need" ->
     exists requirement edge st',
       run = (Ok [ {| change_type := node_added; change_target := reqId;
                      change_details := Some (KindDetails "Requirement") |};
                   {| change_type := edge_added;
                      change_target :=
                        ref +:+ "->" +:+ "refinesTo" +:+ "->" +:+ reqId;
                      change_details := Some (KindDetails "refinesTo") |} ],
              st') /\
       nodes (st_ssot st') = nodes s ++ [requirement] /\
       edges (st_ssot st') = edges s ++ [edge] /\
       node_id requirement = reqId /\
       node_kind requirement = "Requirement" /\
       node_attrs requirement = rr_requirement_attrs params /\
       edge_from edge = ref /\ edge_kind edge = "refinesTo" /\
       edge_to edge = reqId) /\
  (findNode s ref = None \/
   (exists other, findNode s ref = Some other /\ node_kind other <> "Need") ->
   run = (Throw ("Need '" +:+ ref +:+ "' not found"), st)).
Proof.
  intros s ref reqId run. subst run. unfold addRequirementRefinement.
  run_exec. fold s ref reqId. split.
  - intros need -> Hkind. rewrite bool_decide_eq_false_2 by (by intros ?).
    simpl. eexists _, _, _. split; [reflexivity|]. simpl.
    repeat (split; [reflexivity|]). reflexivity.
  - intros [-> | (other & -> & Hkind)]; [done|].
    by rewrite bool_decide_eq_true_2.
Qed.

Lemma addRequirementRefinement_all_or_nothing_witness :
  let ok := {| rr_need_ref := "N2"; rr_requirement_attrs := [] |} in
  let bad := {| rr_need_ref := "R1"; rr_requirement_attrs := [] |} in
  (exists st',
     (addRequirementRefinement Demo.working_env ok "i1"
        (start_state Demo.graph)).2 = st' /\
     length (nodes (st_ssot st')) = 4%nat /\
     length (edges (st_ssot st')) = 2%nat) /\
  addRequirementRefinement Demo.working_env bad "i1" (start_state Demo.graph)
    = (Throw "Need 'R1' not found", start_state Demo.graph).
Proof.
  intros ok bad. split.
  - destruct (proj1 (addRequirementRefinement_all_or_nothing Demo.working_env
                       ok "i1" (start_state Demo.graph))
                (Demo.mk_node "N2" "Need") eq_refl eq_refl)
      as (req & edge & st' & Hrun & Hnodes & Hedges & _).
    exists st'. rewrite Hrun. split; [reflexivity|].
    rewrite Hnodes, Hedges, !length_app. split; reflexivity.
  - apply (proj2 (addRequirementRefinement_all_or_nothing Demo.working_env
                    bad "i1" (start_state Demo.graph))).
    right. exists (Demo.mk_node "R1" "Requirement").
    split; [reflexivity | discriminate].
Defined.

Lemma plain_keys_add_node s n t :
  plain_keys (set_last_updated t (set_nodes (nodes s ++ [n]) s)) <->
  plain_keys s /\ inherited (node_kind n) = false.
Proof.
  unfold plain_keys. simpl. split.
  - intros [Hn He]. split; [split; [|done]|].
    + intros x Hx. apply Hn, elem_of_app. by left.
    + apply Hn, elem_of_app. right. apply list_elem_of_here.
  - intros [[Hn He] Hnew]. split; [|done].
    intros x Hx. apply elem_of_app in Hx as [Hx|Hx]; [by apply Hn|].
    by apply list_elem_of_singleton in Hx as ->.
Qed.

Lemma missing_applies schema s params paramName paramDef :
  param_required paramDef = true ->
  field paramName params = None ->
  (applicable schema s params paramName paramDef "MISSING_PARAMETER" <->
   inherited paramName = false).
Proof.
  intros Hreq Hfield.
  assert (get_member paramName params =
          if inherited paramName then InheritedMember paramName else NoMember)
    as Hget by (unfold get_member; by rewrite Hfield).
  split.
  - intros Happ.
    assert (~ present (get_member paramName params)) as Hno
      by (inversion Happ; done).
    rewrite Hget in Hno. destruct (inherited paramName); [|done].
    destruct Hno. by split.
  - intros Hplain. apply applicable_missing; [done|].
    rewrite Hget, Hplain. by intros [? _].
Qed.

(** X11.  Validation passes (it returns the empty list) exactly when the
    intent type has a definition in the catalog whose parameter list is
    present and either is empty or the payload is an object to which no
    error applies for any declared parameter.  A required parameter for
    which the payload has no entry of its own counts as missing unless its
    name is that of a member of [Object.prototype]: the lookup then finds
    the inherited member and nothing is reported. *)
Theorem validateIntent_passes_iff (schema : EffectiveSchema)
    (catalog : IntentCatalog) (intent : Intent) (s : SSoT) :
  (validateIntent schema catalog intent s = Ok [] <->
   exists intentDef entries,
     List.find (fun i => bool_decide (idef_id i = intent_type intent))
               (catalog_intents catalog) = Some intentDef /\
     idef_parameters intentDef = Some entries /\
     (entries = [] \/
      exists params,
        intent_params intent = PayloadObject params /\
        forall paramName paramDef code,
          (paramName, paramDef) ∈ entries ->
          ~ applicable schema s params paramName paramDef code)) /\
  (forall params paramName paramDef,
     param_required paramDef = true ->
     field paramName params = None ->
     (applicable schema s params paramName paramDef "MISSING_PARAMETER" <->
      inherited paramName = false)).
Proof.
  split; [|intros; by apply missing_applies].
  split.
  - intros Hnil.
    destruct (List.find (fun i => bool_decide (idef_id i = intent_type intent))
                        (catalog_intents catalog)) as [intentDef|] eqn:Hfind.
    2: { unfold validateIntent in Hnil. by rewrite Hfind in Hnil. }
    destruct (idef_parameters intentDef) as [entries|] eqn:Hentries.
    2: { unfold validateIntent in Hnil. by rewrite Hfind, Hentries in Hnil. }
    exists intentDef, entries. split; [done|]. split; [done|].
    destruct entries as [|entry rest]; [by left|]. right.
    destruct (intent_params intent) as [params| |] eqn:Hparams.
    2,3: unfold validateIntent in Hnil;
         rewrite Hfind, Hentries, Hparams in Hnil; by destruct entry.
    exists params. split; [done|]. intros paramName paramDef code Hin Happ.
    destruct (validateIntent_complete schema catalog intent s intentDef _
                params paramName paramDef code Hfind Hentries Hparams Hin Happ)
      as (errors & e & Hvalid & He & _).
    rewrite Hnil in Hvalid. injection Hvalid as <-.
    by apply elem_of_nil in He.
  - intros (intentDef & entries & Hfind & Hentries & [-> | Hnone]).
    + unfold validateIntent. by rewrite Hfind, Hentries.
    + destruct Hnone as (params & Hparams & Hnone).
      rewrite (validateIntent_Params schema catalog intent s intentDef entries
                 params Hfind Hentries Hparams).
      f_equal. apply elem_of_nil_inv. intros e He.
      apply list_elem_of_join in He as (errs & He & Herrs).
      apply list_elem_of_fmap in Herrs as ([paramName paramDef] & -> & Hin).
      apply validateParameter_sound in He as [Happ _].
      by apply (Hnone paramName paramDef (err_code e)).
Qed.

(** X12.  An I.AddNode intent that passes validation and whose payload has
    the shape of [AddNodeParams] (autosave and history off).  When every
    kind and edge endpoint of the graph, and the kind of the new node, can
    be indexed (none is named like a member of [Object.prototype]), the
    intent succeeds: the graph gains exactly one node, last in [nodes],
    whose id is the second uuid drawn in the call, whose kind and attributes
    are those of the payload (no attributes: the empty record), created "by
    user" at the second clock reading.  The node carries the [intent_id] of
    the caller's metadata when the caller supplied metadata, while the
    result always carries the id that the engine drew.  Otherwise the
    reindexing throws, and the call answers an execution failure with the
    graph rolled back. *)
Theorem execute_AddNode (schema : EffectiveSchema) (catalog : IntentCatalog)
    (options : IntentEngineOptions) (env : ExecEnv) (intent : Intent)
    (s : SSoT) (fields : Attrs) (params : AddNodeParams) :
  intent_type intent = "I.AddNode" ->
  validateIntent schema catalog intent s = Ok [] ->
  intent_params intent = PayloadObject fields ->
  as_AddNodeParams fields = Some params ->
  default false (autoSave options) = false ->
  history_enabled options = false ->
  let originating :=
    match intent_metadata intent with
    | Some md => im_intent_id md
    | None => uuidv4 env 0
    end in
  let node :=
    {| node_id := uuidv4 env 1;
       node_kind := an_kind params;
       node_attrs := default [] (an_attrs params);
       node_metadata := Some (created_by_user_node (now env 1) originating) |} in
  let indexable := plain_keys s /\ inherited (an_kind params) = false in
  (indexable ->
   exists s',
     execute schema catalog options env intent s =
       Some (Ok (execution_success (uuidv4 env 0)
                   [ {| change_type := node_added;
                        change_target := uuidv4 env 1;
                        change_details :=
                          Some (KindDetails (an_kind params)) |} ]),
             s', []) /\
     nodes s' = nodes s ++ [node] /\
     edges s' = edges s /\
     indexed s') /\
  (~ indexable ->
   exists message,
     execute schema catalog options env intent s =
       Some (Ok (execution_failure (uuidv4 env 0) message s), s, [])).
Proof.
  intros Hty Hvalid Hfields Hcast Hauto Hhist originating node indexable.
  unfold execute. rewrite validateIntent_with_metadata, Hvalid. simpl.
  unfold executeIntentType. rewrite with_metadata_type, Hty. simpl.
  unfold dispatch.
  assert (intent_params (with_metadata intent (uuidv4 env 0) (now env 0) s)
          = intent_params intent) as ->
    by (unfold with_metadata; by destruct (intent_metadata intent)).
  rewrite Hfields, Hcast. simpl.
  rewrite (try_block_in_memory options env _ _ _ _ _ Hauto Hhist).
  assert (exists md,
            intent_metadata
              (with_metadata intent (uuidv4 env 0) (now env 0) s) = Some md /\
            im_intent_id md = originating) as (md & -> & Hmd).
  { unfold with_metadata, originating.
    destruct (intent_metadata intent) as [md|] eqn:Hm; simpl;
      [exists md; by rewrite Hm | eexists; split; reflexivity]. }
  unfold addNode. run_exec. rewrite Hmd. fold node.
  pose proof (plain_keys_add_node s node (now env 0)) as Hplain.
  rewrite build_indexes_iff in Hplain.
  destruct (build_indexes (set_last_updated (now env 0)
                             (set_nodes (nodes s ++ [node]) s)))
    as [ix|m] eqn:Hix.
  - split.
    + intros _. eexists. split; [reflexivity|]. simpl.
      split; [done|]. split; [done|]. by apply indexed_set_indexes.
    + intros Hno. destruct Hno. apply Hplain. by eexists.
  - split.
    + intros Hyes. apply Hplain in Hyes as [? ?]. done.
    + intros _. exists m. by rewrite ssot_copy_id.
Qed.

Lemma execute_AddNode_witness :
  let intent :=
    {| intent_type := "I.AddNode";
       intent_params := PayloadObject [("kind", JStr "Need")];
       intent_metadata :=
         Some {| im_intent_id := "from-caller"; im_timestamp := "t";
                 im_user := None; im_source := Some src_ai;
                 im_collaboration_mode := None |} |} in
  exists r s',
    execute Demo.schema Demo.catalog Demo.in_memory Demo.working_env intent
            Demo.graph = Some (Ok r, s', []) /\
    res_intent_id r = "uuid-0" /\
    (nm_intent_id <$> (last (nodes s') ≫= node_metadata)) =
      Some (Some "from-caller").
Proof.
  intros intent.
  destruct (proj1 (execute_AddNode Demo.schema Demo.catalog Demo.in_memory
                     Demo.working_env intent Demo.graph
                     [("kind", JStr "Need")]
                     {| an_kind := "Need"; an_attrs := None |}
                     eq_refl eq_refl eq_refl eq_refl eq_refl eq_refl))
    as (s' & Hexec & Hnodes & _).
  { split; [|reflexivity]. apply build_indexes_iff. eexists.
    vm_compute. reflexivity. }
  eexists _, s'. split; [exact Hexec|]. split; [reflexivity|].
  rewrite Hnodes, last_snoc. reflexivity.
Defined.

(** The same intent for a node of kind "constructor", which this schema
    admits: the node is appended, the reindexing throws, and the graph is
    rolled back. *)
Example execute_AddNode_constructor :
  let schema :=
    {| schema_version := "1.0"; schema_source_profile := "nrvv";
       node_kinds := ["Need"; "constructor"]; edge_kinds := [];
       edge_definitions := ∅ |} in
  execute schema Demo.catalog Demo.in_memory Demo.working_env
          (Demo.mk_intent "I.AddNode" [("kind", JStr "constructor")])
          Demo.graph =
  Some (Ok (execution_failure "uuid-0"
              "byKind[node.kind].push is not a function" Demo.graph),
        Demo.graph, []).
Proof. vm_compute. reflexivity. Qed.

(** * Further properties of the criteria engine *)

(** ** The quality gate *)

(** X13.  [checkQualityGate] uses the gate passed to it and falls back to
    the stored one; without either it answers true.  With a gate it answers
    true exactly when every threshold that the baseline sets is met:
    [failed <= max_fail], [warned <= max_warn] and
    [quality_score >= min_quality_score].  The [delta] thresholds and the
    [exception] rules of the gate are never consulted. *)
Theorem checkQualityGate_thresholds (stored : option QualityGate)
    (evaluation : CriteriaEvaluation) (gate : option QualityGate) :
  (gate = None -> stored = None ->
   checkQualityGate stored evaluation gate = true) /\
  (forall g, gate = Some g \/ (gate = None /\ stored = Some g) ->
     (checkQualityGate stored evaluation gate = true <->
      (forall m, max_fail (baseline g) = Some m ->
                 (ev_failed evaluation <= m)%Z) /\
      (forall m, max_warn (baseline g) = Some m ->
                 (ev_warned evaluation <= m)%Z) /\
      (forall m, min_quality_score (baseline g) = Some m ->
                 (m <= sum_quality_score (ev_summary evaluation))%Z))) /\
  (forall g1 g2, baseline g1 = baseline g2 ->
     checkQualityGate stored evaluation (Some g1) =
     checkQualityGate stored evaluation (Some g2)).
Proof.
  split; [by intros -> ->|]. split.
  - intros g Hg.
    assert (checkQualityGate stored evaluation gate =
            checkQualityGate None evaluation (Some g)) as ->
      by (destruct Hg as [-> | [-> ->]]; reflexivity).
    unfold checkQualityGate.
    destruct (max_fail (baseline g)) as [mf|],
             (max_warn (baseline g)) as [mw|],
             (min_quality_score (baseline g)) as [mq|]; simpl;
      repeat match goal with
             | |- context [(?a <? ?b)%Z] => destruct (Z.ltb_spec a b)
             end;
      (split;
       [ try discriminate; intros _; repeat split; intros ? [= <-]; lia
       | try reflexivity;
         intros (Hmf & Hmw & Hmq);
         try specialize (Hmf _ eq_refl); try specialize (Hmw _ eq_refl);
         try specialize (Hmq _ eq_refl); lia ]).
  - intros g1 g2 Hb. unfold checkQualityGate. by rewrite Hb.
Qed.

Lemma checkQualityGate_thresholds_witness :
  let gate :=
    {| baseline := {| max_fail := Some 0%Z; max_warn := None;
                      min_quality_score := Some 90%Z |};
       delta := None;
       exception := Some [ {| exc_rule_id := "refined";
                              exc_reason := "accepted";
                              exc_expires_at := None |} ] |} in
  let ev :=
    (evaluate Demo.host
       [Demo.mk_rule "refined" FAIL "node" (Some (OneKind "Need"))
                     (Demo.connected_condition "refinesTo" None)]
       Demo.graph).1 in
  checkQualityGate None ev (Some gate) = false.
Proof.
  intros gate ev.
  destruct (checkQualityGate None ev (Some gate)) eqn:Hcheck; [|reflexivity].
  apply (proj1 (proj2 (checkQualityGate_thresholds None ev (Some gate)))
           gate (or_introl eq_refl)) in Hcheck as (Hfail & _).
  specialize (Hfail 0%Z eq_refl). vm_compute in Hfail. by destruct Hfail.
Defined.

(** ** Scores and counts *)

Lemma count_severity_nonneg sev ds : (0 <= count_severity sev ds)%Z.
Proof. unfold count_severity. lia. Qed.

(** X14.  The quality score of every evaluation lies between 0 and 100.  It
    is 100 exactly when there is no FAIL and no WARN diagnostic (INFO
    diagnostics do not lower it), and 0 exactly when the penalty
    [failed*10 + warned*2] reaches 100. *)
Theorem quality_score_range (host : JsHost) (rules : list CriteriaRule)
    (ssot : SSoT) :
  let ev := (evaluate host rules ssot).1 in
  let score := sum_quality_score (ev_summary ev) in
  (0 <= score <= 100)%Z /\
  (score = 100%Z <-> ev_failed ev = 0%Z /\ ev_warned ev = 0%Z) /\
  (score = 0%Z <-> (100 <= ev_failed ev * 10 + ev_warned ev * 2)%Z).
Proof.
  intros ev score.
  destruct (evaluate_counts host rules ssot)
    as (_ & _ & Hwarned & Hfailed & Hscore).
  fold ev in Hwarned, Hfailed, Hscore. fold score in Hscore.
  pose proof (count_severity_nonneg WARN (ev_diagnostics ev)) as Hw.
  pose proof (count_severity_nonneg FAIL (ev_diagnostics ev)) as Hf.
  rewrite <- Hwarned in Hw. rewrite <- Hfailed in Hf.
  unfold calculateQualityScore in Hscore.
  destruct (Z.eqb_spec (Z.of_nat (length rules)) 0) as [Hzero|Hpos].
  - assert (rules = []) as Hnil by (destruct rules; [done | simpl in Hzero; lia]).
    assert (ev_failed ev = 0%Z /\ ev_warned ev = 0%Z) as [Hf0 Hw0].
    { rewrite Hfailed, Hwarned. subst ev. rewrite Hnil.
      by rewrite evaluate_no_rules. }
    rewrite Hscore, Hf0, Hw0. lia.
  - rewrite Hscore. lia.
Qed.

(** X15.  Every diagnostic of an evaluation comes from a loaded rule and
    carries that rule's id and severity.  So if every loaded rule has
    severity INFO, the evaluation has [failed = 0], [warned = 0] and a score
    of 100, however many diagnostics it lists. *)
Theorem diagnostics_carry_rule_severity (host : JsHost)
    (rules : list CriteriaRule) (ssot : SSoT) :
  let ev := (evaluate host rules ssot).1 in
  (forall d, d ∈ ev_diagnostics ev ->
     exists rule, rule ∈ rules /\ diag_rule_id d = rule_id rule /\
                  diag_severity d = rule_severity rule) /\
  ((forall rule, rule ∈ rules -> rule_severity rule = INFO) ->
   ev_failed ev = 0%Z /\ ev_warned ev = 0%Z /\
   sum_quality_score (ev_summary ev) = 100%Z).
Proof.
  intros ev.
  assert (forall d, d ∈ ev_diagnostics ev ->
            exists rule, rule ∈ rules /\ diag_rule_id d = rule_id rule /\
                         diag_severity d = rule_severity rule) as Hfrom.
  { subst ev. rewrite evaluate_diagnostics. generalize 1%nat.
    induction rules as [|rule rest IH]; intros tick d Hd.
    - by apply elem_of_nil in Hd.
    - rewrite evaluateRules_cons in Hd. simpl in Hd.
      apply elem_of_app in Hd as [Hd|Hd].
      + exists rule. split; [apply list_elem_of_here|].
        unfold evaluateRule in Hd.
        destruct (checkRuleCondition host rule ssot) as [[vs|m] out];
          simpl in Hd; [|by apply elem_of_nil in Hd].
        apply list_elem_of_lookup in Hd as [i Hi].
        apply list_lookup_imap_Some in Hi as (v & _ & ->). done.
      + destruct (IH _ d Hd) as (r & Hr & Hids).
        exists r. split; [by apply list_elem_of_further | done]. }
  split; [exact Hfrom|]. intros Hinfo.
  destruct (evaluate_counts host rules ssot)
    as (_ & _ & Hwarned & Hfailed & Hscore).
  fold ev in Hwarned, Hfailed, Hscore.
  assert (forall sev, sev <> INFO ->
            count_severity sev (ev_diagnostics ev) = 0%Z) as Hzero.
  { intros sev Hsev. unfold count_severity.
    rewrite (filter_none (fun d => diag_severity d = sev)); [done|].
    intros d Hd Hdsev. destruct (Hfrom d Hd) as (r & Hr & _ & Hs).
    rewrite (Hinfo r Hr) in Hs. congruence. }
  rewrite Hzero in Hwarned, Hfailed by done.
  split; [done|]. split; [done|].
  rewrite Hscore, Hfailed, Hwarned. unfold calculateQualityScore.
  by destruct (Z.of_nat (length rules) =? 0)%Z.
Qed.

Lemma diagnostics_carry_rule_severity_witness :
  let rules :=
    [Demo.mk_rule "no-needs" INFO "node" (Some (OneKind "Need"))
                  (Demo.mk_condition "not_exists")] in
  let ev := (evaluate Demo.host rules Demo.graph).1 in
  length (ev_diagnostics ev) = 2%nat /\ ev_passed ev = (-1)%Z /\
  sum_quality_score (ev_summary ev) = 100%Z.
Proof.
  intros rules ev. split; [vm_compute; reflexivity|].
  split; [vm_compute; reflexivity|].
  refine (proj2 (proj2 (proj2 (diagnostics_carry_rule_severity Demo.host rules
                                 Demo.graph) _))).
  intros rule Hin. apply list_elem_of_singleton in Hin as ->. reflexivity.
Defined.

Lemma count_category_lookup (m : gmap string Tally) (rule : CriteriaRule)
    (c : string) :
  count_category m rule !! c =
  if decide (rule_category rule = c) then bump c (m !! c) else m !! c.
Proof.
  unfold count_category, bump.
  destruct (decide (rule_category rule = c)) as [->|Hne].
  - destruct (m !! c) as [[n|text]|] eqn:Hm.
    + by rewrite lookup_insert_eq.
    + destruct (truthy_string text); by rewrite lookup_insert_eq.
    + destruct (inherited c); [case_bool_decide|];
        by rewrite ?lookup_insert_eq.
  - destruct (m !! rule_category rule) as [[n|text]|].
    + by rewrite lookup_insert_ne.
    + destruct (truthy_string text); by rewrite lookup_insert_ne.
    + destruct (inherited (rule_category rule)); [case_bool_decide|];
        by rewrite ?lookup_insert_ne.
Qed.

Lemma count_category_fold (rules : list CriteriaRule) (m : gmap string Tally)
    (c : string) :
  foldl count_category m rules !! c =
  Nat.iter (length (filter (fun r => rule_category r = c) rules)) (bump c)
           (m !! c).
Proof.
  revert m. induction rules as [|rule rest IH]; intros m; [done|].
  simpl foldl. rewrite IH, count_category_lookup.
  destruct (decide (rule_category rule = c)) as [Heq|Hne].
  - rewrite filter_cons_True by done. simpl length.
    by rewrite Nat.iter_succ_r.
  - by rewrite filter_cons_False.
Qed.

Lemma truthy_member_text (name rest : string) :
  truthy_string (member_text name +:+ rest) = true.
Proof.
  unfold truthy_string, member_text.
  case_bool_decide as Hempty; [|done]. exfalso. revert Hempty.
  case_bool_decide; cbv [String.append]; discriminate.
Qed.

Lemma append_assoc (a b c : string) : (a +:+ b) +:+ c = a +:+ (b +:+ c).
Proof.
  induction a as [|x a IH]; [done|].
  change ((String x a +:+ b) +:+ c) with (String x ((a +:+ b) +:+ c)).
  change (String x a +:+ (b +:+ c)) with (String x (a +:+ (b +:+ c))).
  by rewrite IH.
Qed.

Lemma bump_counts (c : string) (n : nat) :
  inherited c = false ->
  Nat.iter (S n) (bump c) None = Some (TallyNum (Z.of_nat (S n))).
Proof.
  intros Hplain. induction n as [|n IH].
  - simpl. by rewrite Hplain.
  - rewrite Nat.iter_succ, IH. simpl bump. do 2 f_equal. lia.
Qed.

Lemma bump_joins (c : string) (n : nat) :
  inherited c = true -> c <> "__proto__" ->
  Nat.iter (S n) (bump c) None =
  Some (TallyText (member_text c +:+ ones (S n))).
Proof.
  intros Hinh Hne. induction n as [|n IH].
  - simpl. by rewrite Hinh, bool_decide_eq_false_2.
  - rewrite Nat.iter_succ, IH. simpl bump.
    rewrite truthy_member_text. do 2 f_equal.
    change (ones (S (S n))) with (ones (S n) +:+ "1").
    by rewrite append_assoc.
Qed.

Lemma bump_proto (n : nat) : Nat.iter n (bump "__proto__") None = None.
Proof. induction n as [|n IH]; [done|]. by rewrite Nat.iter_succ, IH. Qed.

(** X16.  The category breakdown of an evaluation counts rules, not
    diagnostics.  A category without a rule has no entry.  The entry of a
    category whose name is not that of a member of [Object.prototype] is the
    number of loaded rules of that category.  Under the name of such a
    member the first rule reads the inherited member, and the entry becomes
    a text: the member's text followed by one "1" per rule; under
    [__proto__] nothing is stored at all. *)
Theorem by_category_counts_rules (host : JsHost) (rules : list CriteriaRule)
    (ssot : SSoT) (category : string) :
  let ev := (evaluate host rules ssot).1 in
  let n := length (filter (fun r => rule_category r = category) rules) in
  let entry := sum_by_category (ev_summary ev) !! category in
  (n = 0%nat -> entry = None) /\
  (n <> 0%nat -> inherited category = false ->
   entry = Some (TallyNum (Z.of_nat n))) /\
  (n <> 0%nat -> inherited category = true ->
   entry = if bool_decide (category = "__proto__") then None
           else Some (TallyText (member_text category +:+ ones n))).
Proof.
  intros ev n entry. subst ev entry. unfold evaluate.
  destruct (evaluateRules host rules ssot 1) as [ds out]. simpl.
  rewrite count_category_fold, lookup_empty. fold n.
  split; [by intros ->|].
  destruct n as [|k]; [done|]. split.
  - intros _ Hplain. by apply bump_counts.
  - intros _ Hinh. case_bool_decide as Hproto.
    + subst category. apply bump_proto.
    + by apply bump_joins.
Qed.

Lemma by_category_counts_rules_witness :
  let rule c :=
    {| rule_id := c; rule_title := c; rule_description := "";
       rule_severity := WARN; rule_category := c;
       rule_target := {| target_type := "node"; target_kind := None;
                         target_selector := None |};
       rule_condition := Demo.mk_condition "exists";
       rule_message := ""; rule_why := None; rule_fix_hint := None |} in
  let rules := [rule "structure"; rule "toString"; rule "structure";
                rule "__proto__"; rule "toString"] in
  let by_category :=
    sum_by_category (ev_summary (evaluate Demo.host rules Demo.graph).1) in
  by_category !! "structure" = Some (TallyNum 2) /\
  by_category !! "toString" =
    Some (TallyText "function toString() { [native code] }11") /\
  by_category !! "__proto__" = None /\
  by_category !! "valueOf" = None.
Proof.
  intros rule rules by_category.
  pose proof (by_category_counts_rules Demo.host rules Demo.graph) as Hcount.
  split; [|split; [|split]].
  - apply (proj1 (proj2 (Hcount "structure"))); [discriminate|reflexivity].
  - apply (proj2 (proj2 (Hcount "toString"))); [discriminate|reflexivity].
  - apply (proj2 (proj2 (Hcount "__proto__"))); [discriminate|reflexivity].
  - apply (proj1 (Hcount "valueOf")). reflexivity.
Defined.

(** ** Targets *)

(** X17.  How the [kind] of a node target selects.  When it is absent or the
    empty string, every node is a target; a non-empty string selects the
    nodes of that kind; a list selects the nodes whose kind is in the list,
    so the empty list selects nothing.  Targets come in the order of
    [nodes], and each carries the id and kind of its node. *)
Theorem node_targets_by_kind (ssot : SSoT) (target : RuleTarget) :
  target_type target = "node" ->
  let targets := getTargets target ssot in
  (target_kind target = None \/ target_kind target = Some (OneKind "") ->
   (tn_data <$> targets) = (NodeData <$> nodes ssot)) /\
  (forall k, k <> "" -> target_kind target = Some (OneKind k) ->
   (tn_data <$> targets) =
     (NodeData <$> filter (fun n => node_kind n = k) (nodes ssot))) /\
  (forall ks, target_kind target = Some (KindList ks) ->
   (tn_data <$> targets) =
     (NodeData <$> filter (fun n => node_kind n ∈ ks) (nodes ssot))) /\
  (target_kind target = Some (KindList []) -> targets = []) /\
  (forall t, t ∈ targets ->
     exists n, n ∈ nodes ssot /\ tn_data t = NodeData n /\
               tn_id t = node_id n /\ tn_kind t = node_kind n).
Proof.
  intros Hty targets. subst targets. unfold getTargets. rewrite Hty. simpl.
  split; [|split; [|split; [|split]]].
  - intros [-> | ->]; simpl; by rewrite <- list_fmap_compose.
  - intros k Hk ->. simpl. unfold truthy_string.
    rewrite bool_decide_eq_false_2 by done. simpl.
    rewrite <- list_fmap_compose. f_equal.
    apply list_filter_iff. intros n. by rewrite list_elem_of_singleton.
  - intros ks ->. simpl. by rewrite <- list_fmap_compose.
  - intros ->. simpl. rewrite filter_none; [done|].
    intros n _ Hin. by apply elem_of_nil in Hin.
  - intros t Ht. apply list_elem_of_fmap in Ht as (n & -> & Hn).
    exists n. split; [|done].
    destruct (kind_given (target_kind target)); [|done].
    by apply list_elem_of_filter in Hn as [_ ?].
Qed.

Lemma node_targets_by_kind_witness :
  let all := {| target_type := "node"; target_kind := Some (OneKind "");
                target_selector := None |} in
  let none := {| target_type := "node"; target_kind := Some (KindList []);
                 target_selector := None |} in
  length (getTargets all Demo.graph) = 3%nat /\
  getTargets none Demo.graph = [].
Proof.
  intros all none. split.
  - pose proof (proj1 (node_targets_by_kind Demo.graph all eq_refl)
                  (or_intror eq_refl)) as Hall.
    apply (f_equal length) in Hall. by rewrite !length_fmap in Hall.
  - exact (proj1 (proj2 (proj2 (proj2
             (node_targets_by_kind Demo.graph none eq_refl)))) eq_refl).
Defined.

Lemma collect_violations_length f targets vs :
  collect_violations f targets = Ok vs ->
  (length vs <= length targets)%nat.
Proof.
  revert vs. induction targets as [|t ts IH]; intros vs; simpl.
  - intros [= <-]. done.
  - destruct (f t) as [v|m]; [|done].
    destruct (collect_violations f ts) as [vs'|m]; [|done].
    intros [= <-]. specialize (IH vs' eq_refl).
    rewrite length_app. destruct v; simpl; lia.
Qed.

(** X18.  How many diagnostics one rule can yield.  An [exists] or [count]
    rule yields at most one, whatever the number of targets; a [not_exists]
    rule yields exactly one per target; an [attribute] or [connected] rule
    yields at most one per target; any other rule yields none. *)
Theorem diagnostics_per_rule (host : JsHost) (rule : CriteriaRule)
    (ssot : SSoT) (tick : nat) :
  let type := cond_type (rule_condition rule) in
  let n := length (evaluateRule host rule ssot tick).1 in
  let targets := length (getTargets (rule_target rule) ssot) in
  (type = "exists" \/ type = "count" -> (n <= 1)%nat) /\
  (type = "not_exists" -> n = targets) /\
  (type = "attribute" \/ type = "connected" -> (n <= targets)%nat) /\
  (~ recognized type -> n = 0%nat).
Proof.
  intros type n targets. subst type n targets. unfold evaluateRule.
  split; [|split; [|split]].
  - intros [Hty | Hty]; unfold checkRuleCondition; rewrite Hty; simpl;
      rewrite length_imap; [case_bool_decide | case_match]; simpl; lia.
  - intros Hty. unfold checkRuleCondition. rewrite Hty. simpl.
    by rewrite length_imap, length_fmap.
  - intros [Hty | Hty]; unfold checkRuleCondition; rewrite Hty; simpl.
    + destruct (collect_violations _ _) as [vs|m] eqn:Hc; simpl; [|lia].
      rewrite length_imap. by eapply collect_violations_length.
    + destruct (collect_violations _ _) as [vs|m] eqn:Hc; simpl; [|lia].
      rewrite length_imap. by eapply collect_violations_length.
  - intros Hun. by rewrite (checkRuleCondition_unrecognized host rule ssot Hun).
Qed.

Lemma diagnostics_per_rule_witness :
  length (evaluateRule Demo.host
            (Demo.mk_rule "no-needs" WARN "node" (Some (OneKind "Need"))
                          (Demo.mk_condition "not_exists"))
            Demo.graph 1).1 = 2%nat.
Proof.
  rewrite (proj1 (proj2 (diagnostics_per_rule Demo.host
             (Demo.mk_rule "no-needs" WARN "node" (Some (OneKind "Need"))
                           (Demo.mk_condition "not_exists"))
             Demo.graph 1)) eq_refl).
  reflexivity.
Defined.

(** ** The [connected] condition and the indexes *)

Lemma connectedEdges_indexed s id k :
  indexed s ->
  connectedEdges s id (Some k) =
  if inherited id then
    Throw "ssot.indexes?.outgoing_edges?.[nodeId]?.filter is not a function"
  else Ok (filter (fun e => edge_from e = id /\ edge_kind e = k) (edges s)).
Proof.
  intros (ix & Hbuild & Hix).
  destruct (build_indexes_Ok s ix Hbuild)
    as (byKind & out & inc & -> & _ & Hout & _ & _ & Hplain).
  unfold connectedEdges. rewrite Hix. simpl. rewrite Hout.
  assert (forall es : list Edge,
            filter (fun e => Some (edge_kind e) = Some k)
                   (filter (fun e => edge_from e = id) es) =
            filter (fun e => edge_from e = id /\ edge_kind e = k) es) as Hff.
  { intros es. rewrite list_filter_filter. apply list_filter_iff.
    intros e. split; [intros [[= ?] ?]; done | intros [? ->]; done]. }
  destruct (filter (fun e => edge_from e = id) (edges s)) as [|e es] eqn:Hf;
    simpl.
  - destruct (inherited id); [done|]. by rewrite <- Hff, Hf.
  - assert (e ∈ filter (fun e => edge_from e = id) (edges s)) as He
      by (rewrite Hf; apply list_elem_of_here).
    apply list_elem_of_filter in He as [Hfrom He].
    destruct (Hplain e He) as [Hplain_from _]. rewrite Hfrom in Hplain_from.
    by rewrite Hplain_from, <- Hff, Hf.
Qed.

(** X19.  On a graph whose indexes are the projection of its edges, the
    edges that the [connected] condition counts for a node are exactly the
    edges of the graph that start at the node and have the asked kind,
    unless the id of the node is the name of a member of
    [Object.prototype]: the index then has no entry of its own under that
    name, the lookup finds the inherited member, and the condition throws.
    This is the case for the graph left by any successful [execute]. *)
Theorem connected_counts_the_edges (schema : EffectiveSchema)
    (catalog : IntentCatalog) (options : IntentEngineOptions) (env : ExecEnv)
    (intent : Intent) (s : SSoT) (r : IntentResult) (s' : SSoT)
    (io : list IOEvent) :
  execute schema catalog options env intent s = Some (Ok r, s', io) ->
  res_success r = true ->
  forall id kind,
    connectedEdges s' id (Some kind) =
    if inherited id then
      Throw "ssot.indexes?.outgoing_edges?.[nodeId]?.filter is not a function"
    else
      Ok (filter (fun e => edge_from e = id /\ edge_kind e = kind) (edges s')).
Proof.
  intros Hexec Hok id kind. apply connectedEdges_indexed.
  destruct (execute_cases schema catalog options env intent s r s' io Hexec)
    as [(errors & _ & _ & -> & _)
       | [(_ & u & mutated & _ & _ & Hend) | (_ & m & -> & _)]];
    try discriminate Hok.
  destruct Hend as [(changes & ix & _ & Hix & -> & _) | (m & -> & _)];
    [by apply indexed_set_indexes | discriminate Hok].
Qed.

Lemma connected_counts_the_edges_witness :
  match execute Demo.schema Demo.catalog Demo.in_memory Demo.working_env
          (Demo.mk_intent "I.AddEdge"
             [("from_ref", JStr "N2"); ("edge_kind", JStr "refinesTo");
              ("to_ref", JStr "R1")]) Demo.graph with
  | Some (Ok _, s', _) =>
      (exists counted,
         connectedEdges s' "N2" (Some "refinesTo") = Ok counted /\
         length counted = 1%nat) /\
      exists message,
        connectedEdges s' "valueOf" (Some "refinesTo") = Throw message
  | _ => False
  end.
Proof.
  destruct (execute Demo.schema Demo.catalog Demo.in_memory Demo.working_env
              (Demo.mk_intent "I.AddEdge"
                 [("from_ref", JStr "N2"); ("edge_kind", JStr "refinesTo");
                  ("to_ref", JStr "R1")]) Demo.graph)
    as [[[[r|m] s'] io]|] eqn:Hexec;
    [|vm_compute in Hexec; discriminate Hexec
     |vm_compute in Hexec; discriminate Hexec].
  pose proof (connected_counts_the_edges _ _ _ _ _ _ _ _ _ Hexec) as Hcount.
  vm_compute in Hexec. injection Hexec as <- <- <-.
  specialize (Hcount eq_refl). split.
  - eexists. split; [exact (Hcount "N2" "refinesTo")|].
    vm_compute. reflexivity.
  - eexists. exact (Hcount "valueOf" "refinesTo").
Defined.

Lemma collect_violations_all (f : TargetNode -> Result (option RuleViolation))
    (g : TargetNode -> RuleViolation) (targets : list TargetNode) :
  (forall t, t ∈ targets -> f t = Ok (Some (g t))) ->
  collect_violations f targets = Ok (g <$> targets).
Proof.
  induction targets as [|t ts IH]; intros Hall; [done|].
  simpl. rewrite (Hall t) by apply list_elem_of_here.
  rewrite IH; [done|]. intros y Hy. apply Hall. by apply list_elem_of_further.
Qed.

(** X20.  The criteria engine reads the outgoing-edge index and never builds
    it.  On a graph document that carries no indexes, a [connected] rule
    whose [min] is unset or not negative therefore reports every one of its
    targets, with 0 edges observed, whatever edges the graph has. *)
Theorem connected_without_indexes (host : JsHost) (rule : CriteriaRule)
    (ssot : SSoT) :
  cond_type (rule_condition rule) = "connected" ->
  indexes ssot = None ->
  (forall m, cond_min (rule_condition rule) = Some m -> (0 <= m)%Z) ->
  exists violations,
    checkRuleCondition host rule ssot = (Ok violations, []) /\
    (v_target_ref <$> violations) =
      ((fun t => Some (tn_id t)) <$> getTargets (rule_target rule) ssot) /\
    Forall (fun v => v_actual_value v = Some (JNum 0)) violations.
Proof.
  intros Hty Hnone Hmin.
  rewrite (checkRuleCondition_connected host rule ssot Hty).
  assert (0 < min_or_1 (cond_min (rule_condition rule)))%Z as Hpos.
  { unfold min_or_1. destruct (cond_min (rule_condition rule)) as [m|];
      [|done].
    specialize (Hmin m eq_refl). destruct (Z.eqb_spec m 0); lia. }
  rewrite (collect_violations_all _
             (fun t => {| v_target_ref := Some (tn_id t);
                          v_target_kind := Some (tn_kind t);
                          v_evidence_anchors := [tn_id t];
                          v_actual_value := Some (JNum 0);
                          v_expected_value :=
                            Some (JStr (">=" +:+
                              pretty (min_or_1 (cond_min (rule_condition rule)))
                              +:+ " " +:+
                              from_option id "undefined"
                                (cond_edge_kind (rule_condition rule))
                              +:+ " edges")) |})).
  - eexists. split; [reflexivity|].
    split; [by rewrite <- list_fmap_compose|].
    apply Forall_fmap, Forall_forall. done.
  - intros t _.
    assert (connectedEdges ssot (tn_id t)
              (cond_edge_kind (rule_condition rule)) = Ok []) as Hcount
      by (unfold connectedEdges; by rewrite Hnone).
    unfold checkConnectedCondition. rewrite Hcount.
    change (Z.of_nat (length (@nil Edge))) with 0%Z.
    by rewrite (proj2 (Z.ltb_lt _ _) Hpos).
Qed.

Lemma connected_without_indexes_witness :
  let bare := set_indexes None Demo.graph in
  let rule :=
    Demo.mk_rule "refined" FAIL "node" (Some (OneKind "Need"))
                 (Demo.connected_condition "refinesTo" None) in
  exists violations,
    (checkRuleCondition Demo.host rule bare).1 = Ok violations /\
    (v_target_ref <$> violations) = [Some "N1"; Some "N2"].
Proof.
  intros bare rule.
  destruct (connected_without_indexes Demo.host rule bare eq_refl eq_refl)
    as (violations & Hrun & Hrefs & _); [intros m [=]|].
  exists violations. rewrite Hrun. split; [reflexivity|].
  rewrite Hrefs. reflexivity.
Defined.

(** ** The [attribute] condition *)

(** X21.  An [attribute] rule without a [path] throws as soon as it has a
    target, and the rule then yields no diagnostic and one console error;
    with no target at all nothing is thrown and nothing is reported. *)
Theorem attribute_without_path (host : JsHost) (rule : CriteriaRule)
    (ssot : SSoT) (tick : nat) :
  cond_type (rule_condition rule) = "attribute" ->
  cond_path (rule_condition rule) = None ->
  (getTargets (rule_target rule) ssot = [] ->
   evaluateRule host rule ssot tick = ([], [])) /\
  (getTargets (rule_target rule) ssot <> [] ->
   evaluateRule host rule ssot tick =
   ([], [ConsoleError ("Failed to evaluate rule " +:+ rule_id rule +:+ ":")
           "Cannot read properties of undefined (reading 'split')"])).
Proof.
  intros Hty Hpath. unfold evaluateRule, checkRuleCondition.
  rewrite Hty. simpl. split.
  - intros ->. reflexivity.
  - destruct (getTargets (rule_target rule) ssot) as [|t ts]; [done|].
    intros _. simpl. unfold checkAttributeCondition. by rewrite Hpath.
Qed.

Lemma attribute_without_path_witness :
  (evaluateRule Demo.host
     (Demo.mk_rule "broken" FAIL "node" (Some (OneKind "Actor"))
                   (Demo.mk_condition "attribute")) Demo.graph 1) = ([], []).
Proof.
  apply (proj1 (attribute_without_path Demo.host
                  (Demo.mk_rule "broken" FAIL "node" (Some (OneKind "Actor"))
                                (Demo.mk_condition "attribute"))
                  Demo.graph 1 eq_refl eq_refl)).
  reflexivity.
Defined.

Lemma unknown_operator_cases operator :
  ~ known_operator operator ->
  operator <> "eq" /\ operator <> "ne" /\ operator <> "gt" /\
  operator <> "gte" /\ operator <> "lt" /\ operator <> "lte" /\
  operator <> "in" /\ operator <> "not_in" /\ operator <> "matches" /\
  operator <> "not_matches".
Proof.
  unfold known_operator. rewrite !elem_of_cons, elem_of_nil.
  intros Hun. repeat split; intros ->; apply Hun; auto 12.
Qed.

(** X22.  What [compareValues] answers at its edges.  An operator outside
    the ten it implements compares as false.  [in] and [not_in] are each
    other's negation only when the expected value is an array; otherwise
    both are false.  Likewise [matches] and [not_matches] are both false
    when the expected value is not a string.  [eq], [ne], [in], [not_in]
    and the operators that are not implemented never throw; [gt], [gte],
    [lt] and [lte] answer what the comparison of JavaScript answers, which
    throws when an operand is an object that cannot be converted to a
    primitive value.  Hence an [attribute] rule with a path and an unknown
    operator reports every target. *)
Theorem compareValues_edges (host : JsHost) (actual expected : JSAny) :
  (forall operator, ~ known_operator operator ->
     compareValues host actual expected operator = Ok false) /\
  (as_array expected = None ->
   compareValues host actual expected "in" = Ok false /\
   compareValues host actual expected "not_in" = Ok false) /\
  (forall items, expected = Some (JArr items) ->
     exists b, compareValues host actual expected "in" = Ok b /\
               compareValues host actual expected "not_in" = Ok (negb b)) /\
  (as_string expected = None ->
   compareValues host actual expected "matches" = Ok false /\
   compareValues host actual expected "not_matches" = Ok false) /\
  (forall operator,
     operator ∉ ["gt"; "gte"; "lt"; "lte"; "matches"; "not_matches"] ->
     exists b, compareValues host actual expected operator = Ok b) /\
  (compareValues host actual expected "gt" = js_gt host actual expected /\
   compareValues host actual expected "gte" = js_gte host actual expected /\
   compareValues host actual expected "lt" = js_lt host actual expected /\
   compareValues host actual expected "lte" = js_lte host actual expected) /\
  (forall rule ssot operator path,
     cond_type (rule_condition rule) = "attribute" ->
     cond_path (rule_condition rule) = Some path ->
     cond_operator (rule_condition rule) = Some operator ->
     operator <> "" -> ~ known_operator operator ->
     exists violations,
       checkRuleCondition host rule ssot = (Ok violations, []) /\
       (v_target_ref <$> violations) =
         ((fun t => Some (tn_id t)) <$> getTargets (rule_target rule) ssot)).
Proof.
  assert (forall a e operator, ~ known_operator operator ->
            compareValues host a e operator = Ok false) as Hunknown.
  { intros a e operator Hun.
    destruct (unknown_operator_cases operator Hun)
      as (? & ? & ? & ? & ? & ? & ? & ? & ? & ?).
    unfold compareValues. by rewrite !bool_decide_eq_false_2 by done. }
  split; [apply Hunknown|]. split; [|split; [|split; [|split; [|split]]]].
  - intros Harr. unfold compareValues, array_includes. simpl.
    by destruct expected as [[]|].
  - intros items ->. eexists. unfold compareValues. simpl. done.
  - intros Hstr. unfold compareValues. simpl. by destruct expected as [[]|].
  - intros operator Hnot. rewrite !not_elem_of_cons in Hnot.
    destruct Hnot as (? & ? & ? & ? & ? & ? & _). unfold compareValues.
    rewrite (bool_decide_eq_false_2 (operator = "gt")),
            (bool_decide_eq_false_2 (operator = "gte")),
            (bool_decide_eq_false_2 (operator = "lt")),
            (bool_decide_eq_false_2 (operator = "lte")),
            (bool_decide_eq_false_2 (operator = "matches")),
            (bool_decide_eq_false_2 (operator = "not_matches")) by done.
    repeat (case_bool_decide; [by eexists|]). by eexists.
  - done.
  - intros rule ssot operator path Hty Hpath Hop Hne Hun.
    unfold checkRuleCondition. rewrite Hty. simpl.
    assert (forall t,
              checkAttributeCondition host t (rule_condition rule) rule =
              Ok (Some {| v_target_ref := Some (tn_id t);
                          v_target_kind := Some (tn_kind t);
                          v_evidence_anchors := [tn_id t];
                          v_actual_value :=
                            getNestedValue host (target_attrs (tn_data t)) path;
                          v_expected_value :=
                            cond_value (rule_condition rule) |})) as Hcheck.
    { intros t. unfold checkAttributeCondition. rewrite Hpath, Hop.
      unfold or_string, truthy_string.
      rewrite bool_decide_eq_false_2 by done. simpl.
      by rewrite Hunknown. }
    induction (getTargets (rule_target rule) ssot) as [|t ts IH].
    + by exists [].
    + destruct IH as (vs & Hvs & Hrefs). simpl. rewrite Hcheck.
      injection Hvs as ->. eexists. split; [reflexivity|].
      cbn [from_option]. rewrite fmap_app, Hrefs. reflexivity.
Qed.

Lemma compareValues_edges_witness :
  (compareValues Demo.host (Some (JNum 1)) (Some (JNum 1)) "in" = Ok false /\
   compareValues Demo.host (Some (JNum 1)) (Some (JNum 1)) "not_in"
     = Ok false) /\
  compareValues Demo.host (Some (JObj [("toString", JNum 1)])) (Some (JNum 1))
                "gt" = Throw "Cannot convert object to primitive value".
Proof.
  split.
  - exact (proj1 (proj2 (compareValues_edges Demo.host (Some (JNum 1))
                           (Some (JNum 1)))) eq_refl).
  - destruct (compareValues_edges Demo.host
                (Some (JObj [("toString", JNum 1)])) (Some (JNum 1)))
      as (_ & _ & _ & _ & _ & [Hgt _] & _).
    rewrite Hgt. reflexivity.
Defined.

(** * Properties of the core helpers *)

(** X23.  [mapSeverityToLegacy] and [mapLegacySeverityToStandard] are
    inverse to each other: whenever one returns, the other maps the result
    back to the input.  The first returns exactly on "error", "warning" and
    "info", the second exactly on "ERROR", "WARN" and "INFO"; on any other
    string each throws, naming the value. *)
Theorem severity_round_trip (standard legacy : string) :
  (mapSeverityToLegacy standard = Ok legacy <->
   mapLegacySeverityToStandard legacy = Ok standard) /\
  (standard ∈ ["error"; "warning"; "info"] <->
   exists l, mapSeverityToLegacy standard = Ok l) /\
  (legacy ∈ ["ERROR"; "WARN"; "INFO"] <->
   exists s, mapLegacySeverityToStandard legacy = Ok s) /\
  (standard ∉ ["error"; "warning"; "info"] ->
   mapSeverityToLegacy standard =
   Throw ("Unknown severity value: " +:+ standard)) /\
  (legacy ∉ ["ERROR"; "WARN"; "INFO"] ->
   mapLegacySeverityToStandard legacy =
   Throw ("Unknown legacy severity value: " +:+ legacy)).
Proof.
  unfold mapSeverityToLegacy, mapLegacySeverityToStandard.
  rewrite !elem_of_cons, !elem_of_nil.
  split; [|split; [|split; [|split]]].
  - split; repeat case_bool_decide; subst; intros [=]; subst;
      repeat case_bool_decide; done.
  - split.
    + intros [-> | [-> | [-> | []]]]; eexists; reflexivity.
    + intros [l Hl]. repeat case_bool_decide; auto. discriminate Hl.
  - split.
    + intros [-> | [-> | [-> | []]]]; eexists; reflexivity.
    + intros [l Hl]. repeat case_bool_decide; auto. discriminate Hl.
  - intros Hno. repeat case_bool_decide; subst; try done; exfalso; auto.
  - intros Hno. repeat case_bool_decide; subst; try done; exfalso; auto.
Qed.

(** X24.  [mergePhaseRules] returns the default rules of the plugin (none:
    the empty record) when no phase is active, when the phase name is empty,
    when the plugin has no phases, or when it has none of that name.
    Otherwise a rule has the severity that the phase gives it, and the
    default severity when the phase does not mention it. *)
Theorem mergePhaseRules_override (config : PluginConfig)
    (activePhase : option string) (ruleId : string) :
  let defaults := default ∅ (pc_rules config) in
  let active :=
    match activePhase with
    | Some phase =>
        if bool_decide (phase = "") then None
        else pc_phases config ≫= (fun phases => phases !! phase)
    | None => None
    end in
  (active = None -> mergePhaseRules config activePhase = defaults) /\
  (forall phaseConfig, active = Some phaseConfig ->
     mergePhaseRules config activePhase !! ruleId =
     match phase_rules phaseConfig !! ruleId with
     | Some severity => Some severity
     | None => defaults !! ruleId
     end).
Proof.
  intros defaults active. subst active. unfold mergePhaseRules, truthy_string.
  fold defaults. destruct activePhase as [phase|]; [|by split].
  case_bool_decide; simpl; [by split|].
  destruct (pc_phases config) as [phases|]; simpl; [|by split].
  destruct (phases !! phase) as [phaseConfig|]; [|by split].
  split; [done|]. intros ? [= <-]. rewrite lookup_union.
  destruct (phase_rules phaseConfig !! ruleId), (defaults !! ruleId); done.
Qed.

Lemma mergePhaseRules_override_witness :
  let config :=
    {| pc_enabled := None; pc_profile := None;
       pc_rules := Some (<["R1" := "warn"]> (<["R2" := "error"]> ∅));
       pc_phases :=
         Some (<["Production" :=
                   {| phase_rules := <["R1" := "error"]> ∅ |}]> ∅) |} in
  mergePhaseRules config (Some "Production") !! "R1" = Some "error" /\
  mergePhaseRules config (Some "Production") !! "R2" = Some "error" /\
  mergePhaseRules config (Some "Development") !! "R1" = Some "warn".
Proof.
  intros config.
  split; [|split].
  - rewrite (proj2 (mergePhaseRules_override config (Some "Production") "R1")
               {| phase_rules := <["R1" := "error"]> ∅ |});
      [reflexivity | vm_compute; reflexivity].
  - rewrite (proj2 (mergePhaseRules_override config (Some "Production") "R2")
               {| phase_rules := <["R1" := "error"]> ∅ |});
      [reflexivity | vm_compute; reflexivity].
  - rewrite (proj1 (mergePhaseRules_override config (Some "Development") "R1"));
      [reflexivity | vm_compute; reflexivity].
Defined.

(** * Properties of loading the rules *)

Lemma substring_all (s : string) :
  String.substring 0 (String.length s) s = s.
Proof. induction s as [|c s IH]; simpl; [done | by rewrite IH]. Qed.

Lemma substring_suffix (stem suffix : string) :
  String.substring (String.length stem) (String.length suffix)
                   (stem +:+ suffix) = suffix.
Proof. induction stem as [|c stem IH]; simpl; [apply substring_all | done]. Qed.

Lemma length_append (a b : string) :
  String.length (a +:+ b) = String.length a + String.length b.
Proof. induction a as [|c a IH]; simpl; [done | by rewrite IH]. Qed.

Lemma substring_split (s : string) (k : nat) :
  k <= String.length s ->
  s = String.substring 0 k s +:+ String.substring k (String.length s - k) s.
Proof.
  revert k. induction s as [|c s IH]; intros k Hk; simpl in *.
  - by destruct k.
  - destruct k as [|k]; simpl.
    + by rewrite substring_all.
    + change (String c s =
              String c (String.substring 0 k s +:+
                        String.substring k (String.length s - k) s)).
      f_equal. apply IH. lia.
Qed.

Lemma ends_with_iff (suffix s : string) :
  ends_with suffix s = true <-> exists stem, s = stem +:+ suffix.
Proof.
  unfold ends_with. rewrite andb_true_iff, Nat.leb_le, bool_decide_eq_true.
  split.
  - intros [Hle Hsub].
    exists (String.substring 0 (String.length s - String.length suffix) s).
    pose proof (substring_split s (String.length s - String.length suffix))
      as Hsplit.
    replace (String.length s - (String.length s - String.length suffix))
      with (String.length suffix) in Hsplit by lia.
    rewrite Hsub in Hsplit. apply Hsplit. lia.
  - intros [stem ->]. rewrite length_append. split; [lia|].
    replace (String.length stem + String.length suffix - String.length suffix)
      with (String.length stem) by lia.
    apply substring_suffix.
Qed.

Lemma is_yaml_iff (f : string) : is_yaml f = true <-> yaml_name f.
Proof.
  unfold is_yaml, yaml_name. rewrite orb_true_iff, !ends_with_iff.
  split.
  - intros [[stem ->] | [stem ->]]; exists stem; auto.
  - intros [stem [-> | ->]]; [left | right]; by exists stem.
Qed.

Lemma loaded_app docs before after :
  loaded docs (before ++ after) = loaded docs before ++ loaded docs after.
Proof. unfold loaded. by rewrite bind_app. Qed.

Lemma loaded_cons docs f files :
  loaded docs (f :: files) = default [] (docs f) ++ loaded docs files.
Proof. reflexivity. Qed.

Lemma load_catch_caught dir error rules :
  caught dir error rules (load_catch dir error rules).
Proof.
  unfold caught, load_catch. case_bool_decide; simpl; split; try done.
Qed.

Section LoadFacts.

Variable renv : RulesEnv.
Variable dir : string.

Lemma load_files_all docs files rules :
  (forall f, f ∈ files ->
     read_rules renv (rules_path_join renv dir f) = inr (docs f)) ->
  load_files renv dir files rules =
  {| load_thrown := None; load_rules := rules ++ loaded docs files;
     load_console := [] |}.
Proof.
  revert rules. induction files as [|f files IH]; intros rules Hread.
  - unfold loaded. simpl. by rewrite app_nil_r.
  - rewrite loaded_cons. cbn [load_files].
    rewrite (Hread f) by apply list_elem_of_here.
    destruct (docs f) as [docRules|]; cbn [default];
      rewrite IH by (intros; apply Hread; by apply list_elem_of_further).
    + by rewrite app_assoc.
    + done.
Qed.

Lemma load_files_error docs before bad after rules error :
  (forall f, f ∈ before ->
     read_rules renv (rules_path_join renv dir f) = inr (docs f)) ->
  read_rules renv (rules_path_join renv dir bad) = inl error ->
  load_files renv dir (before ++ bad :: after) rules =
  load_catch dir error (rules ++ loaded docs before).
Proof.
  revert rules. induction before as [|f before IH]; intros rules Hread Hbad.
  - simpl. rewrite Hbad. unfold loaded. simpl. by rewrite app_nil_r.
  - rewrite loaded_cons, <- app_comm_cons. cbn [load_files].
    rewrite (Hread f) by apply list_elem_of_here.
    destruct (docs f) as [docRules|]; cbn [default];
      rewrite IH by
        (try done; intros; apply Hread; by apply list_elem_of_further).
    + by rewrite app_assoc.
    + done.
Qed.

End LoadFacts.

Lemma loadRules_all renv options rules files docs :
  readdir renv (criteriaDir options) = inr files ->
  (forall f, f ∈ files -> yaml_name f ->
     read_rules renv (rules_path_join renv (criteriaDir options) f) =
     inr (docs f)) ->
  loadRules renv options rules =
  {| load_thrown := None;
     load_rules := rules ++ loaded docs (List.filter is_yaml files);
     load_console := [] |}.
Proof.
  intros Hdir Hread. unfold loadRules. rewrite Hdir.
  apply load_files_all. intros f Hf.
  apply list_elem_of_In, List.filter_In in Hf as [Hf Hyaml].
  apply Hread; [by apply list_elem_of_In | by apply is_yaml_iff].
Qed.

(** X25.  [loadRules] reads the files of the criteria directory whose name
    ends in ".yaml" or ".yml", and no other: when each of these can be read
    and parsed, nothing is thrown or printed, and the rules of the documents
    are appended to the loaded rules file by file, in the order of the
    directory listing; a document without [rules] contributes nothing.
    [initialize] does the same unless [autoLoad] is [false], when it leaves
    the rules alone and reads nothing. *)
Theorem loadRules_reads_yaml_files (renv : RulesEnv)
    (options : CriteriaEngineOptions) (rules : list CriteriaRule)
    (files : list string) (docs : string -> option (list CriteriaRule)) :
  readdir renv (criteriaDir options) = inr files ->
  (forall f, f ∈ files -> yaml_name f ->
     read_rules renv (rules_path_join renv (criteriaDir options) f) =
     inr (docs f)) ->
  let outcome := loadRules renv options rules in
  let yamlFiles := List.filter is_yaml files in
  load_thrown outcome = None /\ load_console outcome = [] /\
  load_rules outcome = rules ++ loaded docs yamlFiles /\
  (forall f, f ∈ yamlFiles <-> f ∈ files /\ yaml_name f) /\
  yamlFiles `sublist_of` files /\
  criteria_initialize renv options rules =
    (if bool_decide (autoLoad options = Some false)
     then {| load_thrown := None; load_rules := rules; load_console := [] |}
     else outcome).
Proof.
  intros Hdir Hread outcome yamlFiles. subst outcome yamlFiles.
  rewrite (loadRules_all _ _ _ _ _ Hdir Hread). simpl.
  split; [done|]. split; [done|]. split; [done|]. split; [|split].
  - intros f. rewrite <- is_yaml_iff, !list_elem_of_In.
    apply List.filter_In.
  - clear. induction files as [|f files IH]; simpl; [constructor|].
    destruct (is_yaml f); by constructor.
  - unfold criteria_initialize.
    rewrite (loadRules_all _ _ _ _ _ Hdir Hread).
    destruct (autoLoad options) as [[]|]; done.
Qed.

Lemma loadRules_reads_yaml_files_witness :
  load_rules
    (loadRules (Demo.rules_env (inr (Some [Demo.no_requirement])))
               Demo.criteria_options []) =
  [Demo.unrefined_need; Demo.no_requirement].
Proof.
  pose proof (loadRules_reads_yaml_files
                (Demo.rules_env (inr (Some [Demo.no_requirement])))
                Demo.criteria_options []
                ["a.yaml"; "README.md"; "b.yml"; "c.yaml"; "yaml"]
                Demo.rule_documents) as Hload.
  cbv zeta in Hload.
  destruct Hload as (_ & _ & Hrules & _).
  - vm_compute. reflexivity.
  - intros f Hf Hyaml. apply is_yaml_iff in Hyaml.
    rewrite !elem_of_cons, elem_of_nil in Hf.
    destruct Hf as [-> | [-> | [-> | [-> | [-> | []]]]]];
      first [ vm_compute in Hyaml; discriminate Hyaml
            | vm_compute; reflexivity ].
  - rewrite Hrules. vm_compute. reflexivity.
Defined.

(** X26.  The first error ends the load.  When the directory cannot be
    listed, or when one of the YAML files cannot be read or parsed, the
    files after it are not read, and the rules of the files before it stay
    loaded.  An error whose [code] is "ENOENT" is not thrown: the load ends
    with the warning that the criteria directory was not found, also when
    it was a file that was missing.  Any other error is thrown, with
    nothing printed. *)
Theorem loadRules_stops_at_first_error (renv : RulesEnv)
    (options : CriteriaEngineOptions) (rules : list CriteriaRule)
    (error : IOError) :
  let dir := criteriaDir options in
  let outcome := loadRules renv options rules in
  (readdir renv dir = inl error -> caught dir error rules outcome) /\
  (forall files before bad after docs,
     readdir renv dir = inr files ->
     List.filter is_yaml files = before ++ bad :: after ->
     (forall f, f ∈ before ->
        read_rules renv (rules_path_join renv dir f) = inr (docs f)) ->
     read_rules renv (rules_path_join renv dir bad) = inl error ->
     caught dir error (rules ++ loaded docs before) outcome).
Proof.
  intros dir outcome. subst dir outcome. unfold loadRules. split.
  - intros ->. apply load_catch_caught.
  - intros files before bad after docs -> -> Hbefore Hbad.
    rewrite (load_files_error _ _ docs before bad after rules error Hbefore Hbad).
    apply load_catch_caught.
Qed.

Lemma loadRules_stops_at_first_error_witness :
  let denied := Demo.not_permitted "checks/criteria/c.yaml" in
  let missing := Demo.no_entry "checks/criteria/c.yaml" in
  let outcome error :=
    loadRules (Demo.rules_env (inl error)) Demo.criteria_options [] in
  load_thrown (outcome denied) = Some denied /\
  load_rules (outcome denied) = [Demo.unrefined_need] /\
  load_thrown (outcome missing) = None /\
  load_rules (outcome missing) = [Demo.unrefined_need] /\
  load_console (outcome missing) =
    [ConsoleWarn "Criteria directory not found: checks/criteria"].
Proof.
  intros denied missing outcome.
  assert (forall error,
            caught "checks/criteria" error [Demo.unrefined_need]
                   (outcome error)) as Hcaught.
  { intros error.
    apply (proj2 (loadRules_stops_at_first_error
                    (Demo.rules_env (inl error)) Demo.criteria_options []
                    error)
             ["a.yaml"; "README.md"; "b.yml"; "c.yaml"; "yaml"]
             ["a.yaml"; "b.yml"] "c.yaml" [] Demo.rule_documents).
    - vm_compute. reflexivity.
    - vm_compute. reflexivity.
    - intros f Hf. rewrite !elem_of_cons, elem_of_nil in Hf.
      destruct Hf as [-> | [-> | []]]; vm_compute; reflexivity.
    - vm_compute. reflexivity. }
  destruct (Hcaught denied) as (Hrules & _ & Hthrown).
  destruct (Hcaught missing) as (Hrules' & Hwarn & _).
  destruct Hthrown as [Hthrown _]; [vm_compute; discriminate|].
  destruct Hwarn as [Hnone Hconsole]; [vm_compute; reflexivity|].
  repeat split; assumption.
Defined.

Section ReloadFacts.

Variable host : JsHost.

Lemma fmap_imap_ext {A B C} (g : B -> C) (f f' : nat -> A -> B)
    (l : list A) :
  (forall i x, g (f i x) = g (f' i x)) ->
  g <$> imap f l = g <$> imap f' l.
Proof.
  revert f f'. induction l as [|x l IH]; intros f f' Hg; [done|].
  rewrite !imap_cons, !fmap_cons, Hg. f_equal. apply IH.
  intros i y. apply Hg.
Qed.

Lemma evaluateRule_severities rule ssot tick tick' :
  diag_severity <$> (evaluateRule host rule ssot tick).1 =
  diag_severity <$> (evaluateRule host rule ssot tick').1.
Proof.
  unfold evaluateRule.
  destruct (checkRuleCondition host rule ssot) as [[vs|m] out]; simpl; [|done].
  by apply fmap_imap_ext.
Qed.

Lemma evaluateRules_severities rules ssot tick tick' :
  diag_severity <$> (evaluateRules host rules ssot tick).1 =
  diag_severity <$> (evaluateRules host rules ssot tick').1.
Proof.
  revert tick tick'. induction rules as [|rule rules IH]; intros tick tick';
    [done|].
  rewrite !evaluateRules_cons. simpl. rewrite !fmap_app.
  f_equal; [apply evaluateRule_severities | apply IH].
Qed.

Lemma count_severity_fmap sev (ds ds' : list Diagnostic) :
  diag_severity <$> ds = diag_severity <$> ds' ->
  count_severity sev ds = count_severity sev ds'.
Proof.
  unfold count_severity. intros Heq. f_equal.
  revert ds' Heq. induction ds as [|d ds IH]; intros [|d' ds'] Heq;
    try done.
  injection Heq as Hd Hds.
  destruct (decide (diag_severity d = sev)) as [Hs|Hs].
  - rewrite !filter_cons_True by congruence. simpl. f_equal. by apply IH.
  - rewrite !filter_cons_False by congruence. by apply IH.
Qed.

Lemma count_severity_app sev (ds ds' : list Diagnostic) :
  count_severity sev (ds ++ ds') =
  (count_severity sev ds + count_severity sev ds')%Z.
Proof. unfold count_severity. rewrite filter_app, length_app. lia. Qed.

Lemma evaluate_twice rules ssot :
  let ev1 := (evaluate host rules ssot).1 in
  let ev2 := (evaluate host (rules ++ rules) ssot).1 in
  ev_total_rules ev2 = (2 * ev_total_rules ev1)%Z /\
  length (ev_diagnostics ev2) = 2 * length (ev_diagnostics ev1) /\
  ev_failed ev2 = (2 * ev_failed ev1)%Z /\
  ev_warned ev2 = (2 * ev_warned ev1)%Z /\
  ev_passed ev2 = (2 * ev_passed ev1)%Z.
Proof.
  intros ev1 ev2.
  destruct (evaluate_counts host rules ssot) as (Ht1 & Hp1 & Hw1 & Hf1 & _).
  destruct (evaluate_counts host (rules ++ rules) ssot)
    as (Ht2 & Hp2 & Hw2 & Hf2 & _).
  fold ev1 in Ht1, Hp1, Hw1, Hf1. fold ev2 in Ht2, Hp2, Hw2, Hf2.
  assert (diag_severity <$> ev_diagnostics ev2 =
          diag_severity <$> (ev_diagnostics ev1 ++ ev_diagnostics ev1))
    as Hsev.
  { subst ev1 ev2. rewrite !evaluate_diagnostics, evaluateRules_app.
    rewrite !fmap_app. f_equal. apply evaluateRules_severities. }
  assert (length (ev_diagnostics ev2) = 2 * length (ev_diagnostics ev1))
    as Hlen.
  { apply (f_equal length) in Hsev.
    rewrite !length_fmap, length_app in Hsev. lia. }
  rewrite Ht2, Hp2, Hw2, Hf2, Ht1, Hp1, Hw1, Hf1.
  rewrite !(count_severity_fmap _ _ _ Hsev), !count_severity_app.
  rewrite length_app, Hlen. repeat split; lia.
Qed.

End ReloadFacts.

(** X27.  [loadRules] appends to the loaded rules and never clears them, so
    loading is not idempotent: after a second load of the same directory
    every rule is held twice, and an evaluation counts twice the rules and
    reports every diagnostic twice, with twice the failures and warnings. *)
Theorem loadRules_twice_reports_twice (host : JsHost) (renv : RulesEnv)
    (options : CriteriaEngineOptions) (files : list string)
    (docs : string -> option (list CriteriaRule)) (ssot : SSoT) :
  readdir renv (criteriaDir options) = inr files ->
  (forall f, f ∈ files -> yaml_name f ->
     read_rules renv (rules_path_join renv (criteriaDir options) f) =
     inr (docs f)) ->
  let once := load_rules (criteria_initialize renv options []) in
  let twice := load_rules (loadRules renv options once) in
  let ev1 := (evaluate host once ssot).1 in
  let ev2 := (evaluate host twice ssot).1 in
  (autoLoad options <> Some false -> twice = once ++ once) /\
  (autoLoad options <> Some false ->
   ev_total_rules ev2 = (2 * ev_total_rules ev1)%Z /\
   length (ev_diagnostics ev2) = 2 * length (ev_diagnostics ev1) /\
   ev_failed ev2 = (2 * ev_failed ev1)%Z /\
   ev_warned ev2 = (2 * ev_warned ev1)%Z /\
   ev_passed ev2 = (2 * ev_passed ev1)%Z).
Proof.
  intros Hdir Hread once twice ev1 ev2.
  assert (autoLoad options <> Some false -> twice = once ++ once) as Htwice.
  { intros Hauto. subst twice once. unfold criteria_initialize.
    rewrite !(loadRules_all _ _ _ _ _ Hdir Hread).
    destruct (autoLoad options) as [[]|]; try done;
      rewrite !(loadRules_all _ _ _ _ _ Hdir Hread); done. }
  split; [done|]. intros Hauto. subst ev2. rewrite (Htwice Hauto).
  apply evaluate_twice.
Qed.

Lemma loadRules_twice_reports_twice_witness :
  let renv := Demo.rules_env (inr (Some [Demo.no_requirement])) in
  let once := load_rules (criteria_initialize renv Demo.criteria_options []) in
  let twice := load_rules (loadRules renv Demo.criteria_options once) in
  length (ev_diagnostics (evaluate Demo.host once Demo.graph).1) = 2 /\
  length (ev_diagnostics (evaluate Demo.host twice Demo.graph).1) = 4.
Proof.
  intros renv once twice.
  pose proof (loadRules_twice_reports_twice Demo.host renv
                Demo.criteria_options
                ["a.yaml"; "README.md"; "b.yml"; "c.yaml"; "yaml"]
                Demo.rule_documents Demo.graph) as Hload.
  cbv zeta in Hload.
  destruct Hload as [_ Hev].
  - vm_compute. reflexivity.
  - intros f Hf Hyaml. apply is_yaml_iff in Hyaml.
    rewrite !elem_of_cons, elem_of_nil in Hf.
    destruct Hf as [-> | [-> | [-> | [-> | [-> | []]]]]];
      first [ vm_compute in Hyaml; discriminate Hyaml
            | vm_compute; reflexivity ].
  - destruct Hev as (_ & Hlen & _); [vm_compute; discriminate|].
    split; [vm_compute; reflexivity|].
    subst twice once renv. rewrite Hlen. vm_compute. reflexivity.
Defined.

(** * Properties of initializing the intent engine *)

Lemma ensure_indexes_graph (s s' : SSoT) :
  ensure_indexes s = Ok s' ->
  meta s' = meta s /\ nodes s' = nodes s /\ edges s' = edges s.
Proof.
  unfold ensure_indexes.
  destruct (indexes s); [by intros [= <-]|].
  destruct (build_indexes s); [by intros [= <-] | done].
Qed.

Lemma initialize_success ienv options engine engine' :
  initialize ienv options engine = (None, engine') ->
  exists ssotDoc schemaDoc catalogDoc s',
    read_ssot ienv (ssotPath options) = inr ssotDoc /\
    read_schema ienv (effectiveSchemaPath options) = inr schemaDoc /\
    read_catalog ienv (catalog_path ienv options) = inr catalogDoc /\
    ensure_indexes ssotDoc = Ok s' /\
    engine' =
      {| eng_ssot := Some s';
         eng_schema := Some schemaDoc;
         eng_catalog :=
           Some {| catalog_version := doc_version catalogDoc;
                   catalog_intents := default [] (doc_intents catalogDoc) |} |}.
Proof.
  unfold initialize, catalog_path.
  destruct (read_ssot ienv (ssotPath options)) as [e|ssotDoc]; [done|].
  destruct (read_schema ienv (effectiveSchemaPath options)) as [e|schemaDoc];
    [done|].
  destruct (read_catalog ienv _) as [e|catalogDoc]; [done|].
  destruct (ensure_indexes ssotDoc) as [s'|m] eqn:Hensure; [|done].
  intros [= <-]. by exists ssotDoc, schemaDoc, catalogDoc, s'.
Qed.

(** X28.  After [initialize] has returned, the engine holds the nodes, the
    edges and the meta data of the stored document.  The indexes are built
    only when the document has none, and are then the projection of its
    nodes and edges; indexes that the document carries are kept as stored,
    whether or not they agree with its nodes and edges. *)
Theorem initialize_indexes_only_when_missing (ienv : InitEnv)
    (options : IntentEngineOptions) (engine engine' : EngineFields) :
  initialize ienv options engine = (None, engine') ->
  exists ssotDoc s,
    read_ssot ienv (ssotPath options) = inr ssotDoc /\
    eng_ssot engine' = Some s /\
    meta s = meta ssotDoc /\ nodes s = nodes ssotDoc /\
    edges s = edges ssotDoc /\
    (indexes ssotDoc = None -> indexed s) /\
    (indexes ssotDoc <> None -> s = ssotDoc) /\
    (indexed s <-> indexes ssotDoc = None \/ indexed ssotDoc).
Proof.
  intros Hinit.
  apply initialize_success in Hinit
    as (ssotDoc & schemaDoc & catalogDoc & s' & Hssot & _ & _ & Hensure & ->).
  exists ssotDoc, s'. simpl.
  destruct (ensure_indexes_graph ssotDoc s' Hensure)
    as (Hmeta & Hnodes & Hedges).
  repeat (split; [done|]).
  unfold ensure_indexes in Hensure.
  destruct (indexes ssotDoc) as [ix|] eqn:Hix.
  - injection Hensure as <-. split; [done|]. split; [done|].
    split; [by right|]. by intros [|].
  - destruct (build_indexes ssotDoc) as [ix|m] eqn:Hbuild; [|done].
    injection Hensure as <-.
    assert (indexed (set_indexes (Some ix) ssotDoc)) as Hindexed
      by (by apply indexed_set_indexes).
    split; [done|]. split; [done|]. split; [by left | done].
Qed.

Lemma initialize_indexes_only_when_missing_witness :
  exists engine',
    initialize (Demo.init_env None (inr Demo.schema)) Demo.autosaving
               uninitialized = (None, engine') /\
    eng_ssot engine' = Some Demo.graph.
Proof.
  destruct (initialize (Demo.init_env None (inr Demo.schema)) Demo.autosaving
                       uninitialized) as [thrown engine'] eqn:Hinit.
  assert (thrown = None) as -> by
    (vm_compute in Hinit; by injection Hinit as <- _).
  exists engine'. split; [done|].
  destruct (initialize_indexes_only_when_missing _ _ _ _ Hinit)
    as (ssotDoc & s & _ & Hs & _).
  vm_compute in Hinit. injection Hinit as <-. vm_compute. reflexivity.
Defined.

(** X29.  [initialize] is not all-or-nothing.  It throws the error of the
    first read that fails, or, when the three reads succeeded and the
    document carries no indexes, the exception of [rebuildIndexes]; and it
    keeps what it assigned before: when the document cannot be read nothing
    is assigned; when the schema cannot be read the engine holds the
    document and its former schema and catalog; when the catalog cannot be
    read it holds the document and the schema; when the indexes cannot be
    built it holds the document, the schema and the catalog.  In every such
    case the document is held as stored, its indexes not built. *)
Theorem initialize_keeps_partial_state (ienv : InitEnv)
    (options : IntentEngineOptions) (engine engine' : EngineFields)
    (error : IOError) :
  initialize ienv options engine = (Some error, engine') ->
  (read_ssot ienv (ssotPath options) = inl error /\ engine' = engine) \/
  (exists ssotDoc,
     read_ssot ienv (ssotPath options) = inr ssotDoc /\
     eng_ssot engine' = Some ssotDoc /\
     ((read_schema ienv (effectiveSchemaPath options) = inl error /\
       eng_schema engine' = eng_schema engine /\
       eng_catalog engine' = eng_catalog engine) \/
      (exists schemaDoc,
         read_schema ienv (effectiveSchemaPath options) = inr schemaDoc /\
         eng_schema engine' = Some schemaDoc /\
         ((read_catalog ienv (catalog_path ienv options) = inl error /\
           eng_catalog engine' = eng_catalog engine) \/
          (exists catalogDoc message,
             read_catalog ienv (catalog_path ienv options) = inr catalogDoc /\
             indexes ssotDoc = None /\
             build_indexes ssotDoc = Throw message /\
             error = {| io_code := None; io_message := message |} /\
             eng_catalog engine' =
               Some {| catalog_version := doc_version catalogDoc;
                       catalog_intents :=
                         default [] (doc_intents catalogDoc) |}))))).
Proof.
  unfold initialize, catalog_path.
  destruct (read_ssot ienv (ssotPath options)) as [e|ssotDoc].
  { intros [= -> <-]. by left. }
  destruct (read_schema ienv (effectiveSchemaPath options)) as [e|schemaDoc].
  { intros [= -> <-]. right. exists ssotDoc. simpl.
    repeat (split; [done|]). by left. }
  destruct (read_catalog ienv _) as [e|catalogDoc].
  { intros [= -> <-]. right. exists ssotDoc. simpl.
    repeat (split; [done|]). right. exists schemaDoc.
    repeat (split; [done|]). by left. }
  unfold ensure_indexes.
  destruct (indexes ssotDoc) as [ix|] eqn:Hix; [done|].
  destruct (build_indexes ssotDoc) as [ix|m] eqn:Hbuild; [done|].
  intros [= <- <-]. right. exists ssotDoc. simpl.
  repeat (split; [done|]). right. exists schemaDoc.
  repeat (split; [done|]). right. by exists catalogDoc, m.
Qed.

Lemma initialize_keeps_partial_state_witness :
  let error := Demo.no_entry "standards/compiled/effective_schema.yaml" in
  (exists engine',
     initialize (Demo.init_env None (inl error)) Demo.autosaving
                uninitialized = (Some error, engine') /\
     eng_ssot engine' = Some Demo.stored_graph /\
     eng_schema engine' = None) /\
  (exists engine',
     initialize (Demo.init_env_of Demo.stored_constructor None
                   (inr Demo.schema)) Demo.autosaving uninitialized =
       (Some {| io_code := None;
                io_message := "byKind[node.kind].push is not a function" |},
        engine') /\
     eng_ssot engine' = Some Demo.stored_constructor /\
     eng_schema engine' = Some Demo.schema).
Proof.
  intros error. split.
  - destruct (initialize (Demo.init_env None (inl error)) Demo.autosaving
                         uninitialized) as [thrown engine'] eqn:Hinit.
    assert (thrown = Some error) as -> by
      (vm_compute in Hinit; by injection Hinit as <- _).
    exists engine'. split; [done|].
    destruct (initialize_keeps_partial_state _ _ _ _ _ Hinit)
      as [[Hread _] | (ssotDoc & Hread & Hssot & Hschema)].
    + vm_compute in Hread. discriminate Hread.
    + vm_compute in Hread. injection Hread as <-.
      split; [exact Hssot|].
      destruct Hschema as [(_ & Hschema & _) | (schemaDoc & Hread' & _)];
        [exact Hschema | vm_compute in Hread'; discriminate Hread'].
  - destruct (initialize (Demo.init_env_of Demo.stored_constructor None
                            (inr Demo.schema)) Demo.autosaving uninitialized)
      as [thrown engine'] eqn:Hinit.
    assert (thrown = Some {| io_code := None;
                             io_message :=
                               "byKind[node.kind].push is not a function" |})
      as -> by (vm_compute in Hinit; by injection Hinit as <- _).
    exists engine'. split; [done|].
    destruct (initialize_keeps_partial_state _ _ _ _ _ Hinit)
      as [[Hread _] | (ssotDoc & Hread & Hssot & Hschema)].
    + vm_compute in Hread. discriminate Hread.
    + vm_compute in Hread. injection Hread as <-.
      split; [exact Hssot|].
      destruct Hschema as [(Hread' & _) | (schemaDoc & Hread' & Hschema & _)];
        [vm_compute in Hread'; discriminate Hread'|].
      vm_compute in Hread'. injection Hread' as <-. exact Hschema.
Defined.

(** X30.  A catalog document without [intents] gives an engine that knows
    no intent: [initialize] returns, and afterwards [execute] answers every
    intent with the single validation error UNKNOWN_INTENT, changes nothing
    and writes no file. *)
Theorem initialize_without_intents (ienv : InitEnv) (env : ExecEnv)
    (options : IntentEngineOptions) (engine engine' : EngineFields)
    (catalogDoc : CatalogDoc) (intent : Intent) :
  initialize ienv options engine = (None, engine') ->
  read_catalog ienv (catalog_path ienv options) = inr catalogDoc ->
  doc_intents catalogDoc = None \/ doc_intents catalogDoc = Some [] ->
  exists schema catalog s,
    eng_schema engine' = Some schema /\
    eng_catalog engine' = Some catalog /\
    eng_ssot engine' = Some s /\
    execute schema catalog options env intent s =
    Some (Ok (validation_failure (uuidv4 env 0)
                [ {| err_code := "UNKNOWN_INTENT";
                     err_message := "Intent type '" +:+ intent_type intent +:+
                                    "' not found in catalog";
                     err_field := None |} ]), s, []).
Proof.
  intros Hinit Hcatalog Hnone.
  apply initialize_success in Hinit
    as (ssotDoc & schemaDoc & catalogDoc' & s' & _ & _ & Hcatalog' & _ & ->).
  rewrite Hcatalog in Hcatalog'. injection Hcatalog' as <-.
  eexists _, _, _. simpl. repeat (split; [reflexivity|]).
  set (catalog := {| catalog_version := doc_version catalogDoc;
                     catalog_intents := default [] (doc_intents catalogDoc) |}).
  apply execute_invalid; [|done].
  apply validateIntent_unknown. subst catalog. simpl.
  intros intentDef Hin.
  destruct Hnone as [Hnone | Hnone]; rewrite Hnone in Hin; simpl in Hin;
    by apply elem_of_nil in Hin.
Qed.

Lemma initialize_without_intents_witness :
  exists engine',
    initialize (Demo.init_env None (inr Demo.schema)) Demo.in_memory
               uninitialized = (None, engine') /\
    execute Demo.schema
            {| catalog_version := "1.0"; catalog_intents := [] |}
            Demo.in_memory Demo.working_env
            (Demo.mk_intent "I.AddNode" [("kind", JStr "Need")]) Demo.graph =
    Some (Ok (validation_failure "uuid-0"
                [ {| err_code := "UNKNOWN_INTENT";
                     err_message :=
                       "Intent type 'I.AddNode' not found in catalog";
                     err_field := None |} ]), Demo.graph, []).
Proof.
  destruct (initialize (Demo.init_env None (inr Demo.schema)) Demo.in_memory
                       uninitialized) as [thrown engine'] eqn:Hinit.
  assert (thrown = None) as -> by
    (vm_compute in Hinit; by injection Hinit as <- _).
  exists engine'. split; [done|].
  destruct (initialize_without_intents
              (Demo.init_env None (inr Demo.schema)) Demo.working_env
              Demo.in_memory uninitialized engine'
              {| doc_version := "1.0"; doc_intents := None |}
              (Demo.mk_intent "I.AddNode" [("kind", JStr "Need")]) Hinit)
    as (schema & catalog & s & Hschema & Hcatalog & Hs & Hexec).
  - vm_compute. reflexivity.
  - by left.
  - vm_compute in Hinit. injection Hinit as <-.
    injection Hschema as <-. injection Hcatalog as <-. injection Hs as <-.
    exact Hexec.
Defined.
